(** * SkillGenome X analytics core: a shallow embedding in Rocq

    Sources embedded:
    - backend/app/services/bot_filter.py   (apply_bot_filter, _normalize_text)
    - backend/app/services/graph_build.py  (build_skill_graph)
    - backend/app/services/clustering.py   (cluster_regions)
    - backend/app/services/forecasting.py  (forecast_skill, _empty_result)
    - backend/app/services/ingest.py       (ingest_csv, after read_csv)
    - backend/app/main.py                  (get_overview)

    Modelling conventions.
    - A DataFrame is its list of column names plus its rows; a row is a
      record of the ingested fields.  Missing values (pandas NaN) of
      [raw_text] and [skill_tags] are [None].
    - Timestamps are nanoseconds since the Unix epoch ([Z]); ingestion drops
      unparseable timestamps, so every row carries one.  The datetime64
      unit of the column ([Forecast.Resolution]) is a parameter of the
      forecaster: a column of unit s holds multiples of 10^9 ns.
    - Python floats are modelled by exact rationals [Q]; Python's
      [round(x, n)] is rounding half to even at [n] decimals.  Where a
      result depends on binary64 rounding ([percent_removed]), the float
      operations round to the nearest double ([Py.float_of_Q]) and
      [round(x, n)] rounds the double's exact value, then converts back.
    - Python strings are ASCII strings; [str.strip], [str.lower],
      [str.split] and the regular expression [\s+] follow Python's
      definitions on ASCII.
    - For aliasing, module [Effects] replays each entry point over a heap
      of DataFrame objects: [.copy()], selections and [.assign] allocate,
      column assignments and [inplace=True] write to the object they name;
      what the pandas expressions compute is left abstract there. *)

From Stdlib Require Import List String Ascii ZArith QArith Qround Qabs Qpower Lqa Bool Lia.
From Stdlib Require Import Sorting.Sorted Sorting.Permutation Structures.OrdersEx.
Import ListNotations.

Open Scope list_scope.

(* ------------------------------------------------------------------ *)
(** ** Python helpers *)

Module Py.

(** [str.isspace] on ASCII: \t \n \v \f \r, the separators 0x1c-0x1f and
    the space. *)
Definition is_space (c : ascii) : bool :=
  let n := nat_of_ascii c in
  ((9 <=? n) && (n <=? 13))%nat || ((28 <=? n) && (n <=? 32))%nat.

Fixpoint lstrip (l : list ascii) : list ascii :=
  match l with
  | [] => []
  | c :: r => if is_space c then lstrip r else l
  end.

(** [str.strip()] *)
Definition strip_l (l : list ascii) : list ascii := rev (lstrip (rev (lstrip l))).

Definition strip (s : string) : string :=
  string_of_list_ascii (strip_l (list_ascii_of_string s)).

(** [str.lower()] on ASCII *)
Definition lower_char (c : ascii) : ascii :=
  let n := nat_of_ascii c in
  if ((65 <=? n) && (n <=? 90))%nat then ascii_of_nat (n + 32) else c.

Definition lower (s : string) : string :=
  string_of_list_ascii (map lower_char (list_ascii_of_string s)).

(** [re.sub(r"\s+", " ", s)]: every maximal run of whitespace becomes one
    space. *)
Fixpoint collapse_ws (in_run : bool) (l : list ascii) : list ascii :=
  match l with
  | [] => []
  | c :: r =>
      if is_space c
      then if in_run then collapse_ws true r else " "%char :: collapse_ws true r
      else c :: collapse_ws false r
  end.

Definition sub_ws (s : string) : string :=
  string_of_list_ascii (collapse_ws false (list_ascii_of_string s)).

(** [s.split(";")]: always at least one piece. *)
Fixpoint split_sc (l : list ascii) : list (list ascii) :=
  match l with
  | [] => [[]]
  | c :: r =>
      if Ascii.eqb c ";"%char then [] :: split_sc r
      else match split_sc r with
           | [] => [[c]]
           | p :: ps => (c :: p) :: ps
           end
  end.

Definition split (s : string) : list string :=
  map string_of_list_ascii (split_sc (list_ascii_of_string s)).

(** Distinct elements in order of first appearance (pandas [unique],
    [groupby(sort=False)] key order). *)
Section Uniq.
Context {A : Type} (dec : forall x y : A, {x = y} + {x <> y}).

Fixpoint uniq_from (seen : list A) (l : list A) : list A :=
  match l with
  | [] => []
  | x :: r =>
      if in_dec dec x seen then uniq_from seen r else x :: uniq_from (x :: seen) r
  end.

Definition uniq (l : list A) : list A := uniq_from [] l.

(** [Series.nunique()] *)
Definition nunique (l : list A) : nat := List.length (uniq l).

Lemma uniq_from_In (seen l : list A) (x : A) :
  In x (uniq_from seen l) <-> In x l /\ ~ In x seen.
Proof.
  revert seen; induction l as [|y r IH]; intros seen; simpl.
  - tauto.
  - destruct (in_dec dec y seen) as [Hy|Hy]; simpl.
    + rewrite IH. split; [tauto|]. intros [[<-|H] H']; [contradiction|tauto].
    + rewrite IH. simpl. split.
      * intros [<-|[H1 H2]]; [tauto|]. tauto.
      * intros [[<-|H] H']; [tauto|].
        destruct (dec y x) as [->|Hne]; [tauto|]. right. split; [assumption|].
        intros [E|E]; [congruence|contradiction].
Qed.

Lemma uniq_In (l : list A) (x : A) : In x (uniq l) <-> In x l.
Proof. unfold uniq. rewrite uniq_from_In. simpl. tauto. Qed.

Lemma uniq_from_NoDup (seen l : list A) : NoDup (uniq_from seen l).
Proof.
  revert seen; induction l as [|y r IH]; intros seen; simpl.
  - constructor.
  - destruct (in_dec dec y seen); [apply IH|].
    constructor; [|apply IH]. rewrite uniq_from_In. simpl. tauto.
Qed.

Lemma uniq_NoDup (l : list A) : NoDup (uniq l).
Proof. apply uniq_from_NoDup. Qed.

End Uniq.

(** [round(x, n)] on the exact value: round half to even at [n] decimals. *)
Definition round_half_even (q : Q) : Z :=
  let f := Qfloor q in
  let d := q - inject_Z f in
  match Qcompare d (1 # 2) with
  | Lt => f
  | Gt => f + 1
  | Eq => if Z.even f then f else f + 1
  end%Z.

Definition round (q : Q) (n : nat) : Q :=
  let s := inject_Z (10 ^ Z.of_nat n) in
  inject_Z (round_half_even (q * s)) / s.

(** Binary64 doubles, as the rationals they denote.  [Qlog2_floor a] is
    floor(log2 a) for [a > 0]; [float_exp a] the exponent of the grid of
    doubles around [a] (53-bit significands, least exponent -1074 for
    subnormals).  [float_of_Q] rounds to the nearest double, ties to even;
    overflow to infinity is outside the model. *)
Definition Qlog2_floor (a : Q) : Z :=
  let l := (Z.log2 (Qnum a) - Z.log2 (Zpos (Qden a)))%Z in
  if Qle_bool (2 ^ l) a then l else (l - 1)%Z.

Definition float_exp (a : Q) : Z := Z.max (-1074) (Qlog2_floor a - 52).

Definition float_of_Q (x : Q) : Q :=
  if Qeq_bool x 0 then 0 else
  let a := Qabs x in
  let e := float_exp a in
  let m := inject_Z (round_half_even (a / 2 ^ e)) * 2 ^ e in
  if Qle_bool 0 x then m else - m.

(** [round(x, n)] on a double [x]: the exact value of [x] rounded half to
    even at [n] decimals (CPython's correctly rounded [float.__round__]),
    and the result converted to the nearest double. *)
Definition round_float (x : Q) (n : nat) : Q := float_of_Q (round x n).

Definition Qltb (x y : Q) : bool := negb (Qle_bool y x).

Lemma Qltb_spec (x y : Q) : Qltb x y = true <-> x < y.
Proof.
  unfold Qltb. rewrite negb_true_iff. split.
  - intros H. apply Qnot_le_lt. intros H'. apply Qle_bool_iff in H'. congruence.
  - intros H. destruct (Qle_bool y x) eqn:E; [|reflexivity].
    apply Qle_bool_iff in E. exfalso. apply (Qlt_not_le x y); assumption.
Qed.

(** [max(a, b)] *)
Definition Qmax_py (a b : Q) : Q := if Qltb a b then b else a.

End Py.

(* ------------------------------------------------------------------ *)
(** ** Data model: the ingested record table *)

Module Data.

(** One ingested record (ingest.py REQUIRED_COLUMNS). *)
Record Row := mkRow {
  user_id : string;
  region : string;
  timestamp : Z;               (* ns since the epoch *)
  source : string;
  raw_text : option string;    (* None: NaN *)
  skill_tags : option string;  (* None: NaN *)
  engagement : Q
}.

(** A DataFrame: its column labels and its rows. *)
Record DataFrame := mkDF { columns : list string; rows : list Row }.

(** [df.empty]: no rows or no columns. *)
Definition empty (df : DataFrame) : bool :=
  match columns df, rows df with
  | [], _ | _, [] => true
  | _, _ => false
  end.

Definition has_col (c : string) (df : DataFrame) : bool :=
  existsb (String.eqb c) (columns df).

(** Exceptions the embedded code can raise. *)
Inductive PyError :=
| ValueError (missing : list string)   (* bot_filter: missing columns *)
| InvalidParameterError                (* sklearn KMeans: n_clusters < 1 *)
| KeyError (col : string).             (* df[col] on an absent column *)

Inductive result (A : Type) := Ok (a : A) | Err (e : PyError).
Arguments Ok {A} a.
Arguments Err {A} e.

Definition is_err {A} (r : result A) : bool :=
  match r with Err _ => true | Ok _ => false end.

(** [Series.dropna()] on an optional column *)
Fixpoint dropna {A} (l : list (option A)) : list A :=
  match l with
  | [] => []
  | Some x :: r => x :: dropna r
  | None :: r => dropna r
  end.

Fixpoint assoc {B} (k : string) (l : list (string * B)) : option B :=
  match l with
  | [] => None
  | (k', v) :: r => if String.eqb k k' then Some v else assoc k r
  end.

Lemma assoc_map {B} (f : string -> B) (l : list string) (k : string) :
  In k l -> assoc k (map (fun u => (u, f u)) l) = Some (f k).
Proof.
  induction l as [|u r IH]; simpl; [contradiction|].
  intros [<-|H].
  - rewrite String.eqb_refl. reflexivity.
  - destruct (String.eqb k u) eqn:E; [apply String.eqb_eq in E; subst; reflexivity|].
    apply IH, H.
Qed.

End Data.

(* ------------------------------------------------------------------ *)
(** ** Bot Detector: services/bot_filter.py *)

Module BotFilter.
Import Data.

(** The configuration object read with [getattr(config, name, default)]. *)
Record Config := mkConfig {
  BOT_POSTS_PER_DAY_THRESHOLD : option Q;
  BOT_DUPLICATE_TEXT_THRESHOLD : option Q
}.

(** app/config.py *)
Definition app_config : Config := mkConfig (Some 40) (Some (75 # 100)).

Definition threshold_ppd (cfg : Config) : Q :=
  match BOT_POSTS_PER_DAY_THRESHOLD cfg with Some t => t | None => 40 end.

Definition threshold_dup (cfg : Config) : Q :=
  match BOT_DUPLICATE_TEXT_THRESHOLD cfg with Some t => t | None => 75 # 100 end.

(** [required_cols], listed in sorted order so that the error carries
    [sorted(missing)]. *)
Definition required_cols : list string :=
  ["engagement"; "raw_text"; "timestamp"; "user_id"]%string.

Definition missing_cols (df : DataFrame) : list string :=
  filter (fun c => negb (has_col c df)) required_cols.

Definition DAY_NS : Z := 86400 * 1000000000.

(** [ts.dt.floor("D")] *)
Definition day_floor (t : Z) : Z := (t / DAY_NS) * DAY_NS.

(** [_normalize_text]: lower, strip, collapse whitespace; NaN stays NaN. *)
Definition normalize_text (s : string) : string := Py.sub_ws (Py.strip (Py.lower s)).

Definition _norm_text (r : Row) : option string := option_map normalize_text (raw_text r).

(** The rows of one [groupby("user_id")] group. *)
Definition group (rows : list Row) (u : string) : list Row :=
  filter (fun r => String.eqb (user_id r) u) rows.

Definition total_posts (g : list Row) : nat := List.length g.

(** [g["_day"].nunique().clip(lower=1)] *)
Definition active_days (g : list Row) : nat :=
  Nat.max 1 (Py.nunique Z.eq_dec (map (fun r => day_floor (timestamp r)) g)).

Definition posts_per_day (g : list Row) : Q :=
  inject_Z (Z.of_nat (total_posts g)) / inject_Z (Z.of_nat (active_days g)).

(** [g["_norm_text"].nunique()]: NaN is not counted. *)
Definition unique_texts (g : list Row) : nat :=
  Py.nunique string_dec (dropna (map _norm_text g)).

Definition duplicate_text_ratio (g : list Row) : Q :=
  1 - inject_Z (Z.of_nat (unique_texts g)) / inject_Z (Z.of_nat (Nat.max (total_posts g) 1)).

(** [user_metrics]: one row per user id, in order of first appearance. *)
Definition user_metrics (rows : list Row) : list (string * (Q * Q)) :=
  map (fun u => (u, (posts_per_day (group rows u), duplicate_text_ratio (group rows u))))
      (Py.uniq string_dec (map user_id rows)).

(** A row of the annotated copy [df] after the metric and decision columns
    have been added and the helper columns dropped. *)
Record OutRow := mkOut {
  orow : Row;
  o_posts_per_day : option Q;         (* df["user_id"].map(...) *)
  o_duplicate_text_ratio : option Q;
  is_bot : bool;
  trust_score : Q
}.

(** [NaN > t] is [False]. *)
Definition gt_opt (x : option Q) (t : Q) : bool :=
  match x with Some v => Py.Qltb t v | None => false end.

Definition annotate (cfg : Config) (rows : list Row) : list OutRow :=
  let m := user_metrics rows in
  map (fun r =>
         let p := option_map fst (assoc (user_id r) m) in
         let d := option_map snd (assoc (user_id r) m) in
         let b := gt_opt p (threshold_ppd cfg) || gt_opt d (threshold_dup cfg) in
         mkOut r p d b (if b then 1 # 5 else 1))
      rows.

Record Stats := mkStats {
  total_users : nat;
  bots_detected : nat;
  percent_removed : Q
}.

Definition apply_bot_filter (df : DataFrame) (cfg : Config)
  : result (list OutRow * Stats) :=
  match missing_cols df with
  | (_ :: _) as missing => Err (ValueError missing)
  | [] =>
      let ann := annotate cfg (rows df) in
      let total := Py.nunique string_dec (map (fun o => user_id (orow o)) ann) in
      let bots := Py.nunique string_dec
                    (map (fun o => user_id (orow o)) (filter is_bot ann)) in
      (* (100.0 * bots_detected / total_users) if total_users else 0.0:
         each int is converted to a double, each operation rounds *)
      let pct : Q := if Nat.eqb total 0 then 0
                     else Py.float_of_Q
                            (Py.float_of_Q (100 * Py.float_of_Q (inject_Z (Z.of_nat bots)))
                             / Py.float_of_Q (inject_Z (Z.of_nat total))) in
      let cleaned := filter (fun o => negb (is_bot o)) ann in
      Ok (cleaned, mkStats total bots (Py.round_float pct 2))
  end.

End BotFilter.

(** The Bot Detector's rule in the words of the specification (section 4.1),
    to be compared with [BotFilter.annotate]. *)
Module BotSpec.
Import Data BotFilter.

Definition records_of (rows : list Row) (u : string) : list Row :=
  filter (fun r => String.eqb (user_id r) u) rows.

(** Distinct calendar days with at least one record, floored at 1. *)
Definition n_active_days (rows : list Row) (u : string) : nat :=
  Nat.max 1 (List.length (nodup Z.eq_dec
                            (map (fun r => (timestamp r / DAY_NS)%Z) (records_of rows u)))).

Definition posts_per_day (rows : list Row) (u : string) : Q :=
  inject_Z (Z.of_nat (List.length (records_of rows u)))
  / inject_Z (Z.of_nat (n_active_days rows u)).

(** Distinct normalized texts (lowercase, trim, collapse whitespace). *)
Definition n_distinct_texts (rows : list Row) (u : string) : nat :=
  List.length (nodup string_dec
                 (dropna (map (fun r => option_map normalize_text (raw_text r))
                              (records_of rows u)))).

Definition duplicate_text_ratio (rows : list Row) (u : string) : Q :=
  1 - inject_Z (Z.of_nat (n_distinct_texts rows u))
      / inject_Z (Z.of_nat (Nat.max 1 (List.length (records_of rows u)))).

Definition flagged (cfg : Config) (rows : list Row) (u : string) : bool :=
  Py.Qltb (threshold_ppd cfg) (posts_per_day rows u)
  || Py.Qltb (threshold_dup cfg) (duplicate_text_ratio rows u).

(** Helper facts relating the code's counting to the specification's. *)

Lemma NoDup_same_length {A} (l1 l2 : list A) :
  NoDup l1 -> NoDup l2 -> (forall x, In x l1 <-> In x l2) ->
  List.length l1 = List.length l2.
Proof.
  intros N1 N2 H. apply Nat.le_antisymm; apply NoDup_incl_length; auto;
    intros x Hx; apply H; assumption.
Qed.

Lemma nunique_nodup {A} (dec : forall x y : A, {x = y} + {x <> y}) (l : list A) :
  Py.nunique dec l = List.length (nodup dec l).
Proof.
  unfold Py.nunique. apply NoDup_same_length.
  - apply Py.uniq_NoDup.
  - apply NoDup_nodup.
  - intros x. rewrite Py.uniq_In, nodup_In. tauto.
Qed.

Lemma uniq_from_map_inj (h : Z -> Z) (Hinj : forall x y, h x = h y -> x = y)
      (seen l : list Z) :
  Py.uniq_from Z.eq_dec (map h seen) (map h l) = map h (Py.uniq_from Z.eq_dec seen l).
Proof.
  revert seen; induction l as [|x r IH]; intros seen; simpl; [reflexivity|].
  destruct (in_dec Z.eq_dec (h x) (map h seen)) as [Hi|Hi];
    destruct (in_dec Z.eq_dec x seen) as [Hj|Hj].
  - apply IH.
  - exfalso. apply in_map_iff in Hi. destruct Hi as [y [E Hy]].
    apply Hinj in E. subst. contradiction.
  - exfalso. apply Hi, in_map, Hj.
  - simpl. f_equal. apply (IH (x :: seen)).
Qed.

Lemma active_days_spec (rows : list Row) (u : string) :
  active_days (group rows u) = n_active_days rows u.
Proof.
  unfold active_days, n_active_days. f_equal.
  rewrite <- nunique_nodup. unfold Py.nunique, Py.uniq.
  assert (E : map (fun r => day_floor (timestamp r)) (group rows u)
              = map (fun d => (d * DAY_NS)%Z) (map (fun r => (timestamp r / DAY_NS)%Z)
                                              (records_of rows u)))
    by (rewrite map_map; reflexivity).
  rewrite E. change (@nil Z) with (map (fun d => (d * DAY_NS)%Z) []).
  rewrite uniq_from_map_inj, length_map; [reflexivity|].
  intros x y H. unfold DAY_NS in H. lia.
Qed.

Lemma metrics_lookup (rows : list Row) (r : Row) :
  In r rows ->
  assoc (user_id r) (user_metrics rows)
  = Some (BotFilter.posts_per_day (group rows (user_id r)),
          BotFilter.duplicate_text_ratio (group rows (user_id r))).
Proof.
  intros Hr. unfold user_metrics.
  apply (assoc_map (fun u => (BotFilter.posts_per_day (group rows u),
                               BotFilter.duplicate_text_ratio (group rows u)))).
  apply Py.uniq_In, in_map, Hr.
Qed.

Lemma annotate_is_bot (cfg : Config) (rows : list Row) :
  map is_bot (annotate cfg rows) = map (fun r => flagged cfg rows (user_id r)) rows.
Proof.
  unfold annotate. rewrite map_map. apply map_ext_in. intros r Hr. simpl.
  rewrite (metrics_lookup rows r Hr). simpl. unfold flagged.
  unfold BotFilter.posts_per_day, posts_per_day, BotFilter.duplicate_text_ratio,
    duplicate_text_ratio, unique_texts, n_distinct_texts.
  rewrite active_days_spec, nunique_nodup, Nat.max_comm. reflexivity.
Qed.

Lemma annotate_rows (cfg : Config) (rows : list Row) :
  map orow (annotate cfg rows) = rows.
Proof. unfold annotate. rewrite map_map. simpl. apply map_id. Qed.

Lemma annotate_In (cfg : Config) (rows : list Row) (o : OutRow) :
  In o (annotate cfg rows) ->
  In (orow o) rows /\ is_bot o = flagged cfg rows (user_id (orow o)).
Proof.
  intros Ho. pose proof (annotate_is_bot cfg rows) as Hb.
  unfold annotate in *. apply in_map_iff in Ho. destruct Ho as [r [<- Hr]].
  simpl. split; [assumption|].
  rewrite map_map in Hb. simpl in Hb.
  rewrite map_ext_in_iff in Hb. apply (Hb r Hr).
Qed.

Lemma flagged_users_In (cfg : Config) (rows : list Row) (x : string) :
  In x (map (fun o => user_id (orow o)) (filter is_bot (annotate cfg rows)))
  <-> In x (filter (flagged cfg rows) (Py.uniq string_dec (map user_id rows))).
Proof.
  rewrite filter_In, Py.uniq_In, !in_map_iff. split.
  - intros [o [<- Ho]]. apply filter_In in Ho. destruct Ho as [Ho Hb].
    apply annotate_In in Ho. destruct Ho as [Hr Hf].
    split; [exists (orow o); auto|]. congruence.
  - intros [[r [<- Hr]] Hf].
    assert (Hin : In r (map orow (annotate cfg rows))) by (rewrite annotate_rows; exact Hr).
    apply in_map_iff in Hin. destruct Hin as [o [Eo Ho]].
    exists o. rewrite Eo. split; [reflexivity|].
    apply filter_In. split; [exact Ho|].
    apply annotate_In in Ho. rewrite (proj2 Ho), Eo. exact Hf.
Qed.

Lemma bots_count (cfg : Config) (rows : list Row) :
  Py.nunique string_dec (map (fun o => user_id (orow o)) (filter is_bot (annotate cfg rows)))
  = List.length (filter (flagged cfg rows) (Py.uniq string_dec (map user_id rows))).
Proof.
  apply NoDup_same_length.
  - apply Py.uniq_NoDup.
  - apply NoDup_filter, Py.uniq_NoDup.
  - intros x. rewrite Py.uniq_In. apply flagged_users_In.
Qed.

Lemma users_count (cfg : Config) (rows : list Row) :
  Py.nunique string_dec (map (fun o => user_id (orow o)) (annotate cfg rows))
  = Py.nunique string_dec (map user_id rows).
Proof.
  rewrite <- (map_map orow user_id), annotate_rows. reflexivity.
Qed.

End BotSpec.

(* ------------------------------------------------------------------ *)
(** ** Skill Graph Builder: services/graph_build.py *)

Module Graph.
Import Data.

(** Python's [<] on strings: lexicographic on code points. *)
Definition str_lt : string -> string -> Prop := String_as_OT.lt.

Fixpoint insert_sorted (x : string) (l : list string) : list string :=
  match l with
  | [] => [x]
  | y :: r =>
      match String_as_OT.compare x y with
      | Gt => y :: insert_sorted x r
      | _ => x :: l
      end
  end.

(** [sorted(...)] on a list of strings *)
Fixpoint sorted (l : list string) : list string :=
  match l with
  | [] => []
  | x :: r => insert_sorted x (sorted r)
  end.

(** [[s.strip() for s in tags.split(";") if s.strip()]] *)
Definition parse_tags (tags : string) : list string :=
  filter (fun s => negb (String.eqb s "")) (map Py.strip (Py.split tags)).

(** [sorted(set(skills))] *)
Definition skill_set (tags : string) : list string :=
  sorted (Py.uniq string_dec (parse_tags tags)).

(** [itertools.combinations(xs, 2)] *)
Fixpoint combinations2 {A} (l : list A) : list (A * A) :=
  match l with
  | [] => []
  | x :: r => map (fun y => (x, y)) r ++ combinations2 r
  end.

Definition pairs_of (tags : string) : list (string * string) :=
  combinations2 (skill_set tags).

(** [collections.Counter] keyed by skill pairs, in insertion order. *)
Definition Counter := list ((string * string) * nat).

Definition key_dec : forall x y : string * string, {x = y} + {x <> y}.
Proof. decide equality; apply string_dec. Defined.

(** [pair_counts[k] += 1] *)
Fixpoint incr (c : Counter) (k : string * string) : Counter :=
  match c with
  | [] => [(k, 1%nat)]
  | (k', n) :: r => if key_dec k k' then (k', S n) :: r else (k', n) :: incr r k
  end.

Fixpoint lookupC (c : Counter) (k : string * string) : nat :=
  match c with
  | [] => 0%nat
  | (k', n) :: r => if key_dec k k' then n else lookupC r k
  end.

(** The loop over [df["skill_tags"].dropna().astype(str)]. *)
Definition pair_counts (tags : list string) : Counter :=
  fold_left (fun c t => fold_left incr (pairs_of t) c) tags [].

(** A networkx [Graph]: its adjacency dict, node -> (neighbour -> weight),
    both in insertion order. *)
Definition Adj := list (string * list (string * nat)).

Fixpoint set_nbr (nbrs : list (string * nat)) (v : string) (w : nat) : list (string * nat) :=
  match nbrs with
  | [] => [(v, w)]
  | (v', w') :: r => if String.eqb v v' then (v', w) :: r else (v', w') :: set_nbr r v w
  end.

Definition add_node (g : Adj) (u : string) : Adj :=
  if existsb (fun e => String.eqb u (fst e)) g then g else g ++ [(u, [])].

Fixpoint set_adj (g : Adj) (u v : string) (w : nat) : Adj :=
  match g with
  | [] => []
  | (n, nbrs) :: r =>
      if String.eqb u n then (n, set_nbr nbrs v w) :: r else (n, nbrs) :: set_adj r u v w
  end.

(** [G.add_edge(u, v, weight=w)]: [_adj[u][v] = _adj[v][u] = datadict]. *)
Definition add_edge (g : Adj) (u v : string) (w : nat) : Adj :=
  set_adj (set_adj (add_node (add_node g u) v) u v w) v u w.

Definition graph_of_counts (c : Counter) : Adj :=
  fold_left (fun g kw => add_edge g (fst (fst kw)) (snd (fst kw)) (snd kw)) c [].

(** [G.degree()]: a self-loop counts twice. *)
Definition degree_of (n : string) (nbrs : list (string * nat)) : nat :=
  List.length nbrs + (if existsb (fun e => String.eqb n (fst e)) nbrs then 1 else 0).

Definition degrees (g : Adj) : list (string * nat) :=
  map (fun e => (fst e, degree_of (fst e) (snd e))) g.

(** [G.edges(data="weight")]: each edge reported once, from the first
    endpoint met in node order. *)
Fixpoint edges_from (g : Adj) (seen : list string) : list (string * string * nat) :=
  match g with
  | [] => []
  | (n, nbrs) :: r =>
      map (fun e => (n, fst e, snd e))
          (filter (fun e => negb (existsb (String.eqb (fst e)) seen)) nbrs)
      ++ edges_from r (n :: seen)
  end.

Definition edges (g : Adj) : list (string * string * nat) := edges_from g [].

(** [sorted(xs, key=lambda x: -key(x))]: stable, descending in [key]. *)
Fixpoint insert_desc {A} (key : A -> nat) (x : A) (l : list A) : list A :=
  match l with
  | [] => [x]
  | y :: r => if Nat.ltb (key x) (key y) then y :: insert_desc key x r else x :: l
  end.

Fixpoint sort_desc {A} (key : A -> nat) (l : list A) : list A :=
  match l with
  | [] => []
  | x :: r => insert_desc key x (sort_desc key r)
  end.

Definition build_skill_graph (df : DataFrame)
  : result (Adj * list (string * nat) * list (string * string * nat)) :=
  if has_col "skill_tags" df then
    let g := graph_of_counts (pair_counts (dropna (map skill_tags (rows df)))) in
    let top_skills := firstn 10 (sort_desc snd (degrees g)) in
    let top_pairs := firstn 10 (sort_desc (fun e => snd e) (edges g)) in
    Ok (g, top_skills, top_pairs)
  else Err (KeyError "skill_tags").

(** The co-occurrence count of the specification: records whose trimmed,
    deduplicated tag list contains both skills. *)
Definition cooccurrences (rows : list Row) (a b : string) : nat :=
  List.length
    (filter (fun r => match skill_tags r with
                      | Some t => existsb (String.eqb a) (parse_tags t)
                                  && existsb (String.eqb b) (parse_tags t)
                      | None => false
                      end) rows).

End Graph.

(** Facts about the graph builder's steps. *)
Module GraphFacts.
Import Data Graph.

Lemma str_lt_irrefl (x : string) : ~ str_lt x x.
Proof. apply (StrictOrder_Irreflexive (R := String_as_OT.lt)). Qed.

Lemma str_lt_trans (x y z : string) : str_lt x y -> str_lt y z -> str_lt x z.
Proof. apply (StrictOrder_Transitive (R := String_as_OT.lt)). Qed.

Lemma insert_sorted_perm (x : string) (l : list string) :
  Permutation (insert_sorted x l) (x :: l).
Proof.
  induction l as [|y r IH]; simpl; [reflexivity|].
  destruct (String_as_OT.compare x y); try reflexivity.
  rewrite IH. apply perm_swap.
Qed.

Lemma sorted_perm (l : list string) : Permutation (sorted l) l.
Proof.
  induction l as [|x r IH]; simpl; [reflexivity|].
  rewrite insert_sorted_perm, IH. reflexivity.
Qed.

Lemma insert_sorted_ss (x : string) (l : list string) :
  StronglySorted str_lt l -> ~ In x l -> StronglySorted str_lt (insert_sorted x l).
Proof.
  induction l as [|y r IH]; intros Hs Hn; simpl.
  - repeat constructor.
  - inversion Hs as [|? ? Hr Hf]; subst.
    destruct (String_as_OT.compare_spec x y) as [E|L|G].
    + exfalso. apply Hn. left. symmetry. exact E.
    + constructor; [exact Hs|]. constructor; [exact L|].
      rewrite Forall_forall in Hf |- *. intros z Hz. apply (str_lt_trans x y z L (Hf z Hz)).
    + constructor; [apply IH; [exact Hr|intros H; apply Hn; right; exact H]|].
      rewrite Forall_forall in Hf |- *. intros z Hz.
      apply (Permutation_in _ (insert_sorted_perm x r)) in Hz. destruct Hz as [<-|Hz].
      * exact G.
      * apply Hf, Hz.
Qed.

Lemma sorted_ss (l : list string) : NoDup l -> StronglySorted str_lt (sorted l).
Proof.
  induction l as [|x r IH]; intros Hd; simpl; [constructor|].
  inversion Hd; subst. apply insert_sorted_ss; [apply IH; assumption|].
  intros H. apply (Permutation_in _ (sorted_perm r)) in H. contradiction.
Qed.

Lemma comb_In_mem {A} (l : list A) (a b : A) :
  In (a, b) (combinations2 l) -> In a l /\ In b l.
Proof.
  induction l as [|x r IH]; simpl; [contradiction|].
  rewrite in_app_iff, in_map_iff. intros [[y [E Hy]]|H].
  - inversion E; subst. auto.
  - destruct (IH H). auto.
Qed.

Lemma comb_In_lt (l : list string) (a b : string) :
  StronglySorted str_lt l -> In (a, b) (combinations2 l) -> str_lt a b.
Proof.
  induction l as [|x r IH]; simpl; [contradiction|].
  intros Hs. inversion Hs as [|? ? Hr Hf]; subst.
  rewrite in_app_iff, in_map_iff. intros [[y [E Hy]]|H].
  - inversion E; subst. rewrite Forall_forall in Hf. apply Hf, Hy.
  - apply IH; assumption.
Qed.

Lemma comb_complete (l : list string) (a b : string) :
  StronglySorted str_lt l -> In a l -> In b l -> str_lt a b -> In (a, b) (combinations2 l).
Proof.
  induction l as [|x r IH]; simpl; [contradiction|].
  intros Hs Ha Hb Hab. inversion Hs as [|? ? Hr Hf]; subst.
  rewrite Forall_forall in Hf. rewrite in_app_iff, in_map_iff.
  destruct Ha as [Ea|Ha]; destruct Hb as [Eb|Hb].
  - subst. exfalso. apply (str_lt_irrefl _ Hab).
  - subst. left. exists b. auto.
  - subst. exfalso. apply (str_lt_irrefl a). apply (str_lt_trans a b a Hab (Hf a Ha)).
  - right. apply IH; assumption.
Qed.

Lemma comb_NoDup {A} (l : list A) : NoDup l -> NoDup (combinations2 l).
Proof.
  induction l as [|x r IH]; simpl; intros Hd; [constructor|].
  inversion Hd as [|? ? Hx Hr]; subst. apply NoDup_app.
  - apply Finite.Injective_map_NoDup; [|exact Hr].
    intros y z E. inversion E. reflexivity.
  - apply IH, Hr.
  - intros p Hp Hp'. apply in_map_iff in Hp. destruct Hp as [y [<- _]].
    apply comb_In_mem in Hp'. destruct Hp'. contradiction.
Qed.

Lemma skill_set_In (t s : string) : In s (skill_set t) <-> In s (parse_tags t).
Proof.
  unfold skill_set. split; intros H.
  - apply (Permutation_in _ (sorted_perm _)) in H. apply Py.uniq_In in H. exact H.
  - apply (Permutation_in _ (Permutation_sym (sorted_perm _))). apply Py.uniq_In, H.
Qed.

Lemma skill_set_ss (t : string) : StronglySorted str_lt (skill_set t).
Proof. apply sorted_ss, Py.uniq_NoDup. Qed.

Lemma pairs_of_iff (t a b : string) :
  In (a, b) (pairs_of t) <-> In a (parse_tags t) /\ In b (parse_tags t) /\ str_lt a b.
Proof.
  unfold pairs_of. split.
  - intros H. pose proof (comb_In_lt _ _ _ (skill_set_ss t) H) as L.
    apply comb_In_mem in H. rewrite !skill_set_In in H. tauto.
  - intros [Ha [Hb L]]. apply comb_complete; [apply skill_set_ss| | |exact L];
      apply skill_set_In; assumption.
Qed.

Lemma pairs_of_NoDup (t : string) : NoDup (pairs_of t).
Proof.
  apply comb_NoDup. apply (Permutation_NoDup (Permutation_sym (sorted_perm _))).
  apply Py.uniq_NoDup.
Qed.

(** The counter. *)

Lemma lookup_incr (c : Counter) (k k' : string * string) :
  lookupC (incr c k) k' = (lookupC c k' + if key_dec k' k then 1 else 0)%nat.
Proof.
  induction c as [|[k0 n] r IH]; simpl.
  - destruct (key_dec k' k); reflexivity.
  - destruct (key_dec k k0) as [->|Hne]; simpl.
    + destruct (key_dec k' k0); lia.
    + destruct (key_dec k' k0) as [->|Hne']; [|apply IH].
      destruct (key_dec k0 k); [congruence|lia].
Qed.

Lemma lookup_fold_incr (ks : list (string * string)) (c : Counter) (k : string * string) :
  lookupC (fold_left incr ks c) k = (lookupC c k + count_occ key_dec ks k)%nat.
Proof.
  revert c; induction ks as [|k0 r IH]; intros c; simpl; [lia|].
  rewrite IH, lookup_incr. destruct (key_dec k0 k), (key_dec k k0); subst; try congruence; lia.
Qed.

Definition memk (k : string * string) (l : list (string * string)) : bool :=
  if in_dec key_dec k l then true else false.

Lemma lookup_fold_counts (ts : list string) (c : Counter) (k : string * string) :
  lookupC (fold_left (fun c t => fold_left incr (pairs_of t) c) ts c) k
  = (lookupC c k + List.length (filter (fun t => memk k (pairs_of t)) ts))%nat.
Proof.
  revert c; induction ts as [|t r IH]; intros c; simpl; [lia|].
  rewrite IH, lookup_fold_incr. unfold memk.
  destruct (in_dec key_dec k (pairs_of t)) as [Hi|Hi]; simpl.
  - rewrite (proj1 (NoDup_count_occ' key_dec _) (pairs_of_NoDup t) k Hi). lia.
  - rewrite (count_occ_not_In key_dec) in Hi. rewrite Hi. lia.
Qed.

Lemma keys_incr (c : Counter) (k k' : string * string) :
  In k' (map fst (incr c k)) <-> In k' (map fst c) \/ k' = k.
Proof.
  induction c as [|[k0 n] r IH]; simpl; [split; intuition (subst; auto)|].
  destruct (key_dec k k0) as [->|Hne]; simpl; [split; intuition (subst; auto)|].
  rewrite IH. tauto.
Qed.

Lemma incr_NoDup (c : Counter) (k : string * string) :
  NoDup (map fst c) -> NoDup (map fst (incr c k)).
Proof.
  induction c as [|[k0 n] r IH]; simpl; intros Hd.
  - repeat constructor. simpl. tauto.
  - inversion Hd as [|? ? Hn Hr]; subst.
    destruct (key_dec k k0) as [->|Hne]; simpl; constructor; auto.
    rewrite keys_incr. intros [H|H]; [contradiction|congruence].
Qed.

Lemma In_lookupC (c : Counter) (k : string * string) (w : nat) :
  NoDup (map fst c) -> In (k, w) c -> lookupC c k = w.
Proof.
  induction c as [|[k0 n] r IH]; simpl; [contradiction|].
  intros Hd [E|H]; inversion Hd as [|? ? Hn Hr]; subst.
  - inversion E; subst. destruct (key_dec k k); congruence.
  - destruct (key_dec k k0) as [->|Hne]; [|apply IH; assumption].
    exfalso. apply Hn. apply (in_map fst _ _ H).
Qed.

Lemma fold_counts_inv (ts : list string) (c : Counter) :
  NoDup (map fst c) ->
  NoDup (map fst (fold_left (fun c t => fold_left incr (pairs_of t) c) ts c))
  /\ (forall k, In k (map fst (fold_left (fun c t => fold_left incr (pairs_of t) c) ts c)) ->
      In k (map fst c) \/ exists t, In t ts /\ In k (pairs_of t)).
Proof.
  revert c; induction ts as [|t r IH]; intros c Hd; simpl; [split; auto|].
  assert (Hinner : forall ks c0, NoDup (map fst c0) ->
            NoDup (map fst (fold_left incr ks c0))
            /\ forall k, In k (map fst (fold_left incr ks c0)) -> In k (map fst c0) \/ In k ks).
  { induction ks as [|k0 ks IHk]; intros c0 H0; simpl; [split; auto|].
    destruct (IHk (incr c0 k0) (incr_NoDup _ _ H0)) as [N K]. split; [exact N|].
    intros k Hk. destruct (K k Hk) as [H|H]; [|tauto]. apply keys_incr in H. intuition congruence. }
  destruct (Hinner (pairs_of t) c Hd) as [N1 K1].
  destruct (IH _ N1) as [N2 K2]. split; [exact N2|].
  intros k Hk. destruct (K2 k Hk) as [H|[t' [Ht' Hk']]].
  - destruct (K1 k H) as [H'|H']; [left; exact H'|right; exists t; auto].
  - right. exists t'. auto.
Qed.

Lemma pair_counts_item (ts : list string) (a b : string) (w : nat) :
  In ((a, b), w) (pair_counts ts) ->
  str_lt a b
  /\ w = List.length (filter (fun t => existsb (String.eqb a) (parse_tags t)
                                       && existsb (String.eqb b) (parse_tags t)) ts)
  /\ (1 <= w)%nat.
Proof.
  intros Hin. unfold pair_counts in *.
  destruct (fold_counts_inv ts [] (NoDup_nil _)) as [Nd Keys].
  pose proof (In_lookupC _ _ _ Nd Hin) as Lw.
  rewrite lookup_fold_counts in Lw. simpl in Lw.
  destruct (Keys (a, b) (in_map fst _ _ Hin)) as [[]|[t [Ht Hp]]].
  assert (L : str_lt a b) by (apply pairs_of_iff in Hp; tauto).
  assert (E : forall t0, memk (a, b) (pairs_of t0)
                         = existsb (String.eqb a) (parse_tags t0)
                           && existsb (String.eqb b) (parse_tags t0)).
  { intros t0. unfold memk. destruct (in_dec key_dec (a, b) (pairs_of t0)) as [H|H].
    - apply pairs_of_iff in H. destruct H as [Ha [Hb _]].
      symmetry. apply andb_true_iff. split; apply existsb_exists;
        [exists a | exists b]; split; auto; apply String.eqb_refl.
    - symmetry. apply not_true_iff_false. intros H'. apply H.
      apply andb_true_iff in H'. destruct H' as [Ha Hb].
      apply existsb_exists in Ha, Hb. destruct Ha as [x [Hx Ex]], Hb as [y [Hy Ey]].
      apply String.eqb_eq in Ex, Ey. subst. apply pairs_of_iff. auto. }
  rewrite (filter_ext _ _ E) in Lw. split; [exact L|]. split; [symmetry; exact Lw|].
  rewrite <- Lw. rewrite <- (filter_ext _ _ E).
  destruct (filter (fun t0 => memk (a, b) (pairs_of t0)) ts) eqn:F; simpl; [|lia].
  exfalso. assert (Hf : In t (filter (fun t0 => memk (a, b) (pairs_of t0)) ts)).
  { apply filter_In. split; [exact Ht|]. unfold memk.
    destruct (in_dec key_dec (a, b) (pairs_of t)); [reflexivity|contradiction]. }
  rewrite F in Hf. exact Hf.
Qed.

(** The adjacency only holds edges that are counter items. *)

Lemma add_node_In (g : Adj) (u n : string) nbrs :
  In (n, nbrs) (add_node g u) -> In (n, nbrs) g \/ nbrs = [].
Proof.
  unfold add_node. destruct existsb; [tauto|].
  rewrite in_app_iff. simpl. intros [H|[E|[]]]; [tauto|inversion E; tauto].
Qed.

Lemma set_nbr_In nbrs (v m : string) (w x : nat) :
  In (m, x) (set_nbr nbrs v w) -> In (m, x) nbrs \/ (m = v /\ x = w).
Proof.
  induction nbrs as [|[v' w'] r IH]; simpl.
  - intros [E|[]]. inversion E; auto.
  - destruct (String.eqb v v') eqn:E; simpl.
    + apply String.eqb_eq in E; subst. intros [H|H]; [inversion H; auto|auto].
    + intros [H|H]; [auto|]. destruct (IH H); auto.
Qed.

Lemma set_adj_In (g : Adj) (u v n : string) (w : nat) nbrs :
  In (n, nbrs) (set_adj g u v w) ->
  In (n, nbrs) g \/ exists nbrs0, In (n, nbrs0) g /\ n = u /\ nbrs = set_nbr nbrs0 v w.
Proof.
  induction g as [|[n0 nb0] r IH]; simpl; [contradiction|].
  destruct (String.eqb u n0) eqn:E; simpl.
  - apply String.eqb_eq in E; subst. intros [H|H].
    + inversion H; subst. right. exists nb0. auto.
    + auto.
  - intros [H|H]; [auto|]. destruct (IH H) as [H'|[nb [H1 H2]]]; [auto|].
    right. exists nb. auto.
Qed.

Definition edges_from_items (c : Counter) (g : Adj) : Prop :=
  forall n nbrs m x, In (n, nbrs) g -> In (m, x) nbrs ->
                     In ((n, m), x) c \/ In ((m, n), x) c.

Lemma add_edge_items (c : Counter) (g : Adj) (u v : string) (w : nat) :
  edges_from_items c g -> In ((u, v), w) c -> edges_from_items c (add_edge g u v w).
Proof.
  intros Hg Hc n nbrs m x Hn Hm. unfold add_edge in Hn.
  apply set_adj_In in Hn. destruct Hn as [Hn|[nb0 [Hn [-> ->]]]].
  - apply set_adj_In in Hn. destruct Hn as [Hn|[nb1 [Hn [-> ->]]]].
    + apply add_node_In in Hn. destruct Hn as [Hn| ->]; [|contradiction].
      apply add_node_In in Hn. destruct Hn as [Hn| ->]; [|contradiction].
      apply (Hg _ _ _ _ Hn Hm).
    + apply set_nbr_In in Hm. destruct Hm as [Hm|[-> ->]]; [|auto].
      apply add_node_In in Hn. destruct Hn as [Hn| ->]; [|contradiction].
      apply add_node_In in Hn. destruct Hn as [Hn| ->]; [|contradiction].
      apply (Hg _ _ _ _ Hn Hm).
  - apply set_nbr_In in Hm. destruct Hm as [Hm|[-> ->]]; [|auto].
    apply set_adj_In in Hn. destruct Hn as [Hn|[nb1 [Hn [-> ->]]]].
    + apply add_node_In in Hn. destruct Hn as [Hn| ->]; [|contradiction].
      apply add_node_In in Hn. destruct Hn as [Hn| ->]; [|contradiction].
      apply (Hg _ _ _ _ Hn Hm).
    + apply set_nbr_In in Hm. destruct Hm as [Hm|[-> ->]]; [|auto].
      apply add_node_In in Hn. destruct Hn as [Hn| ->]; [|contradiction].
      apply add_node_In in Hn. destruct Hn as [Hn| ->]; [|contradiction].
      apply (Hg _ _ _ _ Hn Hm).
Qed.

Lemma graph_of_counts_items (c : Counter) : edges_from_items c (graph_of_counts c).
Proof.
  unfold graph_of_counts.
  assert (H : forall l g, incl l c -> edges_from_items c g ->
                edges_from_items c (fold_left (fun g kw => add_edge g (fst (fst kw))
                                                 (snd (fst kw)) (snd kw)) l g)).
  { induction l as [|[[a b] w] r IH]; intros g Hl Hg; simpl; [exact Hg|].
    apply IH; [intros y Hy; apply Hl; right; exact Hy|].
    apply add_edge_items; [exact Hg|apply Hl; left; reflexivity]. }
  apply H; [intros y Hy; exact Hy|]. intros n nbrs m x [].
Qed.

Lemma filter_dropna_tags (f : string -> bool) (rows : list Row) :
  List.length (filter f (dropna (map skill_tags rows)))
  = List.length (filter (fun r => match skill_tags r with Some t => f t | None => false end) rows).
Proof.
  induction rows as [|r rs IH]; simpl; [reflexivity|].
  destruct (skill_tags r); simpl; [destruct (f s); simpl|]; rewrite IH; reflexivity.
Qed.

End GraphFacts.

(* ------------------------------------------------------------------ *)
(** ** Regional Clusterer: services/clustering.py *)

Module Cluster.
Import Data.

(** [exp]: one (region, skill) row per non-empty stripped tag piece of a
    record whose skill_tags is not NaN ([dropna], [str.split(";")],
    [explode], [str.strip()], [exp["skill"] != ""]).  Repeated pieces are
    kept. *)
Definition explode_skills (rows : list Row) : list (string * string) :=
  flat_map (fun r => match skill_tags r with
                     | Some t => map (fun s => (region r, s)) (Graph.parse_tags t)
                     | None => []
                     end) rows.

(** Index and columns of [groupby(["region", "skill"]).size().unstack()]:
    sorted distinct keys. *)
Definition mat_regions (exp : list (string * string)) : list string :=
  Graph.sorted (Py.uniq string_dec (map fst exp)).

Definition mat_skills (exp : list (string * string)) : list string :=
  Graph.sorted (Py.uniq string_dec (map snd exp)).

Definition pair_count (exp : list (string * string)) (r s : string) : nat :=
  List.length (filter (fun e => String.eqb (fst e) r && String.eqb (snd e) s) exp).

(** [unstack(fill_value=0)]: one row per region, one count per skill
    column, 0 where the pair never occurs. *)
Definition profile_matrix (exp : list (string * string)) : list (string * list nat) :=
  map (fun r => (r, map (fun s => pair_count exp r s) (mat_skills exp))) (mat_regions exp).

Fixpoint vsum (xs ys : list nat) : list nat :=
  match xs, ys with
  | x :: xs', y :: ys' => (x + y)%nat :: vsum xs' ys'
  | _, _ => []
  end.

(** [mat.groupby("_cluster").sum()] at cluster [c]. *)
Definition cluster_sums (ncols : nat) (rowsl : list (list nat * nat)) (c : nat) : list nat :=
  fold_left vsum (map fst (filter (fun e => Nat.eqb (snd e) c) rowsl)) (repeat 0%nat ncols).

(** [mat.assign(_cluster=labels)] replaces a skill column named
    "_cluster" by the labels, and [groupby("_cluster").sum()] turns that
    column into the index: the sums cover the other skill columns. *)
Definition kept_col (s : string) : bool := negb (String.eqb s "_cluster").

Definition drop_cluster_col (skills : list string) (v : list nat) : list nat :=
  map snd (filter (fun e => kept_col (fst e)) (combine skills v)).

(** [top = counts.nlargest(5); top[top > 0].index.tolist()[:5]] *)
Definition top5 (skills : list string) (sums : list nat) : list string :=
  firstn 5 (map fst (filter (fun e => Nat.ltb 0 (snd e))
                           (firstn 5 (Graph.sort_desc snd (combine skills sums))))).

Section WithKMeans.

(** [KMeans(n_clusters=k, random_state=42, n_init=10).fit_predict(X)]. *)
Variable kmeans : nat -> list (list nat) -> list nat.

Definition cluster_regions (df : DataFrame) (n_clusters : Z)
  : result (list (string * nat * list string)) :=
  if empty df || negb (has_col "region" df) || negb (has_col "skill_tags" df) then Ok []
  else
    let exp := explode_skills (rows df) in
    match exp with
    | [] => Ok []
    | _ :: _ =>
        let mat := profile_matrix exp in
        let k := Z.min n_clusters (Z.of_nat (List.length mat)) in
        if (k <? 1)%Z then Err InvalidParameterError
        else
          let labels := kmeans (Z.to_nat k) (map snd mat) in
          let assigned := combine mat labels in
          let skills := filter kept_col (mat_skills exp) in
          let rowsl := map (fun e => (drop_cluster_col (mat_skills exp) (snd (fst e)), snd e))
                           assigned in
          let top c := if existsb (Nat.eqb c) labels
                       then top5 skills (cluster_sums (List.length skills) rowsl c)
                       else [] in
          Ok (map (fun e => (fst (fst e), snd e, top (snd e))) assigned)
    end.

End WithKMeans.

(** Regions with at least one record holding a non-empty trimmed tag. *)
Definition usable_regions (rows : list Row) : list string :=
  map region (filter (fun r => match skill_tags r with
                               | Some t => negb (List.forallb (fun _ => false) (Graph.parse_tags t))
                               | None => false
                               end) rows).

Definition distinct_regions (rows : list Row) : list string :=
  Py.uniq string_dec (map region rows).

End Cluster.

(** Facts about the clusterer's steps. *)
Module ClusterFacts.
Import Data Cluster.

Lemma explode_In (rows : list Row) (r s : string) :
  In (r, s) (explode_skills rows)
  <-> exists row t, In row rows /\ region row = r /\ skill_tags row = Some t
                    /\ In s (Graph.parse_tags t).
Proof.
  unfold explode_skills. rewrite in_flat_map. split.
  - intros [row [Hrow Hin]]. destruct (skill_tags row) as [t|] eqn:Et; [|contradiction].
    apply in_map_iff in Hin. destruct Hin as [s' [E Hs]]. inversion E; subst.
    exists row, t. auto.
  - intros [row [t [Hrow [Er [Et Hs]]]]]. exists row. split; [exact Hrow|].
    rewrite Et. apply in_map_iff. exists s. subst. auto.
Qed.

Lemma explode_regions (rows : list Row) (r : string) :
  In r (map fst (explode_skills rows)) <-> In r (usable_regions rows).
Proof.
  unfold usable_regions. rewrite !in_map_iff. split.
  - intros [[r' s] [E Hin]]. simpl in E. subst r'. apply explode_In in Hin.
    destruct Hin as [row [t [Hrow [Er [Et Hs]]]]]. exists row. split; [exact Er|].
    apply filter_In. split; [exact Hrow|]. rewrite Et.
    destruct (Graph.parse_tags t); [contradiction|reflexivity].
  - intros [row [Er Hrow]]. apply filter_In in Hrow. destruct Hrow as [Hrow Hu].
    destruct (skill_tags row) as [t|] eqn:Et; [|discriminate].
    destruct (Graph.parse_tags t) as [|s ss] eqn:Ep; [discriminate|].
    exists (r, s). split; [reflexivity|]. apply explode_In.
    exists row, t. rewrite Ep. repeat split; auto. left. reflexivity.
Qed.

Lemma mat_regions_In (exp : list (string * string)) (r : string) :
  In r (mat_regions exp) <-> In r (map fst exp).
Proof.
  unfold mat_regions. split; intros H.
  - apply (Permutation_in _ (GraphFacts.sorted_perm _)) in H. apply Py.uniq_In in H. exact H.
  - apply (Permutation_in _ (Permutation_sym (GraphFacts.sorted_perm _))). apply Py.uniq_In, H.
Qed.

Lemma mat_regions_NoDup (exp : list (string * string)) : NoDup (mat_regions exp).
Proof.
  unfold mat_regions. apply (Permutation_NoDup (Permutation_sym (GraphFacts.sorted_perm _))).
  apply Py.uniq_NoDup.
Qed.

Lemma mat_regions_length (rows : list Row) :
  List.length (mat_regions (explode_skills rows))
  = Py.nunique string_dec (usable_regions rows).
Proof.
  apply BotSpec.NoDup_same_length.
  - apply mat_regions_NoDup.
  - apply Py.uniq_NoDup.
  - intros x. rewrite mat_regions_In, Py.uniq_In. apply explode_regions.
Qed.

Lemma usable_le_distinct (rows : list Row) :
  (Py.nunique string_dec (usable_regions rows) <= Py.nunique string_dec (map region rows))%nat.
Proof.
  apply NoDup_incl_length; [apply Py.uniq_NoDup|]. intros x Hx.
  apply Py.uniq_In in Hx. apply Py.uniq_In. unfold usable_regions in Hx.
  apply in_map_iff in Hx. destruct Hx as [row [<- Hrow]]. apply filter_In in Hrow.
  apply in_map, Hrow.
Qed.

Lemma map_fst_combine {A B} (l1 : list A) (l2 : list B) :
  List.length l1 = List.length l2 -> map fst (combine l1 l2) = l1.
Proof.
  revert l2; induction l1 as [|x r IH]; intros [|y l2] H; simpl in *; try discriminate; auto.
  f_equal. apply IH. lia.
Qed.

Lemma profile_regions (exp : list (string * string)) :
  map fst (profile_matrix exp) = mat_regions exp.
Proof. unfold profile_matrix. rewrite map_map. apply map_id. Qed.

Lemma pair_count_zero (exp : list (string * string)) (r s : string) :
  ~ In (r, s) exp -> pair_count exp r s = 0%nat.
Proof.
  intros Hn. unfold pair_count.
  destruct (filter _ exp) as [|[r' s'] l] eqn:F; [reflexivity|].
  exfalso. assert (Hin : In (r', s') (filter (fun e => String.eqb (fst e) r && String.eqb (snd e) s) exp))
    by (rewrite F; left; reflexivity).
  apply filter_In in Hin. destruct Hin as [Hin Hb]. apply andb_true_iff in Hb.
  destruct Hb as [E1 E2]. apply String.eqb_eq in E1, E2. simpl in E1, E2. subst. contradiction.
Qed.

(** A whitespace-only string yields no tag. *)
Lemma lstrip_all_space (l : list ascii) :
  forallb Py.is_space l = true -> Py.lstrip l = [].
Proof.
  induction l as [|c r IH]; simpl; [reflexivity|].
  intros H. apply andb_true_iff in H. destruct H as [Hc Hr]. rewrite Hc. apply IH, Hr.
Qed.

Lemma split_no_sc (l : list ascii) :
  forallb Py.is_space l = true -> Py.split_sc l = [l].
Proof.
  induction l as [|c r IH]; simpl; [reflexivity|].
  intros H. apply andb_true_iff in H. destruct H as [Hc Hr]. rewrite (IH Hr).
  destruct (Ascii.eqb c ";"%char) eqn:E; [|reflexivity].
  apply Ascii.eqb_eq in E. subst. discriminate.
Qed.

Lemma parse_tags_blank (t : string) :
  forallb Py.is_space (list_ascii_of_string t) = true -> Graph.parse_tags t = [].
Proof.
  intros H. unfold Graph.parse_tags, Py.split. rewrite (split_no_sc _ H). simpl.
  unfold Py.strip, Py.strip_l. rewrite list_ascii_of_string_of_list_ascii, (lstrip_all_space _ H).
  reflexivity.
Qed.

End ClusterFacts.

(* ------------------------------------------------------------------ *)
(** ** Trend Forecaster: services/forecasting.py *)

Module Forecast.
Import Data.
Local Open Scope Z_scope.

Definition DAY_NS : Z := BotFilter.DAY_NS.
Definition WEEK_NS : Z := 7 * DAY_NS.

(** [Timestamp.normalize()]: midnight of the day. *)
Definition normalize (t : Z) : Z := (t / DAY_NS) * DAY_NS.

(** [Timestamp.weekday()]: Monday = 0; 1970-01-01 was a Thursday. *)
Definition weekday (t : Z) : Z := (t / DAY_NS + 3) mod 7.

(** [d + Week(weekday=6)] and [d - Week(weekday=6)] for a midnight [d]
    (pandas [Week._apply] with n = 1 and n = -1). *)
Definition week_sun_add (d : Z) : Z :=
  let wd := weekday d in
  if (wd =? 6)%Z then d + WEEK_NS else d + ((6 - wd) mod 7) * DAY_NS.

Definition week_sun_sub (d : Z) : Z :=
  let wd := weekday d in
  if (wd =? 6)%Z then d - WEEK_NS else d + ((6 - wd) mod 7) * DAY_NS - WEEK_NS.

Definition count_in (lo hi : Z) (ts : list Z) : nat :=
  List.length (filter (fun v => (lo <? v) && (v <=? hi))%Z ts).

(** The unit of a datetime64 column ([s], [ms], [us] or [ns]).
    Timestamps are kept in ns; a column of unit [res] holds multiples of
    [unit_ns res]. *)
Inductive Resolution := Res_s | Res_ms | Res_us | Res_ns.

(** [Timedelta(1, unit=res)] in ns. *)
Definition unit_ns (res : Resolution) : Z :=
  match res with
  | Res_s => 1000000000
  | Res_ms => 1000000
  | Res_us => 1000
  | Res_ns => 1
  end.

(** [set_index("timestamp").resample("W", label="left").size()] on a
    column of unit [res].  "W" is W-SUN, whose bins default to
    closed="right".  pandas takes [first = normalize(min) - W-SUN],
    [last = normalize(max) + W-SUN],
    [binner = date_range(first, last, freq="W-SUN")] (the Sundays
    [first + i * 7 days], i < m), moves every edge to the last tick of
    its Sunday ([+ Timedelta(days=1) - Timedelta(1, unit=res)]), drops
    the last edge when the one before it lies after [max], and counts
    bin i as the values in (edge i, edge (i+1)], labelled [binner[i]]
    (label="left"). *)
Definition resample_weekly (res : Resolution) (ts : list Z) : list (Z * nat) :=
  match ts with
  | [] => []
  | t0 :: r =>
      let mn := fold_left Z.min r t0 in
      let mx := fold_left Z.max r t0 in
      let first := week_sun_sub (normalize mn) in
      let last := week_sun_add (normalize mx) in
      let m := (Z.to_nat ((last - first) / WEEK_NS) + 1)%nat in
      let edge (i : nat) := first + Z.of_nat i * WEEK_NS + DAY_NS - unit_ns res in
      let m' := if (mx <? edge (m - 2)%nat)%Z then (m - 1)%nat else m in
      map (fun i => (first + Z.of_nat i * WEEK_NS, count_in (edge i) (edge (S i)) ts))
          (seq 0 (m' - 1))
  end.

(** [has_skill]: exact match among the stripped, non-empty pieces. *)
Definition has_skill (skill : string) (tags : option string) : bool :=
  match tags with
  | None => false
  | Some t => existsb (String.eqb skill) (Graph.parse_tags t)
  end.

Record ForecastResult := mkResult {
  historical : list (Z * nat);      (* (week, count) *)
  forecast : list (Z * Q);          (* (week, predicted_count) *)
  trend : string
}.

Definition _empty_result : ForecastResult := mkResult [] [] "stable".

(** [np.polyfit(x, y, 1)] with x = 0, 1, ..., n-1: the least-squares
    line, in closed form. *)
Definition xs (n : nat) : list Q := map (fun i => inject_Z (Z.of_nat i)) (seq 0 n).

Definition Qsum (l : list Q) : Q := fold_right Qplus 0%Q l.

Definition polyfit_slope (ys : list Q) : Q :=
  let n := inject_Z (Z.of_nat (List.length ys)) in
  let x := xs (List.length ys) in
  let sx := Qsum x in
  let sy := Qsum ys in
  let sxx := Qsum (map (fun a => a * a)%Q x) in
  let sxy := Qsum (map (fun p => fst p * snd p)%Q (combine x ys)) in
  ((n * sxy - sx * sy) / (n * sxx - sx * sx))%Q.

Definition polyfit_intercept (ys : list Q) : Q :=
  let n := inject_Z (Z.of_nat (List.length ys)) in
  ((Qsum ys - polyfit_slope ys * Qsum (xs (List.length ys))) / n)%Q.

(** [np.mean(y)] *)
Definition mean (ys : list Q) : Q := (Qsum ys / inject_Z (Z.of_nat (List.length ys)))%Q.

Definition slope_threshold (ys : list Q) : Q := Py.Qmax_py (1 # 10) (mean ys * (2 # 100))%Q.

Definition classify (slope thr : Q) : string :=
  if Py.Qltb thr slope then "rising"
  else if Py.Qltb slope (- thr)%Q then "declining"
  else "stable".

(** The body after the two-bucket guard: fit, classify, extrapolate. *)
Definition fit_and_forecast (weekly : list (Z * nat)) (horizon_weeks : Z) : ForecastResult :=
  let ys := map (fun w => inject_Z (Z.of_nat (snd w))) weekly in
  let slope := polyfit_slope ys in
  let intercept := polyfit_intercept ys in
  let last_ts := fst (last weekly (0%Z, 0%nat)) in
  let n := List.length weekly in
  let fc := map (fun i =>
                   let pred_x := inject_Z (Z.of_nat (n - 1 + i)) in
                   let pred := (slope * pred_x + intercept)%Q in
                   (last_ts + Z.of_nat i * WEEK_NS, Py.Qmax_py 0%Q (Py.round pred 1)))
                (seq 1 (Z.to_nat horizon_weeks)) in
  mkResult weekly fc (classify slope (slope_threshold ys)).

(** The weekly series of the records carrying [skill]. *)
Definition filtered (df : DataFrame) (skill : string) : list Row :=
  filter (fun r => has_skill skill (skill_tags r)) (rows df).

(** [res] is the unit of the timestamp column after [pd.to_datetime]. *)
Definition forecast_skill (res : Resolution) (df : DataFrame) (skill : string)
    (horizon_weeks : Z) : ForecastResult :=
  if empty df || negb (has_col "timestamp" df) || negb (has_col "skill_tags" df)
  then _empty_result
  else
    let skill := Py.strip skill in
    if String.eqb skill "" then _empty_result
    else
      match filtered df skill with
      | [] => _empty_result
      | fl =>
          let weekly := resample_weekly res (map timestamp fl) in
          if (List.length weekly <? 2)%nat then mkResult weekly [] "stable"
          else fit_and_forecast weekly horizon_weeks
      end.

End Forecast.

(** Facts about the forecaster's steps. *)
Module ForecastFacts.
Import Data Forecast.

(** [t] is the last tick, at resolution [res], of a Sunday. *)
Definition sunday_last_tick (res : Resolution) (t : Z) : bool :=
  (weekday t =? 6)%Z && (t mod DAY_NS =? DAY_NS - unit_ns res)%Z.

Lemma Qmax_py_nonneg (x : Q) : (0 <= Py.Qmax_py 0 x)%Q.
Proof.
  unfold Py.Qmax_py. destruct (Py.Qltb 0 x) eqn:E.
  - apply Py.Qltb_spec in E. apply Qlt_le_weak, E.
  - apply Qle_refl.
Qed.

Lemma Qmax_py_ge_l (a x : Q) : (a <= Py.Qmax_py a x)%Q.
Proof.
  unfold Py.Qmax_py. destruct (Py.Qltb a x) eqn:E.
  - apply Py.Qltb_spec in E. apply Qlt_le_weak, E.
  - apply Qle_refl.
Qed.

Lemma parse_tags_no_empty (t : string) : ~ In ""%string (Graph.parse_tags t).
Proof.
  unfold Graph.parse_tags. rewrite filter_In. intros [_ H]. simpl in H. discriminate.
Qed.

Lemma filtered_empty_skill (df : DataFrame) : filtered df "" = [].
Proof.
  unfold filtered. induction (rows df) as [|r rs IH]; [reflexivity|]. simpl.
  rewrite IH. unfold has_skill. destruct (skill_tags r) as [t|]; [|reflexivity].
  destruct (existsb (String.eqb "") (Graph.parse_tags t)) eqn:E; [|reflexivity].
  apply existsb_exists in E. destruct E as [x [Hx Ex]]. apply String.eqb_eq in Ex. subst.
  exfalso. apply (parse_tags_no_empty t Hx).
Qed.

Lemma fit_and_forecast_nonneg (weekly : list (Z * nat)) (h : Z) :
  forall p, In p (forecast (fit_and_forecast weekly h)) -> (0 <= snd p)%Q.
Proof.
  intros p Hp. simpl in Hp. apply in_map_iff in Hp. destruct Hp as [i [<- _]].
  apply Qmax_py_nonneg.
Qed.

(** Sums over the sample points. *)

Lemma Qsum_residual (s b : Q) (l : list (Q * Q)) :
  (Qsum (map (fun p => snd p - (s * fst p + b)) l)
   == Qsum (map snd l) - s * Qsum (map fst l) - b * inject_Z (Z.of_nat (List.length l)))%Q.
Proof.
  induction l as [|p r IH]; [unfold Qsum; simpl; ring|].
  unfold Qsum in *; cbn [map fold_right List.length].
  rewrite IH, Nat2Z.inj_succ, <- Z.add_1_r, inject_Z_plus. ring.
Qed.

Lemma Qsum_weighted_residual (s b : Q) (l : list (Q * Q)) :
  (Qsum (map (fun p => fst p * (snd p - (s * fst p + b))) l)
   == Qsum (map (fun p => fst p * snd p) l) - s * Qsum (map (fun p => fst p * fst p) l)
      - b * Qsum (map fst l))%Q.
Proof.
  induction l as [|p r IH]; simpl; [ring|]. rewrite IH. ring.
Qed.

Lemma length_xs (n : nat) : List.length (xs n) = n.
Proof. unfold xs. rewrite length_map, length_seq. reflexivity. Qed.

Lemma map_fst_combine_eq {A B} (l1 : list A) (l2 : list B) :
  List.length l1 = List.length l2 -> map fst (combine l1 l2) = l1.
Proof.
  revert l2; induction l1 as [|x r IH]; intros [|y l2] H; simpl in *; try discriminate; auto.
  f_equal. apply IH. lia.
Qed.

Lemma map_snd_combine_eq {A B} (l1 : list A) (l2 : list B) :
  List.length l1 = List.length l2 -> map snd (combine l1 l2) = l2.
Proof.
  revert l2; induction l1 as [|x r IH]; intros [|y l2] H; simpl in *; try discriminate; auto.
  f_equal. apply IH. lia.
Qed.

(** The sums of 0..n-1 and of their squares, as integers. *)
Definition zsum (n : nat) : Z := fold_right Z.add 0%Z (map Z.of_nat (seq 0 n)).
Definition zsum2 (n : nat) : Z :=
  fold_right Z.add 0%Z (map (fun i => (Z.of_nat i * Z.of_nat i)%Z) (seq 0 n)).

Lemma zsum_S (n : nat) : zsum (S n) = (zsum n + Z.of_nat n)%Z.
Proof.
  unfold zsum. rewrite seq_S, map_app, fold_right_app. simpl.
  generalize (map Z.of_nat (seq 0 n)). intros l. induction l; simpl; lia.
Qed.

Lemma zsum2_S (n : nat) : zsum2 (S n) = (zsum2 n + Z.of_nat n * Z.of_nat n)%Z.
Proof.
  unfold zsum2. rewrite seq_S, map_app, fold_right_app. simpl.
  generalize (map (fun i => (Z.of_nat i * Z.of_nat i)%Z) (seq 0 n)). intros l. induction l; simpl; lia.
Qed.

Lemma zsum_closed (n : nat) : (2 * zsum n = Z.of_nat n * (Z.of_nat n - 1))%Z.
Proof. induction n as [|n IH]; [reflexivity|]. rewrite zsum_S, Nat2Z.inj_succ. lia. Qed.

Lemma zsum2_closed (n : nat) :
  (6 * zsum2 n = (Z.of_nat n - 1) * Z.of_nat n * (2 * Z.of_nat n - 1))%Z.
Proof. induction n as [|n IH]; [reflexivity|]. rewrite zsum2_S, Nat2Z.inj_succ. nia. Qed.

Lemma Qsum_inject (l : list Z) : (Qsum (map inject_Z l) == inject_Z (fold_right Z.add 0%Z l))%Q.
Proof.
  induction l as [|z r IH]; simpl; [reflexivity|]. rewrite IH, inject_Z_plus. reflexivity.
Qed.

Lemma sum_xs (n : nat) : (Qsum (xs n) == inject_Z (zsum n))%Q.
Proof. unfold xs, zsum. rewrite <- map_map, Qsum_inject. reflexivity. Qed.

Lemma sum_xs2 (n : nat) : (Qsum (map (fun a => a * a) (xs n)) == inject_Z (zsum2 n))%Q.
Proof.
  unfold xs, zsum2. rewrite map_map, <- Qsum_inject, map_map.
  induction (seq 0 n) as [|i r IH]; simpl; [reflexivity|].
  rewrite IH, inject_Z_mult. reflexivity.
Qed.

Lemma denom_pos (n : nat) : (2 <= n)%nat ->
  ~ (inject_Z (Z.of_nat n) * Qsum (map (fun a => a * a) (xs n)) - Qsum (xs n) * Qsum (xs n) == 0)%Q.
Proof.
  intros Hn H. rewrite sum_xs, sum_xs2 in H. unfold Qminus in H.
  rewrite <- !inject_Z_mult, <- inject_Z_opp, <- inject_Z_plus in H.
  change 0%Q with (inject_Z 0) in H. rewrite inject_Z_injective in H.
  pose proof (zsum_closed n). pose proof (zsum2_closed n). nia.
Qed.

Lemma inject_nat_nonzero (n : nat) : (1 <= n)%nat -> ~ (inject_Z (Z.of_nat n) == 0)%Q.
Proof.
  intros Hn H. change 0%Q with (inject_Z 0) in H. rewrite inject_Z_injective in H. lia.
Qed.

(** The fitted line satisfies the least-squares normal equations: the
    residuals sum to 0, and so do the residuals weighted by x. *)
Lemma polyfit_normal_equations (ys : list Q) :
  (2 <= List.length ys)%nat ->
  let s := polyfit_slope ys in
  let b := polyfit_intercept ys in
  let pts := combine (xs (List.length ys)) ys in
  (Qsum (map (fun p => snd p - (s * fst p + b)) pts) == 0)%Q /\
  (Qsum (map (fun p => fst p * (snd p - (s * fst p + b))) pts) == 0)%Q.
Proof.
  intros Hn s b pts.
  assert (Hl : List.length (xs (List.length ys)) = List.length ys) by apply length_xs.
  assert (HN := inject_nat_nonzero (List.length ys) ltac:(lia)).
  assert (HD := denom_pos (List.length ys) Hn).
  assert (Hf : map fst pts = xs (List.length ys)) by (apply map_fst_combine_eq; exact Hl).
  assert (Hsnd : map snd pts = ys) by (apply map_snd_combine_eq; exact Hl).
  assert (Hlen : List.length pts = List.length ys)
    by (unfold pts; rewrite length_combine, Hl; apply Nat.min_id).
  split.
  - rewrite Qsum_residual, Hf, Hsnd, Hlen.
    unfold b, polyfit_intercept. fold s. field. exact HN.
  - rewrite Qsum_weighted_residual, Hf.
    replace (map (fun p : Q * Q => fst p * fst p) pts)
      with (map (fun a => a * a) (map fst pts)) by (rewrite map_map; reflexivity).
    rewrite Hf.
    unfold b, s, polyfit_intercept, polyfit_slope. fold pts.
    field. split; assumption.
Qed.

Lemma slope_threshold_pos (ys : list Q) : (0 < slope_threshold ys)%Q.
Proof.
  unfold slope_threshold. eapply Qlt_le_trans; [|apply Qmax_py_ge_l]. reflexivity.
Qed.

Lemma classify_spec (s thr : Q) : (0 < thr)%Q ->
  (classify s thr = "rising"%string <-> (thr < s)%Q) /\
  (classify s thr = "declining"%string <-> (s < - thr)%Q) /\
  (classify s thr = "stable"%string <-> (- thr <= s)%Q /\ (s <= thr)%Q).
Proof.
  intros Hthr. unfold classify.
  destruct (Py.Qltb thr s) eqn:E1; [apply Py.Qltb_spec in E1|].
  - split; [tauto|]. split; split; intros H; try discriminate.
    + exfalso. assert (- thr < thr)%Q.
      { apply Qlt_trans with 0%Q; [|exact Hthr].
        rewrite <- (Qopp_involutive 0). apply Qopp_lt_compat. exact Hthr. }
      apply (Qlt_irrefl s). apply Qlt_trans with (- thr)%Q; [exact H|].
      apply Qlt_trans with thr; assumption.
    + exfalso. destruct H as [_ H]. apply (Qlt_not_le thr s); assumption.
  - assert (N1 : ~ (thr < s)%Q) by (intros H; apply Py.Qltb_spec in H; congruence).
    destruct (Py.Qltb s (- thr)) eqn:E2; [apply Py.Qltb_spec in E2|].
    + split; [split; intros H; [discriminate|contradiction]|].
      split; [tauto|]. split; intros H; [discriminate|].
      destruct H as [H _]. exfalso. apply (Qlt_not_le s (- thr)); assumption.
    + assert (N2 : ~ (s < - thr)%Q) by (intros H; apply Py.Qltb_spec in H; congruence).
      split; [split; intros H; [discriminate|contradiction]|].
      split; [split; intros H; [discriminate|contradiction]|].
      split; [intros _|tauto]. split; apply Qnot_lt_le; assumption.
Qed.

(** Calendar arithmetic of the weekly bins. *)

Lemma normalize_div (t : Z) : (normalize t / DAY_NS = t / DAY_NS)%Z.
Proof. unfold normalize. apply Z.div_mul. unfold DAY_NS, BotFilter.DAY_NS. lia. Qed.

Lemma week_bounds (t : Z) :
  let k := ((t / DAY_NS + 3) / 7)%Z in
  ((7 * k - 3) * DAY_NS <= t < (7 * k + 4) * DAY_NS)%Z /\
  ((t / DAY_NS + 3) mod 7 = 6 -> (7 * k + 3) * DAY_NS <= t)%Z /\
  ((t / DAY_NS + 3) mod 7 <> 6 -> t < (7 * k + 3) * DAY_NS)%Z.
Proof.
  intros k. unfold k.
  assert (HD : (0 < DAY_NS)%Z) by (unfold DAY_NS, BotFilter.DAY_NS; lia).
  pose proof (Z.div_mod t DAY_NS ltac:(lia)) as E1.
  pose proof (Z.mod_pos_bound t DAY_NS HD) as B1.
  remember (t / DAY_NS)%Z as a. remember (t mod DAY_NS)%Z as c.
  pose proof (Z.div_mod (a + 3) 7 ltac:(lia)) as E2.
  pose proof (Z.mod_pos_bound (a + 3) 7 ltac:(lia)) as B2.
  remember ((a + 3) / 7)%Z as kk. remember ((a + 3) mod 7)%Z as w.
  unfold DAY_NS, BotFilter.DAY_NS in *. split; [|split]; intros; nia.
Qed.

Lemma week_sun_sub_normalize (t : Z) :
  week_sun_sub (normalize t) = ((7 * ((t / DAY_NS + 3) / 7) - 4) * DAY_NS)%Z.
Proof.
  unfold week_sun_sub, weekday. rewrite normalize_div. unfold normalize.
  pose proof (Z.div_mod (t / DAY_NS + 3) 7 ltac:(lia)) as E2.
  pose proof (Z.mod_pos_bound (t / DAY_NS + 3) 7 ltac:(lia)) as B2.
  remember (t / DAY_NS)%Z as a.
  remember ((a + 3) / 7)%Z as k. remember ((a + 3) mod 7)%Z as w.
  unfold WEEK_NS. destruct (Z.eqb_spec w 6).
  - nia.
  - rewrite (Z.mod_small (6 - w) 7) by lia. nia.
Qed.

Lemma week_sun_add_normalize (t : Z) :
  week_sun_add (normalize t) =
  ((7 * ((t / DAY_NS + 3) / 7) + 3) * DAY_NS
   + (if ((t / DAY_NS + 3) mod 7 =? 6) then WEEK_NS else 0))%Z.
Proof.
  unfold week_sun_add, weekday. rewrite normalize_div. unfold normalize.
  pose proof (Z.div_mod (t / DAY_NS + 3) 7 ltac:(lia)) as E2.
  pose proof (Z.mod_pos_bound (t / DAY_NS + 3) 7 ltac:(lia)) as B2.
  remember (t / DAY_NS)%Z as a.
  remember ((a + 3) / 7)%Z as k. remember ((a + 3) mod 7)%Z as w.
  destruct (Z.eqb_spec w 6).
  - nia.
  - rewrite (Z.mod_small (6 - w) 7) by lia. nia.
Qed.

Lemma unit_ns_bounds (res : Resolution) : (1 <= unit_ns res <= 1000000000)%Z.
Proof. destruct res; cbn [unit_ns]; lia. Qed.

Lemma unit_ns_day (res : Resolution) (k : Z) : ((k * DAY_NS) mod unit_ns res = 0)%Z.
Proof.
  apply Z.mod_divide; [pose proof (unit_ns_bounds res); lia|].
  apply Z.divide_mul_r.
  destruct res; cbn [unit_ns];
    [exists 86400%Z | exists 86400000%Z | exists 86400000000%Z | exists 86400000000000%Z]; reflexivity.
Qed.

(** Over the integers, (lo, hi] is [lo + 1, hi + 1). *)
Lemma count_in_shift (lo hi : Z) (ts : list Z) :
  count_in lo hi ts =
  List.length (filter (fun v => (lo + 1 <=? v) && (v <? hi + 1))%Z ts).
Proof.
  unfold count_in. f_equal. apply filter_ext. intros v.
  destruct (Z.ltb_spec lo v), (Z.leb_spec v hi), (Z.leb_spec (lo + 1) v), (Z.ltb_spec v (hi + 1));
    simpl; try reflexivity; lia.
Qed.

(** For values that are multiples of [u], the bin (M - u, M - u + W]
    holds the values of [M, M + W). *)
Lemma count_in_units (u M W : Z) (ts : list Z) :
  (0 < u)%Z -> (M mod u = 0)%Z -> (W mod u = 0)%Z ->
  forallb (fun v => v mod u =? 0)%Z ts = true ->
  count_in (M - u) (M - u + W) ts =
  List.length (filter (fun v => (M <=? v) && (v <? M + W))%Z ts).
Proof.
  intros Hu HM HW Hts. unfold count_in. f_equal. apply filter_ext_in. intros v Hv.
  rewrite forallb_forall in Hts. specialize (Hts v Hv). apply Z.eqb_eq in Hts.
  apply Z.mod_divide in HM; [|lia]. apply Z.mod_divide in HW; [|lia].
  apply Z.mod_divide in Hts; [|lia].
  destruct HM as [m ->]. destruct HW as [w ->]. destruct Hts as [x ->].
  assert (Lt : forall a b, (a * u < b * u <-> a < b)%Z)
    by (intros a b; symmetry; apply Z.mul_lt_mono_pos_r; exact Hu).
  assert (Le : forall a b, (a * u <= b * u <-> a <= b)%Z)
    by (intros a b; symmetry; apply Z.mul_le_mono_pos_r; exact Hu).
  replace (m * u - u)%Z with ((m - 1) * u)%Z by ring.
  replace ((m - 1) * u + w * u)%Z with ((m - 1 + w) * u)%Z by ring.
  replace (m * u + w * u)%Z with ((m + w) * u)%Z by ring.
  destruct (Z.ltb_spec ((m - 1) * u) (x * u)) as [H1|H1], (Z.leb_spec (x * u) ((m - 1 + w) * u)) as [H2|H2],
    (Z.leb_spec (m * u) (x * u)) as [H3|H3], (Z.ltb_spec (x * u) ((m + w) * u)) as [H4|H4];
    first [apply (proj1 (Lt _ _)) in H1 | apply (proj1 (Le _ _)) in H1]; first [apply (proj1 (Lt _ _)) in H2 | apply (proj1 (Le _ _)) in H2];
    first [apply (proj1 (Lt _ _)) in H3 | apply (proj1 (Le _ _)) in H3]; first [apply (proj1 (Lt _ _)) in H4 | apply (proj1 (Le _ _)) in H4];
    simpl; try reflexivity; lia.
Qed.

Lemma fold_min_spec (r : list Z) (t0 : Z) :
  (forall v, In v (t0 :: r) -> fold_left Z.min r t0 <= v)%Z /\ In (fold_left Z.min r t0) (t0 :: r).
Proof.
  revert t0; induction r as [|x r IH]; intros t0; simpl.
  - split; [intros v [<-|[]]; lia | auto].
  - destruct (IH (Z.min t0 x)) as [H1 H2]. split.
    + intros v [<-|[<-|Hv]].
      * specialize (H1 _ (or_introl eq_refl)). lia.
      * specialize (H1 _ (or_introl eq_refl)). lia.
      * apply H1. right. exact Hv.
    + destruct H2 as [E|H2]; [|auto].
      rewrite <- E. destruct (Z.min_spec t0 x) as [[_ ->]|[_ ->]]; auto.
Qed.

Lemma fold_max_spec (r : list Z) (t0 : Z) :
  (forall v, In v (t0 :: r) -> v <= fold_left Z.max r t0)%Z /\ In (fold_left Z.max r t0) (t0 :: r).
Proof.
  revert t0; induction r as [|x r IH]; intros t0; simpl.
  - split; [intros v [<-|[]]; lia | auto].
  - destruct (IH (Z.max t0 x)) as [H1 H2]. split.
    + intros v [<-|[<-|Hv]].
      * specialize (H1 _ (or_introl eq_refl)). lia.
      * specialize (H1 _ (or_introl eq_refl)). lia.
      * apply H1. right. exact Hv.
    + destruct H2 as [E|H2]; [|auto].
      rewrite <- E. destruct (Z.max_spec t0 x) as [[_ ->]|[_ ->]]; auto.
Qed.

(** The weekly series of a non-empty list of timestamps at resolution
    [res]: consecutive bins (Sunday's last tick, next Sunday's last tick],
    labelled with the Sunday, from the week of the earliest timestamp to
    the bin of the latest one, which is the last bin or, when the latest
    is the last tick of the bin before, the one before it. *)
Lemma resample_weekly_shape (res : Resolution) (t0 : Z) (r : list Z) :
  let mn := fold_left Z.min r t0 in
  let mx := fold_left Z.max r t0 in
  let u := unit_ns res in
  exists (L0 : Z) (mb : nat),
    resample_weekly res (t0 :: r) =
      map (fun i => (L0 + Z.of_nat i * WEEK_NS,
                     count_in (L0 + Z.of_nat i * WEEK_NS + DAY_NS - u)
                              (L0 + Z.of_nat i * WEEK_NS + DAY_NS - u + WEEK_NS) (t0 :: r)))%Z
          (seq 0 mb) /\
    (L0 mod DAY_NS = 0)%Z /\ weekday L0 = 6%Z /\
    (L0 + DAY_NS <= mn < L0 + DAY_NS + WEEK_NS)%Z /\
    (1 <= mb)%nat /\
    (L0 + DAY_NS + (Z.of_nat mb - 1) * WEEK_NS - u <= mx
       < L0 + DAY_NS + Z.of_nat mb * WEEK_NS - u)%Z /\
    (mx = L0 + DAY_NS + (Z.of_nat mb - 1) * WEEK_NS - u -> (2 <= mb)%nat)%Z.
Proof.
  intros mn mx u.
  assert (Hle : (mn <= mx)%Z).
  { destruct (fold_min_spec r t0) as [H1 _]. destruct (fold_max_spec r t0) as [_ H2].
    apply H1, H2. }
  pose proof (unit_ns_bounds res) as Hu. fold u in Hu.
  unfold resample_weekly. fold mn mx u.
  rewrite week_sun_sub_normalize, week_sun_add_normalize.
  destruct (week_bounds mn) as [Bn _]. destruct (week_bounds mx) as [Bx [B6 B6']].
  remember ((mn / DAY_NS + 3) / 7)%Z as ka.
  remember ((mx / DAY_NS + 3) / 7)%Z as kb.
  remember ((mx / DAY_NS + 3) mod 7)%Z as wb.
  assert (Hk : (ka <= kb)%Z) by (unfold DAY_NS, BotFilter.DAY_NS in *; lia).
  set (L0 := ((7 * ka - 4) * DAY_NS)%Z).
  assert (HD : DAY_NS = 86400000000000%Z) by reflexivity.
  assert (HW : WEEK_NS = 604800000000000%Z) by reflexivity.
  assert (HL0 : (L0 mod DAY_NS = 0)%Z) by (apply Z.mod_mul; rewrite HD; lia).
  assert (HwL0 : weekday L0 = 6%Z).
  { unfold weekday, L0. rewrite Z.div_mul by (rewrite HD; lia).
    replace (7 * ka - 4 + 3)%Z with (6 + (ka - 1) * 7)%Z by ring.
    rewrite Z_mod_plus_full. reflexivity. }
  assert (Hbins : forall mb, map (fun i => (L0 + Z.of_nat i * WEEK_NS,
                     count_in (L0 + Z.of_nat i * WEEK_NS + DAY_NS - u)
                              (L0 + Z.of_nat i * WEEK_NS + DAY_NS - u + WEEK_NS) (t0 :: r)))%Z
                     (seq 0 mb)
                 = map (fun i => (L0 + Z.of_nat i * WEEK_NS,
                     count_in (L0 + Z.of_nat i * WEEK_NS + DAY_NS - u)
                              (L0 + Z.of_nat (S i) * WEEK_NS + DAY_NS - u) (t0 :: r)))%Z
                     (seq 0 mb)).
  { intros mb. apply map_ext. intros i. f_equal. f_equal. lia. }
  destruct (Z.eqb_spec wb 6) as [E6|E6].
  - (* the latest record falls on a Sunday *)
    specialize (B6 E6).
    replace (((7 * kb + 3) * DAY_NS + WEEK_NS - L0) / WEEK_NS)%Z with (kb - ka + 2)%Z
      by (apply Z.div_unique_exact; [rewrite HW; lia | unfold L0; rewrite HD, HW; lia]).
    destruct (Z.ltb_spec mx (L0 + Z.of_nat (Z.to_nat (kb - ka + 2) + 1 - 2) * WEEK_NS + DAY_NS - u))
      as [Hlt|Hge].
    + exists L0, (Z.to_nat (kb - ka + 1)).
      split; [|split; [exact HL0|split; [exact HwL0|split; [|split; [|split]]]]].
      * replace (Z.to_nat (kb - ka + 2) + 1 - 1 - 1)%nat with (Z.to_nat (kb - ka + 1)) by lia.
        rewrite Hbins. reflexivity.
      * unfold L0. rewrite HD, HW in *. lia.
      * lia.
      * unfold L0 in *. rewrite HD, HW in *. lia.
      * intros E. exfalso. unfold L0 in *. rewrite HD, HW in *. lia.
    + exists L0, (Z.to_nat (kb - ka + 2)).
      split; [|split; [exact HL0|split; [exact HwL0|split; [|split; [|split]]]]].
      * replace (Z.to_nat (kb - ka + 2) + 1 - 1)%nat with (Z.to_nat (kb - ka + 2)) by lia.
        rewrite Hbins. reflexivity.
      * unfold L0. rewrite HD, HW in *. lia.
      * lia.
      * unfold L0 in *. rewrite HD, HW in *. lia.
      * intros _. lia.
  - specialize (B6' E6).
    replace (((7 * kb + 3) * DAY_NS + 0 - L0) / WEEK_NS)%Z with (kb - ka + 1)%Z
      by (apply Z.div_unique_exact; [rewrite HW; lia | unfold L0; rewrite HD, HW; lia]).
    destruct (Z.ltb_spec mx (L0 + Z.of_nat (Z.to_nat (kb - ka + 1) + 1 - 2) * WEEK_NS + DAY_NS - u))
      as [Hlt|Hge].
    + exfalso. unfold L0 in Hlt. rewrite HD, HW in *. lia.
    + exists L0, (Z.to_nat (kb - ka + 1)).
      split; [|split; [exact HL0|split; [exact HwL0|split; [|split; [|split]]]]].
      * replace (Z.to_nat (kb - ka + 1) + 1 - 1)%nat with (Z.to_nat (kb - ka + 1)) by lia.
        rewrite Hbins. reflexivity.
      * unfold L0. rewrite HD, HW in *. lia.
      * lia.
      * unfold L0 in *. rewrite HD, HW in *. lia.
      * intros E. exfalso. unfold L0 in *. rewrite HD, HW in *. lia.
Qed.

(** Within the bin of a series starting on the Sunday [L0], a timestamp
    is the last tick of a Sunday exactly when it is the bin's lower edge. *)
Lemma sunday_last_tick_edge (res : Resolution) (L0 : Z) (mb : nat) (mx : Z) :
  (L0 mod DAY_NS = 0)%Z -> weekday L0 = 6%Z ->
  (L0 + DAY_NS + (Z.of_nat mb - 1) * WEEK_NS - unit_ns res <= mx
     < L0 + DAY_NS + Z.of_nat mb * WEEK_NS - unit_ns res)%Z ->
  sunday_last_tick res mx = true <->
  mx = (L0 + DAY_NS + (Z.of_nat mb - 1) * WEEK_NS - unit_ns res)%Z.
Proof.
  intros HL0 Hw B. pose proof (unit_ns_bounds res) as Hu.
  set (u := unit_ns res) in *.
  assert (HD : DAY_NS = 86400000000000%Z) by reflexivity.
  assert (HW : WEEK_NS = 604800000000000%Z) by reflexivity.
  pose proof (Z.div_mod L0 DAY_NS ltac:(rewrite HD; lia)) as EL. rewrite HL0, Z.add_0_r in EL.
  set (a := (L0 / DAY_NS)%Z) in *.
  unfold weekday in Hw. rewrite EL, Z.mul_comm, Z.div_mul in Hw by (rewrite HD; lia).
  pose proof (Z.div_mod (a + 3) 7 ltac:(lia)) as Ea. rewrite Hw in Ea.
  unfold sunday_last_tick, weekday. split.
  - intros T. apply andb_true_iff in T. destruct T as [T1 T2].
    apply Z.eqb_eq in T1. apply Z.eqb_eq in T2.
    pose proof (Z.div_mod mx DAY_NS ltac:(rewrite HD; lia)) as Em. rewrite T2 in Em.
    set (p := (mx / DAY_NS)%Z) in *.
    pose proof (Z.div_mod (p + 3) 7 ltac:(lia)) as Ep. rewrite T1 in Ep.
    set (q1 := ((a + 3) / 7)%Z) in *. set (q2 := ((p + 3) / 7)%Z) in *.
    rewrite HD, HW in *. lia.
  - intros E.
    assert (Q : (mx / DAY_NS = a + 7 * (Z.of_nat mb - 1))%Z).
    { symmetry. apply Z.div_unique with (DAY_NS - u)%Z; rewrite HD, HW in *; lia. }
    assert (R : (mx mod DAY_NS = DAY_NS - u)%Z).
    { symmetry. apply Z.mod_unique with (a + 7 * (Z.of_nat mb - 1))%Z; rewrite HD, HW in *; lia. }
    rewrite Q, R, Z.eqb_refl, andb_true_r.
    replace (a + 7 * (Z.of_nat mb - 1) + 3)%Z with ((a + 3) + (Z.of_nat mb - 1) * 7)%Z by ring.
    rewrite Z_mod_plus_full, Hw. reflexivity.
Qed.

End ForecastFacts.

(** An object heap: the Python objects (DataFrames) a call can reach, by
    location, with the next free location. *)
Module Heap.
Import Data.

Section Heap.
Context {V : Type}.

Record St := mkSt { heap : nat -> option V; next : nat }.

Definition M (A : Type) : Type := St -> result A * St.

Definition ret {A} (a : A) : M A := fun s => (Ok a, s).

Definition bind {A B} (m : M A) (k : A -> M B) : M B :=
  fun s => match m s with
           | (Ok a, s') => k a s'
           | (Err e, s') => (Err e, s')
           end.

Definition raise {A} (e : PyError) : M A := fun s => (Err e, s).

Definition lift {A} (r : result A) : M A := fun s => (r, s).

Definition upd (h : nat -> option V) (l : nat) (v : V) : nat -> option V :=
  fun l' => if Nat.eqb l' l then Some v else h l'.

(** Reading an object; locations handed to a call are always allocated,
    the error case only keeps the function total. *)
Definition load (l : nat) : M V :=
  fun s => match heap s l with
           | Some v => (Ok v, s)
           | None => (Err (KeyError "<unallocated>"), s)
           end.

(** In-place update of an object ([df[c] = ...], [inplace=True]). *)
Definition store (l : nat) (v : V) : M unit :=
  fun s => (Ok tt, mkSt (upd (heap s) l v) (next s)).

(** A new object ([.copy()], [df.loc[...]], [df[[...]]], [.assign(...)], ...). *)
Definition alloc (v : V) : M nat :=
  fun s => (Ok (next s), mkSt (upd (heap s) (next s) v) (S (next s))).

End Heap.

Module HeapNotations.
Notation "x <- m ;; k" := (bind m (fun x => k)) (at level 61, m at next level, right associativity).
Notation "m ;; k" := (bind m (fun _ => k)) (at level 61, right associativity).
End HeapNotations.

End Heap.

(** The four entry points as statement sequences over the object heap.
    What the pandas expressions compute is left abstract ([PandasOps]);
    which object every statement reads, creates or writes is the code's. *)
Module Effects.
Import Data Heap HeapNotations.
Local Open Scope string_scope.

Record PandasOps (Frame Series : Type) := mkOps {
  columns_of : Frame -> list string;                 (* df.columns *)
  is_empty : Frame -> bool;                          (* df.empty *)
  set_col : Frame -> string -> Series -> Frame;      (* df[c] = s *)
  drop_cols : Frame -> list string -> Frame;         (* df.drop(columns=cs) *)
  select_cols : Frame -> list string -> Frame;       (* df[[c1, c2]] *)
  (* apply_bot_filter *)
  bot_rhs : BotFilter.Config -> string -> Frame -> Series;
    (* right-hand side of [df[c] = ...] for the added columns c *)
  bot_stats : Frame -> BotFilter.Stats;
  not_bot_rows : Frame -> Frame;                     (* df.loc[~df["is_bot"]] *)
  (* build_skill_graph *)
  skill_graph : Frame -> Graph.Adj * list (string * nat) * list (string * string * nat);
  (* cluster_regions *)
  dropna_tags : Frame -> Frame;                      (* .dropna(subset=["skill_tags"]) *)
  cluster_rhs : string -> Frame -> Series;           (* exp["skill"] = ... *)
  explode_skill : Frame -> Frame;                    (* exp.explode("skill") *)
  nonempty_skill_rows : Frame -> Frame;              (* exp[exp["skill"] != ""] *)
  profile : Frame -> Frame;                          (* groupby(...).size().unstack(fill_value=0) *)
  n_rows : Frame -> nat;                             (* len(mat) *)
  fit_predict : Z -> Frame -> result Series;         (* KMeans(n_clusters=k, ...).fit_predict(mat) *)
  assign_cluster : Frame -> Series -> Frame;         (* mat.assign(_cluster=labels) *)
  cluster_sums : Frame -> Frame;                     (* mat.groupby("_cluster").sum().drop(...) *)
  cluster_result : Z -> Frame -> Frame -> list (string * nat * list string);
  (* forecast_skill *)
  skill_rows : string -> Frame -> Frame;             (* df.loc[df["skill_tags"].apply(has_skill)] *)
  forecast_rhs : string -> Frame -> Series;          (* filtered["timestamp"] = ..., weekly["week"] = ... *)
  weekly_counts : Frame -> Frame;                    (* set_index(...).resample(...).size().reset_index(...) *)
  forecast_of : Z -> Frame -> Forecast.ForecastResult
}.

Arguments columns_of {Frame Series} _ _.
Arguments is_empty {Frame Series} _ _.
Arguments set_col {Frame Series} _ _ _ _.
Arguments drop_cols {Frame Series} _ _ _.
Arguments select_cols {Frame Series} _ _ _.
Arguments bot_rhs {Frame Series} _ _ _ _.
Arguments bot_stats {Frame Series} _ _.
Arguments not_bot_rows {Frame Series} _ _.
Arguments skill_graph {Frame Series} _ _.
Arguments dropna_tags {Frame Series} _ _.
Arguments cluster_rhs {Frame Series} _ _ _.
Arguments explode_skill {Frame Series} _ _.
Arguments nonempty_skill_rows {Frame Series} _ _.
Arguments profile {Frame Series} _ _.
Arguments n_rows {Frame Series} _ _.
Arguments fit_predict {Frame Series} _ _ _.
Arguments assign_cluster {Frame Series} _ _ _.
Arguments cluster_sums {Frame Series} _ _.
Arguments cluster_result {Frame Series} _ _ _ _.
Arguments skill_rows {Frame Series} _ _ _.
Arguments forecast_rhs {Frame Series} _ _ _.
Arguments weekly_counts {Frame Series} _ _.
Arguments forecast_of {Frame Series} _ _ _.

Section Programs.
Context {Frame Series : Type} (ops : PandasOps Frame Series).

Definition has (c : string) (v : Frame) : bool := existsb (String.eqb c) (columns_of ops v).

(** [df[c] = rhs(df)] on the object at [l]. *)
Definition assign_col (l : nat) (c : string) (rhs : Frame -> Series) : M unit :=
  v <- load l ;; store l (set_col ops v c (rhs v)).

(** bot_filter.py, lines 67-107, on the copy at [df]. *)
Definition bot_annotate (df : nat) (cfg : BotFilter.Config) : M unit :=
  assign_col df "_day" (bot_rhs ops cfg "_day") ;;
  assign_col df "_norm_text" (bot_rhs ops cfg "_norm_text") ;;
  assign_col df "posts_per_day" (bot_rhs ops cfg "posts_per_day") ;;
  assign_col df "duplicate_text_ratio" (bot_rhs ops cfg "duplicate_text_ratio") ;;
  assign_col df "is_bot" (bot_rhs ops cfg "is_bot") ;;
  assign_col df "trust_score" (bot_rhs ops cfg "trust_score") ;;
  v <- load df ;;
  store df (drop_cols ops v ["_day"; "_norm_text"]).

(** bot_filter.py, lines 110-121. *)
Definition bot_finish (df : nat) : M (nat * BotFilter.Stats) :=
  v <- load df ;;
  sel <- alloc (not_bot_rows ops v) ;;
  w <- load sel ;;
  cleaned_df <- alloc w ;;
  ret (cleaned_df, bot_stats ops v).

Definition apply_bot_filter (df : nat) (cfg : BotFilter.Config) : M (nat * BotFilter.Stats) :=
  v <- load df ;;
  match filter (fun c => negb (has c v)) BotFilter.required_cols with
  | (_ :: _) as missing => raise (ValueError missing)
  | [] =>
      df' <- alloc v ;;
      bot_annotate df' cfg ;;
      bot_finish df'
  end.

Definition build_skill_graph (df : nat)
  : M (Graph.Adj * list (string * nat) * list (string * string * nat)) :=
  v <- load df ;;
  if has "skill_tags" v then ret (skill_graph ops v) else raise (KeyError "skill_tags").

Definition cluster_regions (df : nat) (n_clusters : Z) : M (list (string * nat * list string)) :=
  v <- load df ;;
  if is_empty ops v || negb (has "region" v) || negb (has "skill_tags" v) then ret []
  else
    a <- alloc (select_cols ops v ["region"; "skill_tags"]) ;;
    x <- load a ;; b <- alloc (dropna_tags ops x) ;;
    x <- load b ;; exp <- alloc x ;;
    assign_col exp "skill" (cluster_rhs ops "split") ;;
    x <- load exp ;; exp <- alloc (explode_skill ops x) ;;
    assign_col exp "skill" (cluster_rhs ops "strip") ;;
    x <- load exp ;; c <- alloc (nonempty_skill_rows ops x) ;;
    x <- load c ;; exp <- alloc (select_cols ops x ["region"; "skill"]) ;;
    x <- load exp ;;
    if is_empty ops x then ret []
    else
      mat <- alloc (profile ops x) ;;
      m <- load mat ;;
      let k := Z.min n_clusters (Z.of_nat (n_rows ops m)) in
      labels <- lift (fit_predict ops k m) ;;
      mat <- alloc (assign_cluster ops m labels) ;;
      m <- load mat ;;
      sums <- alloc (cluster_sums ops m) ;;
      s <- load sums ;;
      ret (cluster_result ops k m s).

Definition forecast_skill (df : nat) (skill : string) (horizon_weeks : Z)
  : M Forecast.ForecastResult :=
  v <- load df ;;
  if is_empty ops v || negb (has "timestamp" v) || negb (has "skill_tags" v)
  then ret Forecast._empty_result
  else
    let skill := Py.strip skill in
    if String.eqb skill "" then ret Forecast._empty_result
    else
      x <- alloc (skill_rows ops skill v) ;;
      y <- load x ;; filtered <- alloc y ;;
      f <- load filtered ;;
      if is_empty ops f then ret Forecast._empty_result
      else
        assign_col filtered "timestamp" (forecast_rhs ops "timestamp") ;;
        f <- load filtered ;;
        weekly <- alloc (weekly_counts ops f) ;;
        assign_col weekly "week" (forecast_rhs ops "week") ;;
        w <- load weekly ;;
        ret (forecast_of ops horizon_weeks w).

End Programs.
End Effects.

Module EffectFacts.
Import Data Heap HeapNotations Effects.
Local Open Scope nat_scope.

Section Confined.
Context {V : Type}.

(** [p] leaves every object below [n] as it was, and allocates upward. *)
Definition confined (n : nat) {A} (p : @M V A) : Prop :=
  forall s, n <= next s ->
    n <= next (snd (p s)) /\ (forall l, l < n -> heap (snd (p s)) l = heap s l).

Lemma confined_ret n {A} (a : A) : confined n (ret a).
Proof. intros s H. split; auto. Qed.

Lemma confined_raise n {A} e : confined n (@raise V A e).
Proof. intros s H. split; auto. Qed.

Lemma confined_lift n {A} (r : result A) : confined n (@lift V A r).
Proof. intros s H. split; auto. Qed.

Lemma confined_load n l : confined n (@load V l).
Proof. intros s H. unfold load. destruct (heap s l); split; auto. Qed.

Lemma confined_store n l v : n <= l -> confined n (@store V l v).
Proof.
  intros Hl s H. split; [exact H|]. intros l' Hl'. simpl. unfold upd.
  destruct (Nat.eqb_spec l' l); [lia|reflexivity].
Qed.

Lemma confined_bind n {A B} (m : M A) (k : A -> M B) :
  confined n m -> (forall a, confined n (k a)) -> confined n (bind m k).
Proof.
  intros Hm Hk s H. unfold bind. destruct (Hm s H) as [H1 H2].
  destruct (m s) as [[a|e] s'] eqn:E; simpl in *.
  - destruct (Hk a s' H1) as [H3 H4]. split; [exact H3|].
    intros l Hl. rewrite H4 by exact Hl. apply H2, Hl.
  - split; assumption.
Qed.

(** The continuation of an allocation only sees a location at or above [n]. *)
Lemma confined_bind_alloc n {B} (v : V) (k : nat -> M B) :
  (forall l, n <= l -> confined n (k l)) -> confined n (bind (alloc v) k).
Proof.
  intros Hk s H. unfold bind, alloc.
  destruct (Hk (next s) H (mkSt (upd (heap s) (next s) v) (S (next s)))) as [H3 H4];
    [simpl; lia|].
  split; [exact H3|]. intros l Hl. rewrite H4 by exact Hl. simpl. unfold upd.
  destruct (Nat.eqb_spec l (next s)); [lia|reflexivity].
Qed.

End Confined.

Section Programs.
Context {Frame Series : Type} (ops : PandasOps Frame Series).

Lemma confined_assign_col n l c rhs : n <= l -> confined n (assign_col ops l c rhs).
Proof.
  intros Hl. unfold assign_col. apply confined_bind; [apply confined_load|].
  intros v. apply confined_store, Hl.
Qed.

Ltac confined_tac :=
  repeat match goal with
  | |- confined _ (bind (alloc _) _) => apply confined_bind_alloc; intros ? ?
  | |- confined _ (bind _ _) => apply confined_bind; [|intros ?]
  | |- confined _ (assign_col _ _ _ _) => apply confined_assign_col; lia
  | |- confined _ (store _ _) => apply confined_store; lia
  | |- confined _ (ret _) => apply confined_ret
  | |- confined _ (raise _) => apply confined_raise
  | |- confined _ (lift _) => apply confined_lift
  | |- confined _ (load _) => apply confined_load
  | |- confined _ (if ?b then _ else _) => destruct b
  | |- confined _ (match ?x with _ => _ end) => destruct x
  end.

Lemma confined_bot_annotate n df cfg : n <= df -> confined n (bot_annotate ops df cfg).
Proof. intros Hd. unfold bot_annotate. confined_tac. Qed.

Lemma confined_bot_finish n df : confined n (bot_finish ops df).
Proof. unfold bot_finish. confined_tac. Qed.

Lemma confined_apply_bot_filter n df cfg : confined n (apply_bot_filter ops df cfg).
Proof.
  unfold apply_bot_filter. apply confined_bind; [apply confined_load|]. intros v.
  destruct (filter _ _); [|apply confined_raise].
  apply confined_bind_alloc. intros l Hl.
  apply confined_bind; [apply confined_bot_annotate, Hl|]. intros _.
  apply confined_bot_finish.
Qed.

Lemma confined_build_skill_graph n df : confined n (build_skill_graph ops df).
Proof. unfold build_skill_graph. confined_tac. Qed.

Lemma confined_cluster_regions n df k : confined n (cluster_regions ops df k).
Proof. unfold cluster_regions. cbv zeta. confined_tac. Qed.

Lemma confined_forecast_skill n df skill h : confined n (forecast_skill ops df skill h).
Proof. unfold forecast_skill. cbv zeta. confined_tac. Qed.

End Programs.
End EffectFacts.

(* ================================================================== *)
Module TextFacts.
Import Py.

(** A list that neither starts nor ends with whitespace. *)
Definition edge_ok (l : list ascii) : bool :=
  match l with [] => true | c :: _ => negb (is_space c) end.

Definition no_edge (l : list ascii) : bool := edge_ok l && edge_ok (rev l).

(** No whitespace but single spaces, none at the front when [in_run]. *)
Fixpoint clean (in_run : bool) (l : list ascii) : bool :=
  match l with
  | [] => true
  | c :: r => if is_space c then Ascii.eqb c " "%char && negb in_run && clean true r
              else clean false r
  end.

Lemma lstrip_id (l : list ascii) : edge_ok l = true -> lstrip l = l.
Proof.
  destruct l as [|c r]; simpl; [reflexivity|]. intros H.
  destruct (is_space c); [discriminate|reflexivity].
Qed.

Lemma lstrip_edge (l : list ascii) : edge_ok (lstrip l) = true.
Proof.
  induction l as [|c r IH]; simpl; [reflexivity|].
  destruct (is_space c) eqn:E; [exact IH|simpl; rewrite E; reflexivity].
Qed.

Lemma lstrip_app_ns (l : list ascii) (c : ascii) :
  is_space c = false -> lstrip (l ++ [c]) = lstrip l ++ [c].
Proof.
  intros Hc. induction l as [|d r IH]; simpl; [rewrite Hc; reflexivity|].
  destruct (is_space d); [exact IH|reflexivity].
Qed.

Lemma lstrip_keeps (l : list ascii) (x : ascii) :
  In x l -> is_space x = false -> In x (lstrip l).
Proof.
  induction l as [|c r IH]; simpl; [contradiction|]. intros [<-|H] Hx.
  - rewrite Hx. left. reflexivity.
  - destruct (is_space c); [apply IH; assumption|right; exact H].
Qed.

Lemma lstrip_incl (l : list ascii) : incl (lstrip l) l.
Proof.
  induction l as [|c r IH]; simpl; [apply incl_refl|].
  destruct (is_space c); [intros x Hx; right; apply IH, Hx|apply incl_refl].
Qed.

Lemma strip_l_id (l : list ascii) : no_edge l = true -> strip_l l = l.
Proof.
  unfold no_edge, strip_l. intros H. apply andb_true_iff in H. destruct H as [H1 H2].
  rewrite (lstrip_id _ H1), (lstrip_id _ H2). apply rev_involutive.
Qed.

Lemma strip_l_edge (l : list ascii) : no_edge (strip_l l) = true.
Proof.
  unfold no_edge, strip_l. rewrite rev_involutive, lstrip_edge, andb_true_r.
  pose proof (lstrip_edge l) as E. destruct (lstrip l) as [|c y] eqn:Y; [reflexivity|].
  simpl in E |- *. rewrite negb_true_iff in E. rewrite (lstrip_app_ns _ _ E), rev_app_distr.
  simpl. rewrite E. reflexivity.
Qed.

Lemma strip_l_incl (l : list ascii) : incl (strip_l l) l.
Proof.
  unfold strip_l. intros x Hx. apply in_rev in Hx. apply lstrip_incl in Hx.
  apply in_rev in Hx. apply lstrip_incl in Hx. exact Hx.
Qed.

Lemma strip_l_keeps (l : list ascii) (x : ascii) :
  In x l -> is_space x = false -> In x (strip_l l).
Proof.
  intros H Hx. unfold strip_l. apply in_rev. rewrite rev_involutive.
  apply lstrip_keeps; [|exact Hx]. apply in_rev. rewrite rev_involutive.
  apply lstrip_keeps; assumption.
Qed.

Lemma strip_l_idem (l : list ascii) : strip_l (strip_l l) = strip_l l.
Proof. apply strip_l_id, strip_l_edge. Qed.

Lemma strip_idem (s : string) : strip (strip s) = strip s.
Proof.
  unfold strip. rewrite list_ascii_of_string_of_list_ascii, strip_l_idem. reflexivity.
Qed.

Lemma collapse_clean (b : bool) (l : list ascii) : clean b (collapse_ws b l) = true.
Proof.
  revert b; induction l as [|c r IH]; intros b; simpl; [reflexivity|].
  destruct (is_space c) eqn:E.
  - destruct b; [apply IH|]. simpl. apply IH.
  - simpl. rewrite E. apply IH.
Qed.

Lemma collapse_id (b : bool) (l : list ascii) : clean b l = true -> collapse_ws b l = l.
Proof.
  revert b; induction l as [|c r IH]; intros b; simpl; [reflexivity|].
  destruct (is_space c) eqn:E.
  - intros H. apply andb_true_iff in H. destruct H as [H Hr].
    apply andb_true_iff in H. destruct H as [Hc Hb].
    apply Ascii.eqb_eq in Hc. subst c. destruct b; [discriminate|].
    rewrite (IH true Hr). reflexivity.
  - intros H. rewrite (IH false H). reflexivity.
Qed.

Lemma collapse_app_ns (b : bool) (l : list ascii) (c : ascii) :
  is_space c = false -> collapse_ws b (l ++ [c]) = collapse_ws b l ++ [c].
Proof.
  intros Hc. revert b; induction l as [|d r IH]; intros b; simpl.
  - rewrite Hc. reflexivity.
  - destruct (is_space d); [destruct b; simpl|]; rewrite ?IH; reflexivity.
Qed.

Lemma collapse_no_edge (b : bool) (l : list ascii) :
  no_edge l = true -> no_edge (collapse_ws b l) = true.
Proof.
  unfold no_edge. intros H. apply andb_true_iff in H. destruct H as [H1 H2].
  apply andb_true_iff. split.
  - destruct l as [|c r]; simpl in *; [reflexivity|].
    apply negb_true_iff in H1. rewrite H1. simpl. rewrite H1. reflexivity.
  - clear H1. destruct l as [|c r _] using rev_ind; [reflexivity|].
    rewrite rev_app_distr in H2. simpl in H2. apply negb_true_iff in H2.
    rewrite (collapse_app_ns b r c H2), rev_app_distr. simpl. rewrite H2. reflexivity.
Qed.

Lemma collapse_incl (b : bool) (l : list ascii) (x : ascii) :
  In x (collapse_ws b l) -> In x l \/ x = " "%char.
Proof.
  revert b; induction l as [|c r IH]; intros b; simpl; [contradiction|].
  destruct (is_space c); [destruct b|]; simpl.
  - intros H. destruct (IH _ H); auto.
  - intros [<-|H]; [auto|]. destruct (IH _ H); auto.
  - intros [<-|H]; [auto|]. destruct (IH _ H); auto.
Qed.

Lemma lower_char_idem (c : ascii) : lower_char (lower_char c) = lower_char c.
Proof. destruct c as [[] [] [] [] [] [] [] []]; reflexivity. Qed.

(** [_normalize_text] on the character list. *)
Definition norm_l (l : list ascii) : list ascii := collapse_ws false (strip_l (map lower_char l)).

Lemma normalize_text_l (s : string) :
  list_ascii_of_string (BotFilter.normalize_text s) = norm_l (list_ascii_of_string s).
Proof.
  unfold BotFilter.normalize_text, sub_ws, strip, lower, norm_l.
  rewrite !list_ascii_of_string_of_list_ascii. reflexivity.
Qed.

Lemma norm_l_lower (l : list ascii) : map lower_char (norm_l l) = norm_l l.
Proof.
  rewrite <- map_id. apply map_ext_in. intros x Hx.
  unfold norm_l in Hx. apply collapse_incl in Hx. destruct Hx as [Hx| ->]; [|reflexivity].
  apply strip_l_incl in Hx. apply in_map_iff in Hx. destruct Hx as [c [<- _]].
  apply lower_char_idem.
Qed.

Lemma norm_l_no_edge (l : list ascii) : no_edge (norm_l l) = true.
Proof. unfold norm_l. apply collapse_no_edge, strip_l_edge. Qed.

Lemma norm_l_idem (l : list ascii) : norm_l (norm_l l) = norm_l l.
Proof.
  unfold norm_l at 1. rewrite norm_l_lower, (strip_l_id _ (norm_l_no_edge l)).
  apply collapse_id. apply collapse_clean.
Qed.

(** [s.split(";")] pieces hold no [";"]. *)
Lemma split_sc_no_sc (l : list ascii) (p : list ascii) :
  In p (split_sc l) -> ~ In ";"%char p.
Proof.
  revert p; induction l as [|c r IH]; intros p; simpl.
  - intros [<-|[]]. simpl. tauto.
  - destruct (Ascii.eqb c ";"%char) eqn:E.
    + intros [<-|H]; [simpl; tauto|apply IH, H].
    + destruct (split_sc r) as [|q qs] eqn:S.
      * intros [<-|[]]. simpl. intros [H|[]]. subst. rewrite Ascii.eqb_refl in E. discriminate.
      * intros [<-|H].
        -- simpl. intros [H|H]; [subst; rewrite Ascii.eqb_refl in E; discriminate|].
           apply (IH q); [left; reflexivity|exact H].
        -- apply IH. right. exact H.
Qed.

Lemma parse_tags_no_sc (t s : string) :
  In s (Graph.parse_tags t) -> ~ In ";"%char (list_ascii_of_string s).
Proof.
  unfold Graph.parse_tags, split. intros H. apply filter_In in H. destruct H as [H _].
  apply in_map_iff in H. destruct H as [p [<- Hp]]. apply in_map_iff in Hp.
  destruct Hp as [q [<- Hq]]. unfold strip. rewrite list_ascii_of_string_of_list_ascii.
  intros Hin. apply strip_l_incl in Hin. rewrite list_ascii_of_string_of_list_ascii in Hin.
  apply (split_sc_no_sc _ _ Hq Hin).
Qed.

End TextFacts.

Module RoundFacts.

Lemma round_half_even_comp (x y : Q) : x == y -> Py.round_half_even x = Py.round_half_even y.
Proof.
  intros E. unfold Py.round_half_even. rewrite (Qfloor_comp x y E).
  assert (D : x - inject_Z (Qfloor y) == y - inject_Z (Qfloor y)) by (rewrite E; reflexivity).
  rewrite (Qcompare_comp _ _ D (1 # 2) (1 # 2) (Qeq_refl _)). reflexivity.
Qed.

Lemma round_comp (x y : Q) (n : nat) : x == y -> Py.round x n = Py.round y n.
Proof.
  intros E. unfold Py.round.
  rewrite (round_half_even_comp (x * inject_Z (10 ^ Z.of_nat n)) (y * inject_Z (10 ^ Z.of_nat n)));
    [reflexivity|].
  rewrite E. reflexivity.
Qed.

Lemma round_half_even_bounds (x : Q) (M : Z) :
  0 <= x -> x <= inject_Z M -> (0 <= Py.round_half_even x <= M)%Z.
Proof.
  intros H0 HM. pose proof (Qfloor_le x) as F1. pose proof (Qlt_floor x) as F2.
  assert (L0 : (0 <= Qfloor x)%Z).
  { rewrite <- (Qfloor_Z 0). apply Qfloor_resp_le. exact H0. }
  assert (LM : (Qfloor x <= M)%Z).
  { rewrite <- (Qfloor_Z M). apply Qfloor_resp_le. exact HM. }
  unfold Py.round_half_even.
  destruct (Z.eq_dec (Qfloor x) M) as [EM|NM].
  - assert (Ex : x == inject_Z M).
    { apply Qle_antisym; [exact HM|]. rewrite <- EM. exact F1. }
    assert (Ed : x - inject_Z (Qfloor x) == 0) by (rewrite EM, Ex; ring).
    rewrite (Qcompare_comp _ _ Ed (1 # 2) (1 # 2) (Qeq_refl _)). simpl. lia.
  - destruct (Qcompare (x - inject_Z (Qfloor x)) (1 # 2)); [destruct (Z.even (Qfloor x))| |]; lia.
Qed.

Lemma round_bounds (q : Q) (n : nat) (M : Z) :
  0 <= q -> q <= inject_Z M -> 0 <= Py.round q n <= inject_Z M.
Proof.
  intros H0 HM. unfold Py.round.
  set (s := (10 ^ Z.of_nat n)%Z).
  assert (Sp : (0 < s)%Z) by (apply Z.pow_pos_nonneg; lia).
  assert (Sq : 0 < inject_Z s) by (change 0 with (inject_Z 0); rewrite <- Zlt_Qlt; exact Sp).
  destruct (round_half_even_bounds (q * inject_Z s) (M * s)) as [B0 B1].
  - apply Qmult_le_0_compat; [exact H0|apply Qlt_le_weak, Sq].
  - rewrite inject_Z_mult. apply Qmult_le_compat_r; [exact HM|apply Qlt_le_weak, Sq].
  - split.
    + apply Qle_shift_div_l; [exact Sq|]. rewrite Qmult_0_l. change 0 with (inject_Z 0).
      rewrite <- Zle_Qle. exact B0.
    + apply Qle_shift_div_r; [exact Sq|]. rewrite <- inject_Z_mult, <- Zle_Qle. exact B1.
Qed.

End RoundFacts.

(** Facts on the binary64 model: rounding error, exactness on the grid,
    monotonicity, and the percentage of [apply_bot_filter]. *)
Module FloatFacts.
Import Py.
Local Open Scope Q_scope.

(** [100.0 * b / t] for ints [b] and [t], as computed in binary64. *)
Definition pct (b t : nat) : Q :=
  float_of_Q (float_of_Q (100 * float_of_Q (inject_Z (Z.of_nat b))) / float_of_Q (inject_Z (Z.of_nat t))).



Lemma Qfloor_eq (x : Q) (j : Z) : inject_Z j <= x -> x < inject_Z (j + 1) -> Qfloor x = j.
Proof.
  intros H1 H2. pose proof (Qfloor_le x) as F1.
  assert (A : (j <= Qfloor x)%Z) by (rewrite <- (Qfloor_Z j); apply Qfloor_resp_le, H1).
  assert (B : (Qfloor x < j + 1)%Z) by (rewrite Zlt_Qlt; exact (Qle_lt_trans _ _ _ F1 H2)).
  lia.
Qed.

Ltac qz := unfold Qlt, Qle, Qeq, Qminus, Qplus, Qopp, Qmult, inject_Z in *; simpl in *; nia.

Lemma rhe_unique (x : Q) (j : Z) :
  inject_Z j - (1 # 2) < x -> x < inject_Z j + (1 # 2) -> round_half_even x = j.
Proof.
  intros H1 H2. unfold round_half_even.
  destruct (Qlt_le_dec x (inject_Z j)) as [L|L].
  - rewrite (Qfloor_eq x (j - 1)).
    + destruct (Qcompare_spec (x - inject_Z (j - 1)) (1 # 2)) as [E|E|E];
        [exfalso; destruct x; qz|exfalso; destruct x; qz|lia].
    + destruct x; qz.
    + replace (j - 1 + 1)%Z with j by ring. exact L.
  - rewrite (Qfloor_eq x j L).
    + destruct (Qcompare_spec (x - inject_Z j) (1 # 2)) as [E|E|E];
        [exfalso; destruct x; qz|reflexivity|exfalso; destruct x; qz].
    + destruct x; qz.
Qed.

Lemma rhe_int (n : Z) : round_half_even (inject_Z n) = n.
Proof.
  apply rhe_unique; qz.
Qed.
Lemma rhe_near (x : Q) :
  inject_Z (round_half_even x) - (1 # 2) <= x <= inject_Z (round_half_even x) + (1 # 2).
Proof.
  pose proof (Qfloor_le x) as F1. pose proof (Qlt_floor x) as F2.
  unfold round_half_even. set (f := Qfloor x) in *. clearbody f.
  destruct (Qcompare_spec (x - inject_Z f) (1 # 2)) as [E|E|E];
    [destruct (Z.even f)|..]; destruct x; split; qz.
Qed.

Lemma rhe_comp (x y : Q) : x == y -> round_half_even x = round_half_even y.
Proof.
  intros E. unfold round_half_even. rewrite (Qfloor_comp x y E).
  assert (D : x - inject_Z (Qfloor y) == y - inject_Z (Qfloor y)) by (rewrite E; reflexivity).
  rewrite (Qcompare_comp _ _ D (1 # 2) (1 # 2) (Qeq_refl _)). reflexivity.
Qed.

Lemma rhe_mono (x y : Q) : x <= y -> (round_half_even x <= round_half_even y)%Z.
Proof.
  intros H. destruct (Z.le_gt_cases (round_half_even x) (round_half_even y)) as [L|L]; [exact L|].
  pose proof (rhe_near x) as [X1 X2]. pose proof (rhe_near y) as [Y1 Y2].
  assert (E : x == y).
  { set (a := round_half_even x) in *. set (b := round_half_even y) in *.
    clearbody a b. apply Qle_antisym; [exact H|].
    apply (Qle_trans _ _ _ Y2). apply (Qle_trans _ (inject_Z a - (1 # 2))); [qz|exact X1]. }
  rewrite (rhe_comp x y E) in L. lia.
Qed.

Lemma pow2_Z (n : Z) : (0 <= n)%Z -> 2 ^ n == inject_Z (2 ^ n).
Proof. intros H. rewrite Zpower_Qpower by exact H. reflexivity. Qed.

Lemma Qlog2_floor_le (a : Q) : 0 < a -> 2 ^ Qlog2_floor a <= a.
Proof.
  intros Ha. unfold Qlog2_floor.
  destruct (Qle_bool (2 ^ (Z.log2 (Qnum a) - Z.log2 (Z.pos (Qden a))))%Q a) eqn:E;
    [apply Qle_bool_iff, E|].
  destruct a as [p q]. cbn [Qnum Qden] in *.
  assert (Hp : (0 < p)%Z) by (unfold Qlt in Ha; simpl in Ha; lia).
  destruct (Z.log2_spec p Hp) as [P1 P2].
  destruct (Z.log2_spec (Z.pos q) eq_refl) as [Q1 Q2].
  pose proof (Z.log2_nonneg p). pose proof (Z.log2_nonneg (Z.pos q)).
  set (lp := Z.log2 p) in *. set (lq := Z.log2 (Z.pos q)) in *.
  replace (lp - lq - 1)%Z with (lp - (lq + 1))%Z by ring.
  rewrite Qpower_minus by discriminate.
  rewrite (pow2_Z lp), (pow2_Z (lq + 1)) by lia.
  rewrite Z.add_1_r.
  assert (T : (0 < 2 ^ Z.succ lq)%Z) by (apply Z.pow_pos_nonneg; lia).
  apply Qle_shift_div_r; [unfold Qlt; simpl; lia|].
  set (X := (2 ^ lp)%Z) in *. set (Y := (2 ^ Z.succ lq)%Z) in *. clearbody X Y.
  unfold Qle, Qmult, inject_Z; simpl. nia.
Qed.

Lemma float_of_Q_pos (x : Q) : 0 < x ->
  float_of_Q x = inject_Z (round_half_even (x / 2 ^ float_exp x)) * 2 ^ float_exp x.
Proof.
  intros H. destruct x as [[|p|p] q]; try (unfold Qlt in H; simpl in H; lia).
  reflexivity.
Qed.

Lemma float_of_Q_zero (x : Q) : x == 0 -> float_of_Q x = 0.
Proof. intros H. unfold float_of_Q. apply Qeq_bool_iff in H. rewrite H. reflexivity. Qed.

Lemma pow2_pos (e : Z) : 0 < 2 ^ e.
Proof. apply Qpower_0_lt. reflexivity. Qed.

Lemma float_exp_le (a : Q) (K : Z) :
  0 < a -> a < 2 ^ (K + 53) -> (-1074 <= K)%Z -> (float_exp a <= K)%Z.
Proof.
  intros Ha HK Hm. pose proof (Qlog2_floor_le a Ha) as L.
  assert (Lt : (Qlog2_floor a < K + 53)%Z).
  { apply (Qpower_lt_compat_l_inv 2); [|reflexivity]. exact (Qle_lt_trans _ _ _ L HK). }
  unfold float_exp. lia.
Qed.

(** Rounding onto the grid of [2 ^ e]: values on a coarser grid are kept,
    and rounding is monotone towards them. *)
Lemma pow2_split (K e : Z) : (e <= K)%Z -> 2 ^ K == inject_Z (2 ^ (K - e)) * 2 ^ e.
Proof.
  intros H. rewrite <- pow2_Z by lia. rewrite <- Qpower_plus by discriminate.
  replace (K - e + e)%Z with K by ring. reflexivity.
Qed.

Lemma float_grid_le (x : Q) (M K : Z) :
  0 < x -> (float_exp x <= K)%Z -> x <= inject_Z M * 2 ^ K ->
  float_of_Q x <= inject_Z M * 2 ^ K.
Proof.
  intros Hx HK H. rewrite float_of_Q_pos by exact Hx. set (e := float_exp x) in *.
  pose proof (pow2_pos e) as Pe.
  rewrite (pow2_split K e HK), Qmult_assoc, <- inject_Z_mult in *.
  apply Qmult_le_compat_r; [|apply Qlt_le_weak, Pe].
  rewrite <- Zle_Qle. rewrite <- (rhe_int (M * 2 ^ (K - e))). apply rhe_mono.
  apply Qle_shift_div_r; [exact Pe|exact H].
Qed.

Lemma float_grid_ge (x : Q) (M K : Z) :
  0 < x -> (float_exp x <= K)%Z -> inject_Z M * 2 ^ K <= x ->
  inject_Z M * 2 ^ K <= float_of_Q x.
Proof.
  intros Hx HK H. rewrite float_of_Q_pos by exact Hx. set (e := float_exp x) in *.
  pose proof (pow2_pos e) as Pe.
  rewrite (pow2_split K e HK), Qmult_assoc, <- inject_Z_mult in *.
  apply Qmult_le_compat_r; [|apply Qlt_le_weak, Pe].
  rewrite <- Zle_Qle. rewrite <- (rhe_int (M * 2 ^ (K - e))). apply rhe_mono.
  apply Qle_shift_div_l; [exact Pe|exact H].
Qed.

Lemma float_exact (x : Q) (M K : Z) :
  0 < x -> (float_exp x <= K)%Z -> x == inject_Z M * 2 ^ K -> float_of_Q x == x.
Proof.
  intros Hx HK H. apply Qle_antisym.
  - rewrite H at 2. apply float_grid_le; [exact Hx|exact HK|rewrite H; apply Qle_refl].
  - rewrite H at 1. apply float_grid_ge; [exact Hx|exact HK|rewrite H; apply Qle_refl].
Qed.

Lemma float_error (x : Q) (K : Z) :
  0 < x -> (float_exp x <= K)%Z ->
  x - (1 # 2) * 2 ^ K <= float_of_Q x <= x + (1 # 2) * 2 ^ K.
Proof.
  intros Hx HK. rewrite float_of_Q_pos by exact Hx. set (e := float_exp x) in *.
  pose proof (pow2_pos e) as Pe.
  assert (Le : 2 ^ e <= 2 ^ K) by (apply Qpower_le_compat_l; [exact HK|discriminate]).
  pose proof (rhe_near (x / 2 ^ e)) as [N1 N2].
  set (r := round_half_even (x / 2 ^ e)) in *.
  assert (Ex : x == x / 2 ^ e * 2 ^ e) by (field; intros E; rewrite E in Pe; discriminate).
  split.
  - apply (Qle_trans _ (x - (1 # 2) * 2 ^ e)).
    + apply Qplus_le_r, Qopp_le_compat, Qmult_le_l; [reflexivity|exact Le].
    + rewrite Ex at 1.
      setoid_replace (x / 2 ^ e * 2 ^ e - (1 # 2) * 2 ^ e) with ((x / 2 ^ e - (1 # 2)) * 2 ^ e) by ring.
      apply Qmult_le_compat_r; [|apply Qlt_le_weak, Pe].
      apply (Qplus_le_l _ _ (1 # 2)). ring_simplify. exact N2.
  - apply (Qle_trans _ (x + (1 # 2) * 2 ^ e)).
    + rewrite Ex at 1.
      setoid_replace (x / 2 ^ e * 2 ^ e + (1 # 2) * 2 ^ e) with ((x / 2 ^ e + (1 # 2)) * 2 ^ e) by ring.
      apply Qmult_le_compat_r; [|apply Qlt_le_weak, Pe].
      apply (Qplus_le_l _ _ (- (1 # 2))). ring_simplify. exact N1.
    + apply Qplus_le_r, Qmult_le_l; [reflexivity|exact Le].
Qed.

Lemma float_nonneg (x : Q) : 0 <= x -> 0 <= float_of_Q x.
Proof.
  intros H. destruct (Qeq_dec x 0) as [E|E]; [rewrite float_of_Q_zero by exact E; apply Qle_refl|].
  assert (Hx : 0 < x) by (apply Qle_lt_or_eq in H; destruct H as [H|H]; [exact H|symmetry in H; contradiction]).
  setoid_replace 0 with (inject_Z 0 * 2 ^ float_exp x) by ring.
  apply float_grid_ge; [exact Hx|lia|]. ring_simplify. exact H.
Qed.

Lemma float_int (x : Q) (n : Z) : x == inject_Z n -> (0 <= n < 2 ^ 53)%Z -> float_of_Q x == inject_Z n.
Proof.
  intros E Hn. destruct (Z.eq_dec n 0) as [->|Nz].
  - rewrite float_of_Q_zero by exact E. reflexivity.
  - assert (Hx : 0 < x) by (rewrite E; unfold Qlt; simpl; lia).
    rewrite <- E. apply (float_exact x n 0 Hx).
    + apply float_exp_le; [exact Hx| |lia]. rewrite E. simpl Z.add.
      rewrite pow2_Z by lia. rewrite <- Zlt_Qlt. lia.
    + rewrite E. simpl. ring.
Qed.



Lemma Qlog2_floor_lt (a : Q) : 0 < a -> a < 2 ^ (Qlog2_floor a + 1).
Proof.
  intros Ha. unfold Qlog2_floor.
  destruct (Qle_bool (2 ^ (Z.log2 (Qnum a) - Z.log2 (Z.pos (Qden a))))%Q a) eqn:E.
  - destruct a as [p q]. cbn [Qnum Qden] in *.
    assert (Hp : (0 < p)%Z) by (unfold Qlt in Ha; simpl in Ha; lia).
    destruct (Z.log2_spec p Hp) as [P1 P2].
    destruct (Z.log2_spec (Z.pos q) eq_refl) as [Q1 Q2].
    pose proof (Z.log2_nonneg p). pose proof (Z.log2_nonneg (Z.pos q)).
    set (lp := Z.log2 p) in *. set (lq := Z.log2 (Z.pos q)) in *.
    replace (lp - lq + 1)%Z with (Z.succ lp - lq)%Z by ring.
    rewrite Qpower_minus by discriminate.
    rewrite (pow2_Z (Z.succ lp)), (pow2_Z lq) by lia.
    assert (T : (0 < 2 ^ lq)%Z) by (apply Z.pow_pos_nonneg; lia).
    apply Qlt_shift_div_l; [unfold Qlt; simpl; lia|].
    set (X := (2 ^ Z.succ lp)%Z) in *. set (Y := (2 ^ lq)%Z) in *. clearbody X Y.
    unfold Qlt, Qmult, inject_Z; simpl. nia.
  - replace (Z.log2 (Qnum a) - Z.log2 (Z.pos (Qden a)) - 1 + 1)%Z
      with (Z.log2 (Qnum a) - Z.log2 (Z.pos (Qden a)))%Z by ring.
    apply Qnot_le_lt. intros H. apply Qle_bool_iff in H. congruence.
Qed.

Lemma Qlog2_floor_mono (a b : Q) : 0 < a -> a <= b -> (Qlog2_floor a <= Qlog2_floor b)%Z.
Proof.
  intros Ha H. pose proof (Qlog2_floor_le a Ha) as A.
  pose proof (Qlog2_floor_lt b (Qlt_le_trans _ _ _ Ha H)) as B.
  assert (L : (Qlog2_floor a < Qlog2_floor b + 1)%Z).
  { apply (Qpower_lt_compat_l_inv 2); [|reflexivity]. eapply Qle_lt_trans; [exact A|].
    eapply Qle_lt_trans; [exact H|exact B]. }
  lia.
Qed.

(** Rounding to binary64 is monotone. *)
Lemma float_mono (a b : Q) : 0 < a -> a <= b -> float_of_Q a <= float_of_Q b.
Proof.
  intros Ha H. assert (Hb : 0 < b) by (eapply Qlt_le_trans; eassumption).
  pose proof (Qlog2_floor_mono a b Ha H) as Lab.
  pose proof (Qlog2_floor_lt a Ha) as Au. pose proof (Qlog2_floor_le b Hb) as Bl.
  destruct (Z.eq_dec (float_exp a) (float_exp b)) as [E|Ne].
  - rewrite !float_of_Q_pos by assumption. rewrite E.
    pose proof (pow2_pos (float_exp b)) as P.
    apply Qmult_le_compat_r; [|apply Qlt_le_weak, P].
    rewrite <- Zle_Qle. apply rhe_mono. apply Qmult_le_compat_r; [exact H|].
    apply Qlt_le_weak, Qinv_lt_0_compat, P.
  - assert (Lt : (float_exp a < float_exp b)%Z) by (unfold float_exp in *; lia).
    assert (Eb : float_exp b = (Qlog2_floor b - 52)%Z) by (unfold float_exp in *; lia).
    apply (Qle_trans _ (inject_Z 1 * 2 ^ (float_exp a + 53))).
    + apply float_grid_le; [exact Ha|lia|]. rewrite Qmult_1_l.
      eapply Qlt_le_weak, Qlt_le_trans; [exact Au|].
      apply Qpower_le_compat_l; [unfold float_exp; lia|discriminate].
    + apply (Qle_trans _ (inject_Z 1 * 2 ^ (float_exp b + 52))).
      * rewrite !Qmult_1_l. apply Qpower_le_compat_l; [lia|discriminate].
      * apply float_grid_ge; [exact Hb|lia|]. rewrite Qmult_1_l.
        replace (float_exp b + 52)%Z with (Qlog2_floor b) by lia. exact Bl.
Qed.

(** Above the subnormal range the rounding error is at most 2^-53 of the
    value. *)
Lemma float_rel (y : Q) : 2 ^ (-1022) <= y -> float_of_Q y <= y + 2 ^ (-53) * y.
Proof.
  intros H. assert (Hy : 0 < y) by (eapply Qlt_le_trans; [apply pow2_pos|exact H]).
  pose proof (Qlog2_floor_le y Hy) as L. pose proof (Qlog2_floor_lt y Hy) as U.
  assert (Ll : (-1022 <= Qlog2_floor y)%Z).
  { assert (-1022 < Qlog2_floor y + 1)%Z; [|lia].
    apply (Qpower_lt_compat_l_inv 2); [|reflexivity]. eapply Qle_lt_trans; eassumption. }
  assert (Ee : float_exp y = (Qlog2_floor y - 52)%Z) by (unfold float_exp; lia).
  destruct (float_error y (float_exp y) Hy (Z.le_refl _)) as [_ E]. rewrite Ee in E.
  eapply Qle_trans; [exact E|]. apply Qplus_le_r.
  replace (Qlog2_floor y - 52)%Z with (Qlog2_floor y + (-52))%Z by ring.
  rewrite Qpower_plus by discriminate.
  setoid_replace ((1 # 2) * (2 ^ Qlog2_floor y * 2 ^ (-52))) with (2 ^ (-53) * 2 ^ Qlog2_floor y)
    by (setoid_replace (2 ^ (-53)) with ((1 # 2) * 2 ^ (-52)) by reflexivity; ring).
  apply Qmult_le_l; [reflexivity|exact L].
Qed.

Lemma float_le_100 (x : Q) : 0 <= x -> x <= 100 -> 0 <= float_of_Q x <= 100.
Proof.
  intros H0 H1. split; [apply float_nonneg, H0|].
  destruct (Qeq_dec x 0) as [E|E]; [rewrite float_of_Q_zero by exact E; discriminate|].
  assert (Hx : 0 < x) by (apply Qle_lt_or_eq in H0; destruct H0 as [H0|H0]; [exact H0|symmetry in H0; contradiction]).
  setoid_replace 100 with (inject_Z (100 * 2 ^ 46) * 2 ^ (-46)) by (unfold Qeq; reflexivity).
  apply float_grid_le; [exact Hx| |].
  - apply float_exp_le; [exact Hx| |lia]. eapply Qle_lt_trans; [exact H1|reflexivity].
  - eapply Qle_trans; [exact H1|]. unfold Qle; reflexivity.
Qed.

Lemma pct_bounds (b t : nat) : (b <= t)%nat -> (1 <= t)%nat ->
  0 <= round_float (pct b t) 2 <= 100.
Proof.
  intros Hb Ht. unfold pct.
  set (A := float_of_Q (inject_Z (Z.of_nat b))).
  set (B := float_of_Q (inject_Z (Z.of_nat t))).
  assert (B1 : 1 <= B).
  { unfold B. rewrite <- (float_int 1 1) by (reflexivity || lia).
    apply float_mono; [reflexivity|]. unfold Qle; simpl; lia. }
  assert (A0 : 0 <= A) by (apply float_nonneg; unfold Qle; simpl; lia).
  assert (AB : A <= B).
  { destruct (Nat.eq_dec b 0) as [E|E].
    - unfold A. rewrite E, float_of_Q_zero by reflexivity. lra.
    - apply float_mono; [unfold Qlt; simpl; lia|]. unfold Qle; simpl; lia. }
  set (C := float_of_Q (100 * A)).
  assert (C0 : 0 <= C) by (apply float_nonneg; lra).
  assert (CB : C <= 100 * B + 2 ^ (-53) * (100 * B)).
  { destruct (Qeq_dec A 0) as [E|E].
    - unfold C. rewrite float_of_Q_zero by (rewrite E; reflexivity).
      assert (0 <= 2 ^ (-53)) by discriminate. nra.
    - apply (Qle_trans _ (float_of_Q (100 * B))).
      + apply float_mono; [|lra]. apply Qle_lt_or_eq in A0.
        destruct A0 as [A0|A0]; [lra|symmetry in A0; contradiction].
      + apply float_rel. assert (2 ^ (-1022) <= 1) by discriminate. lra. }
  set (x := C / B).
  assert (X0 : 0 <= x) by (apply Qle_shift_div_l; lra).
  assert (X1 : x <= 100 + 100 * 2 ^ (-53)).
  { apply Qle_shift_div_r; [lra|]. nra. }
  set (d := float_of_Q x).
  assert (D : 0 <= d <= 100 + (1 # 400)).
  { split; [apply float_nonneg, X0|].
    destruct (Qeq_dec x 0) as [E|E]; [unfold d; rewrite float_of_Q_zero by exact E; discriminate|].
    assert (Hx : 0 < x) by (apply Qle_lt_or_eq in X0; destruct X0 as [X0|X0]; [exact X0|symmetry in X0; contradiction]).
    assert (He : (float_exp x <= -46)%Z).
    { apply float_exp_le; [exact Hx| |lia]. eapply Qle_lt_trans; [exact X1|reflexivity]. }
    destruct (float_error x (-46) Hx He) as [_ U]. fold d in U.
    eapply Qle_trans; [exact U|]. eapply Qle_trans; [apply Qplus_le_l, X1|]. apply Qle_bool_imp_le; vm_compute; reflexivity. }
  unfold round_float, round. change (inject_Z (10 ^ Z.of_nat 2)) with 100.
  set (k := round_half_even (d * 100)).
  assert (K0 : (0 <= k)%Z).
  { rewrite <- (rhe_int 0). apply rhe_mono. change (inject_Z 0) with 0. lra. }
  assert (K1 : (k <= 10000)%Z).
  { rewrite <- (rhe_unique (10000 + (1 # 4)) 10000) by reflexivity. apply rhe_mono. lra. }
  apply float_le_100.
  - apply Qle_shift_div_l; [reflexivity|]. rewrite Qmult_0_l. change 0 with (inject_Z 0).
    rewrite <- Zle_Qle. exact K0.
  - apply Qle_shift_div_r; [reflexivity|]. change (100 * 100) with (inject_Z 10000).
    rewrite <- Zle_Qle. exact K1.
Qed.

Lemma round_float_zero (x : Q) (n : nat) : x == 0 -> round_float x n = 0.
Proof.
  intros H. unfold round_float. apply float_of_Q_zero. unfold round.
  rewrite (rhe_comp _ 0) by (rewrite H; ring). unfold Qdiv. apply Qmult_0_l.
Qed.

End FloatFacts.

Module BotFacts.
Import Data BotFilter BotSpec.

Lemma annotate_fields (cfg : Config) (rows : list Row) (o : OutRow) :
  In o (annotate cfg rows) ->
  o_posts_per_day o = Some (BotFilter.posts_per_day (group rows (user_id (orow o))))
  /\ o_duplicate_text_ratio o = Some (BotFilter.duplicate_text_ratio (group rows (user_id (orow o))))
  /\ is_bot o = gt_opt (o_posts_per_day o) (threshold_ppd cfg)
                || gt_opt (o_duplicate_text_ratio o) (threshold_dup cfg)
  /\ trust_score o = (if is_bot o then 1 # 5 else 1).
Proof.
  unfold annotate. intros H. apply in_map_iff in H. destruct H as [r [<- Hr]]. simpl.
  rewrite (metrics_lookup rows r Hr). simpl. auto.
Qed.

Lemma flagged_records (cfg : Config) (rows rows' : list Row) (u : string) :
  records_of rows' u = records_of rows u -> flagged cfg rows' u = flagged cfg rows u.
Proof.
  intros E. unfold flagged, BotSpec.posts_per_day, n_active_days,
    BotSpec.duplicate_text_ratio, n_distinct_texts. rewrite E. reflexivity.
Qed.

Lemma records_of_kept (f : string -> bool) (rows : list Row) (u : string) :
  f u = false ->
  records_of (filter (fun r => negb (f (user_id r))) rows) u = records_of rows u.
Proof.
  intros Hu. unfold records_of. induction rows as [|r rs IH]; simpl; [reflexivity|].
  destruct (f (user_id r)) eqn:Ef; simpl.
  - destruct (String.eqb (user_id r) u) eqn:Eu; [|exact IH].
    apply String.eqb_eq in Eu. congruence.
  - destruct (String.eqb (user_id r) u); simpl; rewrite IH; reflexivity.
Qed.

Lemma filter_not_bot (cfg : Config) (rows : list Row) (l : list OutRow) :
  (forall o, In o l -> is_bot o = flagged cfg rows (user_id (orow o))) ->
  map orow (filter (fun o => negb (is_bot o)) l)
  = filter (fun r => negb (flagged cfg rows (user_id r))) (map orow l).
Proof.
  induction l as [|o l IH]; intros H; simpl; [reflexivity|].
  rewrite (H o (or_introl eq_refl)).
  destruct (flagged cfg rows (user_id (orow o))); simpl; rewrite IH; auto;
    intros o' Ho'; apply H; right; exact Ho'.
Qed.

Lemma apply_bot_filter_ok (df : DataFrame) (cfg : Config) cleaned (st : Stats) :
  apply_bot_filter df cfg = Ok (cleaned, st) ->
  missing_cols df = []
  /\ cleaned = filter (fun o => negb (is_bot o)) (annotate cfg (rows df))
  /\ total_users st = Py.nunique string_dec (map user_id (rows df))
  /\ bots_detected st
     = List.length (filter (flagged cfg (rows df)) (Py.uniq string_dec (map user_id (rows df))))
  /\ percent_removed st
     = Py.round_float (if Nat.eqb (total_users st) 0 then 0
                       else FloatFacts.pct (bots_detected st) (total_users st)) 2.
Proof.
  unfold apply_bot_filter. destruct (missing_cols df) eqn:M; [|discriminate].
  intros H. injection H as <- <-. simpl. rewrite users_count, bots_count. auto.
Qed.

Lemma cleaned_spec (df : DataFrame) (cfg : Config) cleaned (st : Stats) :
  apply_bot_filter df cfg = Ok (cleaned, st) ->
  map orow cleaned = filter (fun r => negb (flagged cfg (rows df) (user_id r))) (rows df)
  /\ (forall o, In o cleaned -> In o (annotate cfg (rows df)) /\ is_bot o = false).
Proof.
  intros H. destruct (apply_bot_filter_ok _ _ _ _ H) as [_ [-> _]]. split.
  - rewrite (filter_not_bot cfg (rows df)), annotate_rows; [reflexivity|].
    intros o Ho. apply annotate_In, Ho.
  - intros o Ho. apply filter_In in Ho. destruct Ho as [Ho Hb].
    split; [exact Ho|]. destruct (is_bot o); [discriminate|reflexivity].
Qed.

Lemma missing_cols_more (df df' : DataFrame) :
  missing_cols df = [] -> (forall c, has_col c df = true -> has_col c df' = true) ->
  missing_cols df' = [].
Proof.
  unfold missing_cols. intros M H.
  assert (A : forall c, In c required_cols -> has_col c df = true).
  { intros c Hc. destruct (has_col c df) eqn:E; [reflexivity|].
    assert (Hin : In c (filter (fun c => negb (has_col c df)) required_cols))
      by (apply filter_In; rewrite E; auto).
    rewrite M in Hin. contradiction. }
  induction required_cols as [|c cs IH]; simpl; [reflexivity|].
  rewrite (H c (A c (or_introl eq_refl))). simpl. apply IH.
  - simpl in M. destruct (has_col c df); [exact M|discriminate].
  - intros c' Hc'. apply A. right. exact Hc'.
Qed.

Lemma nunique_filter_users (f : string -> bool) (rows : list Row) :
  Py.nunique string_dec (map user_id (filter (fun r => negb (f (user_id r))) rows))
  = (Py.nunique string_dec (map user_id rows)
     - List.length (filter f (Py.uniq string_dec (map user_id rows))))%nat.
Proof.
  pose proof (filter_length f (Py.uniq string_dec (map user_id rows))) as L.
  assert (E : Py.nunique string_dec (map user_id (filter (fun r => negb (f (user_id r))) rows))
              = List.length (filter (fun x => negb (f x)) (Py.uniq string_dec (map user_id rows)))).
  { apply NoDup_same_length; [apply Py.uniq_NoDup|apply NoDup_filter, Py.uniq_NoDup|].
    intros x. rewrite Py.uniq_In, filter_In, Py.uniq_In, !in_map_iff. split.
    - intros [r [<- Hr]]. apply filter_In in Hr. destruct Hr as [Hr Hf].
      split; [exists r; auto|exact Hf].
    - intros [[r [<- Hr]] Hf]. exists r. split; [reflexivity|]. apply filter_In. auto. }
  rewrite E. unfold Py.nunique. lia.
Qed.

Lemma nunique_le_length {A} (dec : forall x y : A, {x = y} + {x <> y}) (l : list A) :
  (Py.nunique dec l <= List.length l)%nat.
Proof.
  unfold Py.nunique. apply NoDup_incl_length; [apply Py.uniq_NoDup|].
  intros x Hx. apply Py.uniq_In in Hx. exact Hx.
Qed.

Lemma nunique_zero {A} (dec : forall x y : A, {x = y} + {x <> y}) (l : list A) :
  Py.nunique dec l = 0%nat <-> l = [].
Proof.
  split; [|intros ->; reflexivity].
  unfold Py.nunique. destruct l as [|x r]; [reflexivity|]. intros H.
  destruct (Py.uniq dec (x :: r)) eqn:U; [|discriminate].
  exfalso. assert (Hx : In x (Py.uniq dec (x :: r))) by (apply Py.uniq_In; left; reflexivity).
  rewrite U in Hx. exact Hx.
Qed.

Lemma dropna_nil {B} (l : list (option B)) :
  dropna l = [] <-> forall x, In x l -> x = None.
Proof.
  induction l as [|[y|] r IH]; simpl; [split; [contradiction|reflexivity]|..].
  - split; [discriminate|]. intros H. specialize (H (Some y) (or_introl eq_refl)). discriminate.
  - rewrite IH. split; [intros H x [<-|Hx]; auto|intros H x Hx; apply H; auto].
Qed.

Lemma dropna_length {B} (l : list (option B)) : (List.length (dropna l) <= List.length l)%nat.
Proof. induction l as [|[y|] r IH]; simpl; lia. Qed.

Lemma div_bounds (T A : Z) :
  (1 <= A <= T)%Z -> 1 <= inject_Z T / inject_Z A <= inject_Z T.
Proof.
  intros H. assert (Ap : 0 < inject_Z A) by (change 0 with (inject_Z 0); rewrite <- Zlt_Qlt; lia).
  split.
  - apply Qle_shift_div_l; [exact Ap|]. rewrite Qmult_1_l. rewrite <- Zle_Qle. lia.
  - apply Qle_shift_div_r; [exact Ap|]. rewrite <- inject_Z_mult, <- Zle_Qle. nia.
Qed.

Lemma ratio_bounds (U T : Z) :
  (0 <= U <= T)%Z -> (1 <= T)%Z ->
  0 <= 1 - inject_Z U / inject_Z T <= 1 /\ (1 - inject_Z U / inject_Z T == 1 <-> U = 0%Z).
Proof.
  intros H HT. assert (Tp : 0 < inject_Z T) by (change 0 with (inject_Z 0); rewrite <- Zlt_Qlt; lia).
  assert (B0 : 0 <= inject_Z U / inject_Z T).
  { apply Qle_shift_div_l; [exact Tp|]. rewrite Qmult_0_l. change 0 with (inject_Z 0).
    rewrite <- Zle_Qle. lia. }
  assert (B1 : inject_Z U / inject_Z T <= 1).
  { apply Qle_shift_div_r; [exact Tp|]. rewrite Qmult_1_l. rewrite <- Zle_Qle. lia. }
  split; [split|].
  - apply (Qplus_le_l _ _ (inject_Z U / inject_Z T)). ring_simplify. exact B1.
  - apply (Qplus_le_l _ _ (inject_Z U / inject_Z T - 1)). ring_simplify. exact B0.
  - split.
    + intros E. assert (E' : inject_Z U / inject_Z T == 0).
      { setoid_replace (inject_Z U / inject_Z T) with (1 - (1 - inject_Z U / inject_Z T)) by ring.
        rewrite E. ring. }
      assert (E'' : inject_Z U == 0).
      { setoid_replace (inject_Z U) with (inject_Z U / inject_Z T * inject_Z T).
        - rewrite E'. ring.
        - field. intros Z0. rewrite Z0 in Tp. apply (Qlt_irrefl 0 Tp). }
      apply (proj1 (inject_Z_injective U 0)). exact E''.
    + intros ->. unfold Qdiv. change (inject_Z 0) with 0. rewrite Qmult_0_l. ring.
Qed.

End BotFacts.

Module GraphExact.
Import Data Graph GraphFacts.

(** Symmetric weight of a counter between two skills. *)
Definition wt (c : Counter) (n m : string) : nat := (lookupC c (n, m) + lookupC c (m, n))%nat.

Definition wopt (k : nat) : option nat := if Nat.eqb k 0 then None else Some k.

Lemma lookupC_notin (c : Counter) (k : string * string) :
  ~ In k (map fst c) -> lookupC c k = 0%nat.
Proof.
  induction c as [|[k0 n] r IH]; simpl; [reflexivity|].
  intros H. destruct (key_dec k k0) as [->|Hne]; [tauto|]. apply IH. tauto.
Qed.

Lemma lookupC_app_fresh (p : Counter) (k0 k : string * string) (w : nat) :
  ~ In k0 (map fst p) ->
  lookupC (p ++ [(k0, w)]) k = (lookupC p k + if key_dec k k0 then w else 0)%nat.
Proof.
  induction p as [|[k1 n] r IH]; simpl; intros H.
  - destruct (key_dec k k0); lia.
  - destruct (key_dec k k1) as [->|Hne].
    + destruct (key_dec k1 k0) as [->|]; [tauto|lia].
    + apply IH. tauto.
Qed.

Lemma assoc_set_nbr nbrs (v m : string) (w : nat) :
  assoc m (set_nbr nbrs v w) = if String.eqb m v then Some w else assoc m nbrs.
Proof.
  induction nbrs as [|[v' w'] r IH]; simpl.
  - destruct (String.eqb m v); reflexivity.
  - destruct (String.eqb v v') eqn:E; simpl.
    + apply String.eqb_eq in E; subst. destruct (String.eqb m v'); reflexivity.
    + rewrite IH. destruct (String.eqb m v') eqn:E1; [|reflexivity].
      apply String.eqb_eq in E1; subst. destruct (String.eqb v' v) eqn:E2; [|reflexivity].
      apply String.eqb_eq in E2; subst. rewrite String.eqb_refl in E. discriminate.
Qed.

Lemma keys_set_nbr nbrs (v x : string) (w : nat) :
  In x (map fst (set_nbr nbrs v w)) <-> In x (map fst nbrs) \/ x = v.
Proof.
  induction nbrs as [|[v' w'] r IH]; simpl; [intuition (subst; auto)|].
  destruct (String.eqb v v') eqn:E; simpl.
  - apply String.eqb_eq in E; subst. split; [tauto|]. intros [[H|H]|H]; auto.
  - rewrite IH. intuition (subst; auto).
Qed.

Lemma set_nbr_NoDup nbrs (v : string) (w : nat) :
  NoDup (map fst nbrs) -> NoDup (map fst (set_nbr nbrs v w)).
Proof.
  induction nbrs as [|[v' w'] r IH]; simpl; intros Hd.
  - repeat constructor. simpl. tauto.
  - inversion Hd as [|? ? Hn Hr]; subst.
    destruct (String.eqb v v') eqn:E; simpl; constructor; auto.
    rewrite keys_set_nbr. intros [H|H]; [contradiction|subst].
    rewrite String.eqb_refl in E. discriminate.
Qed.

Lemma assoc_In_keys {B} (l : list (string * B)) (k : string) :
  assoc k l = None <-> ~ In k (map fst l).
Proof.
  induction l as [|[k' v] r IH]; simpl; [tauto|].
  destruct (String.eqb k k') eqn:E.
  - apply String.eqb_eq in E; subst. split; [discriminate|tauto].
  - rewrite IH. apply String.eqb_neq in E. split; [|tauto].
    intros H [H'|H']; [congruence|tauto].
Qed.

Lemma keys_add_node (g : Adj) (u x : string) :
  In x (map fst (add_node g u)) <-> In x (map fst g) \/ x = u.
Proof.
  unfold add_node. destruct (existsb (fun e => String.eqb u (fst e)) g) eqn:E.
  - split; [tauto|]. intros [H| ->]; [exact H|].
    apply existsb_exists in E. destruct E as [[n nb] [Hn En]].
    apply String.eqb_eq in En. simpl in En. subst. apply (in_map fst _ _ Hn).
  - rewrite map_app, in_app_iff. simpl. split; intros [H|H]; intuition.
Qed.

Lemma add_node_NoDup (g : Adj) (u : string) :
  NoDup (map fst g) -> NoDup (map fst (add_node g u)).
Proof.
  unfold add_node. destruct (existsb (fun e => String.eqb u (fst e)) g) eqn:E; [tauto|].
  intros Hd. rewrite map_app. apply NoDup_app; [exact Hd|repeat constructor; simpl; tauto|].
  intros x Hx [Hy|[]]. subst x.
  assert (Hc : existsb (fun e => String.eqb u (fst e)) g = true).
  { apply in_map_iff in Hx. destruct Hx as [[n nb] [En Hn]]. simpl in En. subst n.
    apply existsb_exists. exists (u, nb). split; [exact Hn|apply String.eqb_refl]. }
  congruence.
Qed.

Lemma add_node_In_iff (g : Adj) (u n : string) nbrs :
  In (n, nbrs) (add_node g u) -> In (n, nbrs) g \/ (n = u /\ nbrs = [] /\ ~ In u (map fst g)).
Proof.
  unfold add_node. destruct (existsb (fun e => String.eqb u (fst e)) g) eqn:E; [tauto|].
  rewrite in_app_iff. simpl. intros [H|[H|[]]]; [tauto|]. inversion H; subst. right.
  split; [reflexivity|]. split; [reflexivity|]. intros Hx.
  apply in_map_iff in Hx. destruct Hx as [[n0 nb] [En Hn]]. simpl in En. subst.
  assert (Hc : existsb (fun e => String.eqb n (fst e)) g = true).
  { apply existsb_exists. exists (n, nb). split; [exact Hn|apply String.eqb_refl]. }
  congruence.
Qed.

Lemma keys_set_adj (g : Adj) (u v : string) (w : nat) :
  map fst (set_adj g u v w) = map fst g.
Proof.
  induction g as [|[n nb] r IH]; simpl; [reflexivity|].
  destruct (String.eqb u n); simpl; [reflexivity|]. rewrite IH. reflexivity.
Qed.

Lemma set_adj_In_nd (g : Adj) (u v n : string) (w : nat) nbrs :
  NoDup (map fst g) -> In (n, nbrs) (set_adj g u v w) ->
  (n <> u /\ In (n, nbrs) g) \/ (n = u /\ exists nb0, In (u, nb0) g /\ nbrs = set_nbr nb0 v w).
Proof.
  induction g as [|[n0 nb0] r IH]; simpl; [contradiction|].
  intros Hd. inversion Hd as [|? ? Hn0 Hr]; subst.
  destruct (String.eqb u n0) eqn:E; simpl.
  - apply String.eqb_eq in E; subst. intros [H|H].
    + inversion H; subst. right. split; [reflexivity|]. exists nb0. auto.
    + left. split; [|auto]. intros ->. apply Hn0. apply (in_map fst _ _ H).
  - apply String.eqb_neq in E. intros [H|H].
    + inversion H; subst. left. auto.
    + destruct (IH Hr H) as [[H1 H2]|[H1 [nb [H2 H3]]]]; [left; auto|].
      right. split; [exact H1|]. exists nb. auto.
Qed.

Lemma In_assoc_nd {B} (l : list (string * B)) (k : string) (v : B) :
  NoDup (map fst l) -> In (k, v) l -> assoc k l = Some v.
Proof.
  induction l as [|[k' v'] r IH]; simpl; [contradiction|].
  intros Hd [E|H]; inversion Hd as [|? ? Hn Hr]; subst.
  - inversion E; subst. rewrite String.eqb_refl. reflexivity.
  - destruct (String.eqb k k') eqn:E; [|apply IH; assumption].
    apply String.eqb_eq in E; subst. exfalso. apply Hn. apply (in_map fst _ _ H).
Qed.

(** The invariant of [graph_of_counts] after a prefix [p] of the counter. *)
Definition inv (p : Counter) (g : Adj) : Prop :=
  NoDup (map fst g)
  /\ (forall n, In n (map fst g) <-> exists m, (0 < wt p n m)%nat)
  /\ (forall n nbrs, In (n, nbrs) g ->
        NoDup (map fst nbrs) /\ forall m, assoc m nbrs = wopt (wt p n m)).

Lemma wt_app (p : Counter) (a b n m : string) (w : nat) :
  a <> b -> ~ In (a, b) (map fst p) ->
  wt (p ++ [((a, b), w)]) n m
  = (wt p n m + if String.eqb n a && String.eqb m b || String.eqb n b && String.eqb m a
                then w else 0)%nat.
Proof.
  intros Hab Hp. unfold wt. rewrite !lookupC_app_fresh by exact Hp.
  destruct (key_dec (n, m) (a, b)) as [E|E]; destruct (key_dec (m, n) (a, b)) as [E'|E'].
  - inversion E; inversion E'; subst. congruence.
  - inversion E; subst. rewrite !String.eqb_refl. simpl. lia.
  - inversion E'; subst. rewrite !String.eqb_refl. simpl.
    destruct (String.eqb b a) eqn:X; [apply String.eqb_eq in X; congruence|]. simpl. lia.
  - destruct (String.eqb n a) eqn:X1, (String.eqb m b) eqn:X2; simpl;
      try (apply String.eqb_eq in X1; apply String.eqb_eq in X2; subst; congruence);
      (destruct (String.eqb n b) eqn:X3, (String.eqb m a) eqn:X4; simpl;
       try (apply String.eqb_eq in X3; apply String.eqb_eq in X4; subst; congruence); lia).
Qed.

Lemma add_edge_inv (p : Counter) (g : Adj) (a b : string) (w : nat) :
  a <> b -> (1 <= w)%nat -> ~ In (a, b) (map fst p) -> ~ In (b, a) (map fst p) ->
  inv p g -> inv (p ++ [((a, b), w)]) (add_edge g a b w).
Proof.
  intros Hab Hw Hp1 Hp2 [Hnd [Hnodes Hent]].
  assert (Wab : wt p a b = 0%nat).
  { unfold wt. rewrite !lookupC_notin by assumption. reflexivity. }
  assert (Wba : wt p b a = 0%nat).
  { unfold wt. rewrite !lookupC_notin by assumption. reflexivity. }
  set (g1 := add_node (add_node g a) b).
  assert (Nd1 : NoDup (map fst g1)) by (apply add_node_NoDup, add_node_NoDup, Hnd).
  set (g2 := set_adj g1 a b w).
  assert (Nd2 : NoDup (map fst g2)) by (unfold g2; rewrite keys_set_adj; exact Nd1).
  (* entries of g1 at a node [n] carry the old neighbourhood of [n] *)
  assert (E1 : forall n nb, In (n, nb) g1 ->
                 NoDup (map fst nb) /\ forall m, assoc m nb = wopt (wt p n m)).
  { intros n nb H. unfold g1 in H.
    apply add_node_In_iff in H. destruct H as [H|[-> [-> Hu]]].
    - apply add_node_In_iff in H. destruct H as [H|[-> [-> Hu]]]; [apply Hent, H|].
      split; [constructor|]. intros m. simpl. unfold wopt.
      destruct (Nat.eqb (wt p a m) 0) eqn:Z; [reflexivity|].
      exfalso. apply Hu. apply Hnodes. exists m. apply Nat.eqb_neq in Z. lia.
    - split; [constructor|]. intros m. simpl. unfold wopt.
      destruct (Nat.eqb (wt p b m) 0) eqn:Z; [reflexivity|].
      exfalso. apply Hu. apply keys_add_node. left. apply Hnodes. exists m.
      apply Nat.eqb_neq in Z. lia. }
  split; [|split].
  - unfold add_edge. rewrite keys_set_adj. exact Nd2.
  - intros n. unfold add_edge. rewrite !keys_set_adj. fold g1.
    unfold g1. rewrite !keys_add_node, Hnodes. split.
    + intros [[[m Hm]| ->]| ->].
      * exists m. rewrite wt_app by assumption. lia.
      * exists b. rewrite wt_app by assumption. rewrite !String.eqb_refl. simpl. lia.
      * exists a. rewrite wt_app by assumption. rewrite !String.eqb_refl, orb_true_r. lia.
    + intros [m Hm]. rewrite wt_app in Hm by assumption.
      destruct (String.eqb n a) eqn:X1; [apply String.eqb_eq in X1; tauto|].
      destruct (String.eqb n b) eqn:X2; [apply String.eqb_eq in X2; tauto|].
      simpl in Hm. left. left. exists m. lia.
  - intros n nbrs H. unfold add_edge in H. fold g1 g2 in H.
    apply set_adj_In_nd in H; [|exact Nd2].
    destruct H as [[Hnb H]|[-> [nb0 [H ->]]]].
    + unfold g2 in H. apply set_adj_In_nd in H; [|exact Nd1].
      destruct H as [[Hna H]|[-> [nb0 [H ->]]]].
      * destruct (E1 _ _ H) as [N A]. split; [exact N|]. intros m.
        rewrite wt_app by assumption.
        apply String.eqb_neq in Hna, Hnb. rewrite Hna, Hnb. simpl.
        rewrite Nat.add_0_r. apply A.
      * destruct (E1 _ _ H) as [N A]. split; [apply set_nbr_NoDup, N|]. intros m.
        rewrite assoc_set_nbr, wt_app by assumption. rewrite String.eqb_refl.
        destruct (String.eqb a b) eqn:X; [apply String.eqb_eq in X; congruence|].
        destruct (String.eqb m b) eqn:Xm; simpl.
        -- apply String.eqb_eq in Xm; subst. rewrite Wab. unfold wopt.
           destruct (Nat.eqb (0 + w) 0) eqn:Z; [apply Nat.eqb_eq in Z; lia|reflexivity].
        -- rewrite Nat.add_0_r. apply A.
    + unfold g2 in H. apply set_adj_In_nd in H; [|exact Nd1].
      destruct H as [[Hba H]|[E _]]; [|congruence].
      destruct (E1 _ _ H) as [N A]. split; [apply set_nbr_NoDup, N|]. intros m.
      rewrite assoc_set_nbr, wt_app by assumption.
      destruct (String.eqb b a) eqn:X; [apply String.eqb_eq in X; congruence|].
      rewrite String.eqb_refl. simpl.
      destruct (String.eqb m a) eqn:Xm; simpl.
      * apply String.eqb_eq in Xm; subst. rewrite Wba. unfold wopt.
        destruct (Nat.eqb (0 + w) 0) eqn:Z; [apply Nat.eqb_eq in Z; lia|reflexivity].
      * rewrite Nat.add_0_r. apply A.
Qed.

Lemma graph_of_counts_inv (c : Counter) :
  NoDup (map fst c) ->
  (forall a b w, In ((a, b), w) c -> a <> b /\ (1 <= w)%nat /\ ~ In (b, a) (map fst c)) ->
  inv c (graph_of_counts c).
Proof.
  intros Hnd Hc. unfold graph_of_counts.
  assert (G : forall l p g, p ++ l = c -> inv p g ->
            inv c (fold_left (fun g kw => add_edge g (fst (fst kw)) (snd (fst kw)) (snd kw)) l g)).
  { induction l as [|[[a b] w] r IH]; intros p g Hpl Hi; simpl.
    - rewrite app_nil_r in Hpl. subst. exact Hi.
    - apply (IH (p ++ [((a, b), w)])); [rewrite <- app_assoc; exact Hpl|].
      assert (Hin : In ((a, b), w) c) by (rewrite <- Hpl; apply in_or_app; simpl; auto).
      destruct (Hc _ _ _ Hin) as [Hab [Hw Hba]].
      rewrite <- Hpl in Hnd. rewrite map_app in Hnd. simpl in Hnd.
      apply add_edge_inv; try assumption.
      + intros H. clear -Hnd H.
        apply (NoDup_remove_2 _ _ _ Hnd). apply in_or_app. left. exact H.
      + intros H. apply Hba. rewrite <- Hpl. rewrite map_app. apply in_or_app. left. exact H. }
  apply (G c []); [reflexivity|].
  split; [constructor|]. split.
  - intros n. simpl. split; [tauto|]. intros [m Hm]. unfold wt in Hm. simpl in Hm. lia.
  - intros n nbrs [].
Qed.


Lemma str_lt_asym (a b : string) : str_lt a b -> ~ str_lt b a.
Proof. intros H1 H2. apply (str_lt_irrefl a). apply (str_lt_trans _ _ _ H1 H2). Qed.

Definition str_ltb (a b : string) : bool :=
  match String_as_OT.compare a b with Lt => true | _ => false end.

Lemma str_ltb_spec (a b : string) : str_ltb a b = true <-> str_lt a b.
Proof.
  unfold str_ltb. destruct (String_as_OT.compare_spec a b) as [E|L|L].
  - split; [discriminate|]. unfold String_as_OT.eq in E. subst. intros H.
    exfalso. apply (str_lt_irrefl b H).
  - tauto.
  - split; [discriminate|]. intros H. exfalso. apply (str_lt_asym _ _ H L).
Qed.

Lemma memk_pairs (t a b : string) :
  memk (a, b) (pairs_of t)
  = if str_ltb a b
    then existsb (String.eqb a) (parse_tags t) && existsb (String.eqb b) (parse_tags t)
    else false.
Proof.
  unfold memk. destruct (in_dec key_dec (a, b) (pairs_of t)) as [H|H];
    destruct (str_ltb a b) eqn:L; rewrite ?str_ltb_spec in L.
  - apply pairs_of_iff in H. destruct H as [Ha [Hb _]].
    symmetry. apply andb_true_iff. split; apply existsb_exists;
      [exists a | exists b]; split; auto; apply String.eqb_refl.
  - apply pairs_of_iff in H. destruct H as [_ [_ H]]. apply str_ltb_spec in H. congruence.
  - symmetry. apply not_true_iff_false. intros H'. apply H.
    apply andb_true_iff in H'. destruct H' as [Ha Hb].
    apply existsb_exists in Ha, Hb. destruct Ha as [x [Hx Ex]], Hb as [y [Hy Ey]].
    apply String.eqb_eq in Ex, Ey. subst. apply pairs_of_iff. auto.
  - reflexivity.
Qed.

Lemma lookup_pair_counts (rows : list Row) (a b : string) :
  lookupC (pair_counts (dropna (map skill_tags rows))) (a, b)
  = if str_ltb a b then cooccurrences rows a b else 0%nat.
Proof.
  unfold pair_counts. rewrite lookup_fold_counts. simpl.
  rewrite (filter_ext _ _ (fun t => memk_pairs t a b)).
  destruct (str_ltb a b).
  - rewrite filter_dropna_tags. reflexivity.
  - induction (dropna (map skill_tags rows)); simpl; auto.
Qed.

Lemma cooccurrences_sym (rows : list Row) (a b : string) :
  cooccurrences rows a b = cooccurrences rows b a.
Proof.
  unfold cooccurrences. f_equal. apply filter_ext. intros r.
  destruct (skill_tags r); [apply andb_comm|reflexivity].
Qed.

Lemma wt_pair_counts (rows : list Row) (n m : string) :
  wt (pair_counts (dropna (map skill_tags rows))) n m
  = if String.eqb n m then 0%nat else cooccurrences rows n m.
Proof.
  unfold wt. rewrite !lookup_pair_counts.
  destruct (String.eqb n m) eqn:E.
  - apply String.eqb_eq in E; subst.
    destruct (str_ltb m m) eqn:L; [apply str_ltb_spec in L; exfalso; apply (str_lt_irrefl m L)|]. reflexivity.
  - apply String.eqb_neq in E.
    destruct (str_ltb n m) eqn:L; destruct (str_ltb m n) eqn:L'.
    + apply str_ltb_spec in L, L'. exfalso. apply (str_lt_asym _ _ L L').
    + lia.
    + rewrite cooccurrences_sym. lia.
    + exfalso. destruct (String_as_OT.compare_spec n m) as [Q|Q|Q].
      * exact (E Q).
      * apply str_ltb_spec in Q. congruence.
      * apply str_ltb_spec in Q. congruence.
Qed.

Lemma pair_counts_shape (ts : list string) :
  NoDup (map fst (pair_counts ts))
  /\ forall a b w, In ((a, b), w) (pair_counts ts) ->
                   a <> b /\ (1 <= w)%nat /\ ~ In (b, a) (map fst (pair_counts ts)).
Proof.
  split; [apply (fold_counts_inv ts [] (NoDup_nil _))|].
  intros a b w H. destruct (pair_counts_item _ _ _ _ H) as [L [_ W]].
  split; [intros ->; apply (str_lt_irrefl b L)|]. split; [exact W|].
  intros Hk. apply in_map_iff in Hk. destruct Hk as [[[b' a'] w'] [Ek Hk]].
  simpl in Ek. inversion Ek; subst.
  destruct (pair_counts_item _ _ _ _ Hk) as [L' _]. apply (str_lt_asym _ _ L L').
Qed.

Lemma assoc_In {B} (l : list (string * B)) (k : string) (v : B) :
  assoc k l = Some v -> In (k, v) l.
Proof.
  induction l as [|[k' v'] r IH]; simpl; [discriminate|].
  destruct (String.eqb k k') eqn:E; [|auto].
  apply String.eqb_eq in E; subst. intros H; inversion H; auto.
Qed.

(** The adjacency [build_skill_graph] returns, described by co-occurrence. *)
Lemma graph_exact (rows : list Row) :
  let g := graph_of_counts (pair_counts (dropna (map skill_tags rows))) in
  NoDup (map fst g)
  /\ (forall n, In n (map fst g) <-> exists m, m <> n /\ (1 <= cooccurrences rows n m)%nat)
  /\ (forall n nbrs, In (n, nbrs) g ->
        NoDup (map fst nbrs)
        /\ forall m w, In (m, w) nbrs <->
                       m <> n /\ (1 <= cooccurrences rows n m)%nat /\ w = cooccurrences rows n m).
Proof.
  intros g. destruct (pair_counts_shape (dropna (map skill_tags rows))) as [Nd Sh].
  destruct (graph_of_counts_inv _ Nd Sh) as [Ng [Nodes Ent]]. fold g in Ng, Nodes, Ent.
  split; [exact Ng|]. split.
  - intros n. rewrite Nodes. split.
    + intros [m Hm]. rewrite wt_pair_counts in Hm. exists m.
      destruct (String.eqb n m) eqn:E; [lia|]. apply String.eqb_neq in E. split; [congruence|lia].
    + intros [m [Hne Hm]]. exists m. rewrite wt_pair_counts.
      destruct (String.eqb n m) eqn:E; [apply String.eqb_eq in E; congruence|lia].
  - intros n nbrs H. destruct (Ent n nbrs H) as [N A]. split; [exact N|].
    intros m w. split.
    + intros Hi. pose proof (In_assoc_nd _ _ _ N Hi) as Am. rewrite A in Am.
      rewrite wt_pair_counts in Am. unfold wopt in Am.
      destruct (String.eqb n m) eqn:E; [discriminate|]. apply String.eqb_neq in E.
      destruct (Nat.eqb (cooccurrences rows n m) 0) eqn:Z; [discriminate|].
      apply Nat.eqb_neq in Z. inversion Am. split; [congruence|]. split; [lia|reflexivity].
    + intros [Hne [Hc ->]]. apply assoc_In. rewrite A, wt_pair_counts. unfold wopt.
      destruct (String.eqb n m) eqn:E; [apply String.eqb_eq in E; congruence|].
      destruct (Nat.eqb (cooccurrences rows n m) 0) eqn:Z; [apply Nat.eqb_eq in Z; lia|reflexivity].
Qed.

(** [G.degree()] of a node: the number of distinct other skills it co-occurs with. *)
Lemma degree_exact (rows : list Row) (n : string) (nbrs : list (string * nat)) :
  In (n, nbrs) (graph_of_counts (pair_counts (dropna (map skill_tags rows)))) ->
  NoDup (map fst nbrs)
  /\ (forall m, In m (map fst nbrs) <-> m <> n /\ (1 <= cooccurrences rows n m)%nat)
  /\ degree_of n nbrs = List.length (map fst nbrs).
Proof.
  intros H. destruct (graph_exact rows) as [_ [_ Ent]].
  destruct (Ent n nbrs H) as [N A]. split; [exact N|].
  assert (K : forall m, In m (map fst nbrs) <-> m <> n /\ (1 <= cooccurrences rows n m)%nat).
  { intros m. split.
    - intros Hm. apply in_map_iff in Hm. destruct Hm as [[m' w] [Em Hm]]. simpl in Em. subst.
      apply A in Hm. tauto.
    - intros [Hne Hc]. apply (in_map fst _ (m, cooccurrences rows n m)). apply A. auto. }
  split; [exact K|]. unfold degree_of. rewrite length_map.
  destruct (existsb (fun e => String.eqb n (fst e)) nbrs) eqn:E; [|lia].
  apply existsb_exists in E. destruct E as [[m w] [Hm Em]]. apply String.eqb_eq in Em.
  simpl in Em. subst. apply A in Hm. tauto.
Qed.

(** ** [sorted(..., key=...)[:k]] *)

Section TopK.
Context {A : Type} (key : A -> nat).

Definition desc (x y : A) : Prop := (key y <= key x)%nat.

Lemma insert_desc_perm (x : A) (l : list A) : Permutation (insert_desc key x l) (x :: l).
Proof.
  induction l as [|y r IH]; simpl; [reflexivity|].
  destruct (Nat.ltb (key x) (key y)); [|reflexivity].
  rewrite IH. apply perm_swap.
Qed.

Lemma sort_desc_perm (l : list A) : Permutation (sort_desc key l) l.
Proof.
  induction l as [|x r IH]; simpl; [reflexivity|].
  rewrite insert_desc_perm, IH. reflexivity.
Qed.

Lemma insert_desc_ss (x : A) (l : list A) :
  StronglySorted desc l -> StronglySorted desc (insert_desc key x l).
Proof.
  induction l as [|y r IH]; simpl; intros Hs.
  - repeat constructor.
  - inversion Hs as [|? ? Hr Hf]; subst.
    destruct (Nat.ltb (key x) (key y)) eqn:E.
    + apply Nat.ltb_lt in E. constructor; [apply IH, Hr|].
      apply Forall_forall. intros z Hz.
      apply (Permutation_in _ (insert_desc_perm x r)) in Hz. destruct Hz as [<-|Hz].
      * unfold desc. lia.
      * rewrite Forall_forall in Hf. apply Hf, Hz.
    + apply Nat.ltb_ge in E. constructor; [exact Hs|].
      constructor; [unfold desc; lia|].
      apply Forall_forall. intros z Hz. rewrite Forall_forall in Hf.
      specialize (Hf z Hz). unfold desc in *. lia.
Qed.

Lemma sort_desc_ss (l : list A) : StronglySorted desc (sort_desc key l).
Proof.
  induction l as [|x r IH]; simpl; [constructor|]. apply insert_desc_ss, IH.
Qed.

Lemma ss_app_l (l1 l2 : list A) :
  StronglySorted desc (l1 ++ l2) -> StronglySorted desc l1.
Proof.
  induction l1 as [|x r IH]; simpl; intros H; [constructor|].
  inversion H as [|? ? Hr Hf]; subst. constructor; [apply IH, Hr|].
  rewrite Forall_forall in *. intros z Hz. apply Hf, in_or_app. auto.
Qed.

Lemma ss_app_rel (l1 l2 : list A) :
  StronglySorted desc (l1 ++ l2) -> forall x y, In x l1 -> In y l2 -> desc x y.
Proof.
  induction l1 as [|x0 r IH]; simpl; intros H x y Hx Hy; [contradiction|].
  inversion H as [|? ? Hr Hf]; subst. destruct Hx as [<-|Hx].
  - rewrite Forall_forall in Hf. apply Hf, in_or_app. auto.
  - apply (IH Hr); assumption.
Qed.

(** The first [k] of the list sorted by descending key. *)
Lemma top_k (k : nat) (l : list A) :
  let t := firstn k (sort_desc key l) in
  List.length t = Nat.min k (List.length l)
  /\ StronglySorted desc t
  /\ incl t l
  /\ forall x, In x l -> ~ In x t -> forall y, In y t -> (key x <= key y)%nat.
Proof.
  intros t. pose proof (sort_desc_perm l) as P. pose proof (sort_desc_ss l) as S.
  rewrite <- (firstn_skipn k (sort_desc key l)) in S. fold t in S.
  split; [unfold t; rewrite length_firstn, (Permutation_length P); reflexivity|].
  split; [apply (ss_app_l _ _ S)|]. split.
  - intros x Hx. apply (Permutation_in _ P).
    rewrite <- (firstn_skipn k (sort_desc key l)). fold t. apply in_or_app. left. exact Hx.
  - intros x Hx Hn y Hy. apply (Permutation_in _ (Permutation_sym P)) in Hx.
    rewrite <- (firstn_skipn k (sort_desc key l)) in Hx. fold t in Hx.
    apply in_app_or in Hx. destruct Hx as [Hx|Hx]; [contradiction|].
    apply (ss_app_rel _ _ S y x Hy Hx).
Qed.

End TopK.

(** Every unordered pair of neighbours appears in [G.edges()] once,
    oriented from the endpoint met first. *)
Lemma edges_from_In (g : Adj) (seen : list string) (a b : string) (w : nat) :
  In (a, b, w) (edges_from g seen) -> exists nbrs, In (a, nbrs) g /\ In (b, w) nbrs.
Proof.
  revert seen; induction g as [|[n nbrs] r IH]; intros seen; simpl; [contradiction|].
  rewrite in_app_iff. intros [H|H].
  - apply in_map_iff in H. destruct H as [[m x] [E H]]. simpl in E. inversion E; subst.
    apply filter_In in H. exists nbrs. split; [left; reflexivity|tauto].
  - destruct (IH _ H) as [nb [H1 H2]]. exists nb. auto.
Qed.

Lemma edges_from_complete (g : Adj) (seen : list string) (a b : string) (w : nat) :
  NoDup (map fst g) ->
  (exists nb, In (a, nb) g /\ In (b, w) nb) -> (exists nb, In (b, nb) g /\ In (a, w) nb) ->
  ~ In a seen -> ~ In b seen ->
  In (a, b, w) (edges_from g seen) \/ In (b, a, w) (edges_from g seen).
Proof.
  revert seen; induction g as [|[n nbrs] r IH]; intros seen Hd Ha Hb Hsa Hsb; simpl.
  - destruct Ha as [nb [[] _]].
  - inversion Hd as [|? ? Hn Hr]; subst.
    assert (Emit : forall (x y : string), ~ In y seen -> In (y, w) nbrs ->
                   In (x, y, w) (map (fun e => (x, fst e, snd e))
                     (filter (fun e => negb (existsb (String.eqb (fst e)) seen)) nbrs))).
    { intros x y Hy Hi. apply in_map_iff. exists (y, w). split; [reflexivity|].
      apply filter_In. split; [exact Hi|]. simpl.
      destruct (existsb (String.eqb y) seen) eqn:E; [|reflexivity].
      apply existsb_exists in E. destruct E as [z [Hz Ez]]. apply String.eqb_eq in Ez.
      subst. contradiction. }
    destruct Ha as [nba [Ha1 Ha2]], Hb as [nbb [Hb1 Hb2]].
    destruct Ha1 as [Ea|Ha1].
    + inversion Ea; subst. left. apply in_or_app. left. apply Emit; assumption.
    + destruct Hb1 as [Eb|Hb1].
      * inversion Eb; subst. right. apply in_or_app. left. apply Emit; assumption.
      * assert (Hna : n <> a) by (intros ->; apply Hn; apply (in_map fst _ _ Ha1)).
        assert (Hnb : n <> b) by (intros ->; apply Hn; apply (in_map fst _ _ Hb1)).
        destruct (IH (n :: seen) Hr) as [H|H];
          [exists nba; auto|exists nbb; auto|simpl; intuition|simpl; intuition|..];
          [left|right]; apply in_or_app; right; exact H.
Qed.

(** ** Only the set of a record's tags matters *)

Lemma ss_same_elems (l1 l2 : list string) :
  StronglySorted str_lt l1 -> StronglySorted str_lt l2 ->
  (forall x, In x l1 <-> In x l2) -> l1 = l2.
Proof.
  revert l2; induction l1 as [|x r1 IH]; intros l2 S1 S2 E.
  - destruct l2 as [|y r2]; [reflexivity|]. exfalso. apply (proj2 (E y)). left. reflexivity.
  - destruct l2 as [|y r2]; [exfalso; apply (proj1 (E x)); left; reflexivity|].
    inversion S1 as [|? ? R1 F1]; inversion S2 as [|? ? R2 F2]; subst.
    rewrite Forall_forall in F1, F2.
    assert (Exy : x = y).
    { destruct (proj1 (E x) (or_introl eq_refl)) as [H|H]; [symmetry; exact H|].
      destruct (proj2 (E y) (or_introl eq_refl)) as [H'|H']; [exact H'|].
      exfalso. apply (str_lt_asym _ _ (F1 y H') (F2 x H)). }
    subst y. f_equal. apply IH; [exact R1|exact R2|]. intros z. split; intros Hz.
    + destruct (proj1 (E z) (or_intror Hz)) as [H|H]; [|exact H].
      subst. exfalso. apply (str_lt_irrefl z (F1 z Hz)).
    + destruct (proj2 (E z) (or_intror Hz)) as [H|H]; [|exact H].
      subst. exfalso. apply (str_lt_irrefl z (F2 z Hz)).
Qed.

(** The trimmed tags of a record; a missing [skill_tags] gives none. *)
Definition tag_list (r : Row) : list string :=
  match skill_tags r with Some t => parse_tags t | None => [] end.

Definition row_pairs (r : Row) : list (string * string) :=
  match skill_tags r with Some t => pairs_of t | None => [] end.

Lemma row_pairs_tags (r1 r2 : Row) :
  (forall s, In s (tag_list r1) <-> In s (tag_list r2)) -> row_pairs r1 = row_pairs r2.
Proof.
  assert (Nil : forall t, (forall s, ~ In s (parse_tags t)) -> pairs_of t = []).
  { intros t H. unfold pairs_of, skill_set.
    destruct (Py.uniq string_dec (parse_tags t)) as [|x l] eqn:U; [reflexivity|].
    exfalso. apply (H x). apply (Py.uniq_In string_dec). rewrite U. left. reflexivity. }
  unfold tag_list, row_pairs.
  destruct (skill_tags r1) as [t1|], (skill_tags r2) as [t2|]; intros E.
  - unfold pairs_of. f_equal. apply ss_same_elems; [apply skill_set_ss|apply skill_set_ss|].
    intros x. rewrite !skill_set_In. apply E.
  - apply Nil. intros s H. apply (proj1 (E s) H).
  - symmetry. apply Nil. intros s H. apply (proj2 (E s) H).
  - reflexivity.
Qed.

Lemma pair_counts_rows (rows : list Row) :
  pair_counts (dropna (map skill_tags rows))
  = fold_left (fun c r => fold_left incr (row_pairs r) c) rows [].
Proof.
  unfold pair_counts. generalize (@nil ((string * string) * nat)).
  induction rows as [|r rs IH]; intros c; simpl; [reflexivity|].
  unfold row_pairs. destruct (skill_tags r); simpl; apply IH.
Qed.

Lemma pair_counts_tag_sets (rows1 rows2 : list Row) :
  Forall2 (fun r1 r2 => forall s, In s (tag_list r1) <-> In s (tag_list r2)) rows1 rows2 ->
  pair_counts (dropna (map skill_tags rows1)) = pair_counts (dropna (map skill_tags rows2)).
Proof.
  intros F. rewrite !pair_counts_rows. generalize (@nil ((string * string) * nat)).
  induction F as [|r1 r2 rs1 rs2 E F IH]; intros c; simpl; [reflexivity|].
  rewrite (row_pairs_tags _ _ E). apply IH.
Qed.

Lemma build_skill_graph_ok (df : DataFrame) (g : Adj) ts tp :
  build_skill_graph df = Ok (g, ts, tp) ->
  has_col "skill_tags" df = true
  /\ g = graph_of_counts (pair_counts (dropna (map skill_tags (rows df))))
  /\ ts = firstn 10 (sort_desc snd (degrees g))
  /\ tp = firstn 10 (sort_desc (fun e => snd e) (edges g)).
Proof.
  unfold build_skill_graph. destruct (has_col "skill_tags" df); [|discriminate].
  intros H. injection H as E1 E2 E3. subst. repeat split; reflexivity.
Qed.

End GraphExact.

Module ForecastMore.
Import Data Forecast ForecastFacts.

Lemma length_filter_split {A} (p q1 q2 : A -> bool) (l : list A) :
  (forall v, p v = q1 v || q2 v) -> (forall v, q1 v && q2 v = false) ->
  List.length (filter p l) = (List.length (filter q1 l) + List.length (filter q2 l))%nat.
Proof.
  intros Hp Hd. induction l as [|v r IH]; simpl; [reflexivity|].
  rewrite Hp. specialize (Hd v).
  destruct (q1 v), (q2 v); simpl in *; try discriminate; rewrite IH; lia.
Qed.

(** Consecutive half-open buckets of width [W] from [A] partition
    [A, A + n W). *)
Lemma sum_buckets (A W : Z) (n : nat) (ts : list Z) :
  (0 < W)%Z ->
  list_sum (map (fun i => List.length (filter (fun v => (A + Z.of_nat i * W <=? v)
                                                       && (v <? A + Z.of_nat i * W + W))%Z ts))
                (seq 0 n))
  = List.length (filter (fun v => (A <=? v) && (v <? A + Z.of_nat n * W))%Z ts).
Proof.
  intros HW. induction n as [|n IH].
  - simpl. rewrite ?Z.mul_0_l, ?Z.add_0_r.
    induction ts as [|v r IHr]; simpl; [reflexivity|].
    destruct (Z.leb_spec A v), (Z.ltb_spec v A); simpl; try lia; exact IHr.
  - rewrite seq_S, map_app, list_sum_app, IH. cbn [map list_sum]. rewrite ?Nat.add_0_r, ?Nat.add_0_l.
    rewrite Nat2Z.inj_succ.
    symmetry. cbn [list_sum fold_right]. rewrite Nat.add_0_r. apply length_filter_split.
    + intros v. rewrite Z.mul_succ_l.
      assert (HK : (0 <= Z.of_nat n * W)%Z) by (apply Z.mul_nonneg_nonneg; lia).
      set (K := (Z.of_nat n * W)%Z) in *.
      destruct (Z.leb_spec A v), (Z.ltb_spec v (A + (K + W))),
        (Z.ltb_spec v (A + K)), (Z.leb_spec (A + K) v),
        (Z.ltb_spec v (A + K + W)); simpl; try reflexivity; lia.
    + intros v. destruct (Z.ltb_spec v (A + Z.of_nat n * W)), (Z.leb_spec (A + Z.of_nat n * W) v);
        simpl; rewrite ?andb_false_r; try reflexivity; lia.
Qed.

(** The weekly counts add up to the number of timestamps. *)
Lemma resample_weekly_sum (res : Resolution) (ts : list Z) :
  list_sum (map snd (resample_weekly res ts)) = List.length ts.
Proof.
  destruct ts as [|t0 r]; [reflexivity|].
  destruct (resample_weekly_shape res t0 r) as [L0 [mb [E [_ [_ [Bmn [Hmb [Bmx _]]]]]]]].
  rewrite E, map_map. cbn [snd].
  assert (HW : (0 < WEEK_NS)%Z) by (unfold WEEK_NS, DAY_NS, BotFilter.DAY_NS; lia).
  assert (HD : (0 < DAY_NS)%Z) by (unfold DAY_NS, BotFilter.DAY_NS; lia).
  pose proof (unit_ns_bounds res) as Hu.
  destruct (fold_min_spec r t0) as [Mn _]. destruct (fold_max_spec r t0) as [Mx _].
  set (mn := fold_left Z.min r t0) in *. set (mx := fold_left Z.max r t0) in *.
  set (u := unit_ns res) in *. set (W := WEEK_NS) in *. set (D := DAY_NS) in *.
  clearbody W D u.
  set (A := (L0 + D - u + 1)%Z).
  assert (Hf : forall v, In v (t0 :: r) ->
                 ((A <=? v) && (v <? A + Z.of_nat mb * W))%Z = true).
  { intros v Hv. specialize (Mn v Hv). specialize (Mx v Hv).
    apply andb_true_iff. split; [apply Z.leb_le|apply Z.ltb_lt]; unfold A; lia. }
  assert (Eq : map (fun i => count_in (L0 + Z.of_nat i * W + D - u)
                                     (L0 + Z.of_nat i * W + D - u + W) (t0 :: r))
                   (seq 0 mb)
               = map (fun i => List.length (filter (fun v => (A + Z.of_nat i * W <=? v)
                                    && (v <? A + Z.of_nat i * W + W))%Z (t0 :: r)))
                   (seq 0 mb)).
  { apply map_ext. intros i. rewrite count_in_shift.
    replace (L0 + Z.of_nat i * W + D - u + 1)%Z with (A + Z.of_nat i * W)%Z by (unfold A; ring).
    replace (L0 + Z.of_nat i * W + D - u + W + 1)%Z with (A + Z.of_nat i * W + W)%Z
      by (unfold A; ring).
    reflexivity. }
  rewrite Eq, (sum_buckets A W mb (t0 :: r) HW).
  f_equal. apply forallb_filter_id. apply forallb_forall. exact Hf.
Qed.

(** The Monday midnights [L0 + 1 day + k weeks] after a midnight [L0]
    are multiples of every unit. *)
Lemma bin_start_units (res : Resolution) (L0 : Z) (k : Z) :
  (L0 mod DAY_NS = 0)%Z -> ((L0 + DAY_NS + k * WEEK_NS) mod unit_ns res = 0)%Z.
Proof.
  intros HL0.
  pose proof (Z.div_mod L0 DAY_NS ltac:(unfold DAY_NS, BotFilter.DAY_NS; lia)) as EL.
  rewrite HL0, Z.add_0_r in EL.
  replace (L0 + DAY_NS + k * WEEK_NS)%Z with ((L0 / DAY_NS + 1 + 7 * k) * DAY_NS)%Z
    by (unfold WEEK_NS in *; lia).
  apply unit_ns_day.
Qed.

(** Between multiples of [u], [M - u < x] means [M <= x]. *)
Lemma units_gt (u M x : Z) :
  (0 < u)%Z -> (M mod u = 0)%Z -> (x mod u = 0)%Z -> (M - u < x)%Z -> (M <= x)%Z.
Proof.
  intros Hu HM Hx Hlt.
  apply Z.mod_divide in HM; [|lia]. apply Z.mod_divide in Hx; [|lia].
  destruct HM as [m ->]. destruct Hx as [y ->].
  replace (m * u - u)%Z with ((m - 1) * u)%Z in Hlt by ring.
  apply Z.mul_lt_mono_pos_r in Hlt; [|exact Hu].
  apply Z.mul_le_mono_pos_r; [exact Hu | lia].
Qed.

Section ExactLine.
Variables a b : Q.

Lemma Qsum_line (ys xl : list Q) :
  Forall2 (fun y x => y == a + b * x) ys xl ->
  Qsum ys == inject_Z (Z.of_nat (List.length ys)) * a + b * Qsum xl.
Proof.
  induction 1 as [|y x ys xl Hy _ IH]; unfold Qsum in *; cbn [fold_right List.length].
  - ring.
  - rewrite Hy, IH, Nat2Z.inj_succ, <- Z.add_1_r, inject_Z_plus. ring.
Qed.

Lemma Qsum_line_x (ys xl : list Q) :
  Forall2 (fun y x => y == a + b * x) ys xl ->
  Qsum (map (fun p => fst p * snd p) (combine xl ys))
  == a * Qsum xl + b * Qsum (map (fun x => x * x) xl).
Proof.
  induction 1 as [|y x ys xl Hy _ IH]; unfold Qsum in *; cbn [fold_right map combine fst snd].
  - ring.
  - rewrite Hy, IH. ring.
Qed.

(** Counts lying exactly on a line are fitted by that line. *)
Lemma polyfit_exact (ys : list Q) :
  (2 <= List.length ys)%nat ->
  Forall2 (fun y x => y == a + b * x) ys (xs (List.length ys)) ->
  polyfit_slope ys == b /\ polyfit_intercept ys == a.
Proof.
  intros Hn HF.
  assert (Hs : polyfit_slope ys == b).
  { unfold polyfit_slope. rewrite (Qsum_line_x _ _ HF), (Qsum_line _ _ HF).
    pose proof (denom_pos _ Hn) as Hd.
    set (n := inject_Z (Z.of_nat (List.length ys))) in *.
    set (Sx := Qsum (xs (List.length ys))) in *.
    set (Sxx := Qsum (map (fun x => x * x) (xs (List.length ys)))) in *.
    field. exact Hd. }
  split; [exact Hs|].
  unfold polyfit_intercept. rewrite Hs, (Qsum_line _ _ HF).
  pose proof (inject_nat_nonzero (List.length ys) ltac:(lia)) as Hz.
  field. exact Hz.
Qed.

End ExactLine.

Lemma Qltb_comp (x x' y y' : Q) : x == x' -> y == y' -> Py.Qltb x y = Py.Qltb x' y'.
Proof.
  intros Hx Hy. destruct (Py.Qltb x y) eqn:E, (Py.Qltb x' y') eqn:E'; try reflexivity;
    rewrite ?Py.Qltb_spec in E, E'.
  - exfalso. apply Py.Qltb_spec in E. rewrite Hx, Hy in E.
    apply Py.Qltb_spec in E. congruence.
  - exfalso. apply Py.Qltb_spec in E'. rewrite <- Hx, <- Hy in E'.
    apply Py.Qltb_spec in E'. congruence.
Qed.

Lemma classify_comp (s s' thr : Q) : s == s' -> classify s thr = classify s' thr.
Proof.
  intros H. unfold classify.
  rewrite (Qltb_comp thr thr s s'), (Qltb_comp s s' (- thr) (- thr)) by (reflexivity || exact H).
  reflexivity.
Qed.

(** The branch structure of [forecast_skill] once the column guards pass. *)
Lemma forecast_skill_body (res : Resolution) (df : DataFrame) (skill : string) (h : Z) :
  empty df = false -> has_col "timestamp" df = true -> has_col "skill_tags" df = true ->
  forecast_skill res df skill h =
    match filtered df (Py.strip skill) with
    | [] => _empty_result
    | fl =>
        let weekly := resample_weekly res (map timestamp fl) in
        if (List.length weekly <? 2)%nat then mkResult weekly [] "stable"
        else fit_and_forecast weekly h
    end.
Proof.
  intros E1 E2 E3. unfold forecast_skill. rewrite E1, E2, E3. cbn [orb negb].
  destruct (String.eqb (Py.strip skill) "") eqn:Es; [|reflexivity].
  apply String.eqb_eq in Es. rewrite Es, filtered_empty_skill. reflexivity.
Qed.

End ForecastMore.

Module ClusterMore.
Import Data Cluster ClusterFacts GraphExact.

(** The cluster a region is assigned to: its label in [combine mat labels]. *)
Definition cluster_of (exp : list (string * string)) (labels : list nat) (r : string)
  : option nat :=
  assoc r (combine (mat_regions exp) labels).

(** Occurrences of skill [s] among the exploded (region, skill) rows of the
    regions assigned to cluster [c]. *)
Definition cluster_count (exp : list (string * string)) (labels : list nat) (c : nat)
  (s : string) : nat :=
  List.length (filter (fun e => String.eqb (snd e) s &&
                                match cluster_of exp labels (fst e) with
                                | Some c' => Nat.eqb c' c
                                | None => false
                                end) exp).

Lemma mat_skills_In (exp : list (string * string)) (s : string) :
  In s (mat_skills exp) <-> In s (map snd exp).
Proof.
  unfold mat_skills. split; intros H.
  - apply (Permutation_in _ (GraphFacts.sorted_perm _)) in H. apply Py.uniq_In in H. exact H.
  - apply (Permutation_in _ (Permutation_sym (GraphFacts.sorted_perm _))). apply Py.uniq_In, H.
Qed.

Lemma mat_skills_NoDup (exp : list (string * string)) : NoDup (mat_skills exp).
Proof.
  unfold mat_skills. apply (Permutation_NoDup (Permutation_sym (GraphFacts.sorted_perm _))).
  apply Py.uniq_NoDup.
Qed.

Lemma vsum_map {B} (f g : B -> nat) (l : list B) :
  vsum (map f l) (map g l) = map (fun s => (f s + g s)%nat) l.
Proof. induction l as [|x r IH]; simpl; [reflexivity|]. rewrite IH. reflexivity. Qed.

(** Summing profile rows column by column. *)
Lemma fold_vsum_map {B} (F : string -> B -> nat) (acc : B -> nat) (l : list B) (rs : list string) :
  fold_left vsum (map (fun r => map (F r) l) rs) (map acc l)
  = map (fun s => (acc s + list_sum (map (fun r => F r s) rs))%nat) l.
Proof.
  revert acc; induction rs as [|r rs IH]; intros acc; simpl.
  - apply map_ext. intros s. lia.
  - rewrite vsum_map, (IH (fun s => (acc s + F r s)%nat)). apply map_ext. intros s. lia.
Qed.

Lemma combine_map_l {A B C} (f : A -> C) (l1 : list A) (l2 : list B) :
  combine (map f l1) l2 = map (fun p => (f (fst p), snd p)) (combine l1 l2).
Proof.
  revert l2; induction l1 as [|x r IH]; intros [|y l2]; simpl; try reflexivity.
  rewrite IH. reflexivity.
Qed.

Lemma combine_keys_NoDup {B} (l1 : list string) (l2 : list B) :
  NoDup l1 -> NoDup (map fst (combine l1 l2)).
Proof.
  revert l2; induction l1 as [|x r IH]; intros [|y l2] Hd; simpl; try constructor.
  - inversion Hd as [|? ? Hn Hr]; subst. intros Hin. apply Hn.
    apply in_map_iff in Hin. destruct Hin as [[k v] [E Hk]]. simpl in E. subst k.
    apply in_combine_l in Hk. exact Hk.
  - inversion Hd; subst. apply IH. assumption.
Qed.

(** Swapping the sums over the regions of a cluster and over the rows. *)
Lemma sum_pair_counts (exp : list (string * string)) (P : list (string * nat)) (c : nat)
  (s : string) :
  NoDup (map fst P) ->
  list_sum (map (fun p => pair_count exp (fst p) s) (filter (fun p => Nat.eqb (snd p) c) P))
  = List.length (filter (fun e => String.eqb (snd e) s &&
                                  match assoc (fst e) P with
                                  | Some c' => Nat.eqb c' c
                                  | None => false
                                  end) exp).
Proof.
  induction P as [|[k v] P IH]; intros Hd; simpl.
  - induction exp as [|e r IHr]; simpl; [reflexivity|].
    rewrite andb_false_r. exact IHr.
  - inversion Hd as [|? ? Hn Hr]; subst. specialize (IH Hr).
    assert (Hk : assoc k P = None) by (apply assoc_In_keys; exact Hn).
    destruct (Nat.eqb v c) eqn:Ev; simpl.
    + rewrite IH. unfold pair_count. symmetry. apply ForecastMore.length_filter_split.
      * intros e. destruct (String.eqb (fst e) k) eqn:Ek.
        -- apply String.eqb_eq in Ek. rewrite Ek, Hk, Ev. simpl.
           rewrite ?String.eqb_refl. destruct (String.eqb (snd e) s); reflexivity.
        -- simpl. reflexivity.
      * intros e. destruct (String.eqb (fst e) k) eqn:Ek; simpl; [|reflexivity].
        apply String.eqb_eq in Ek. rewrite Ek, Hk.
        destruct (String.eqb (snd e) s); reflexivity.
    + rewrite IH. f_equal. apply filter_ext. intros e.
      destruct (String.eqb (fst e) k) eqn:Ek; [|reflexivity].
      apply String.eqb_eq in Ek. rewrite Ek, Hk, Ev. rewrite !andb_false_r. reflexivity.
Qed.

(** Summing, per cluster, the profile counts of a list of skills gives
    the counts [cluster_count]. *)
Lemma cluster_sums_counts_on (exp : list (string * string)) (labels : list nat) (c : nat)
  (K : list string) :
  cluster_sums (List.length K)
    (map (fun p => (map (pair_count exp (fst p)) K, snd p)) (combine (mat_regions exp) labels)) c
  = map (cluster_count exp labels c) K.
Proof.
  unfold cluster_sums.
  set (P := combine (mat_regions exp) labels).
  assert (E : map fst (filter (fun e => Nat.eqb (snd e) c)
                 (map (fun x => (map (pair_count exp (fst x)) K, snd x)) P))
              = map (fun r => map (fun s => pair_count exp r s) K)
                    (map fst (filter (fun p => Nat.eqb (snd p) c) P))).
  { clear. induction P as [|p P IH]; simpl; [reflexivity|].
    destruct (Nat.eqb (snd p) c); simpl; rewrite IH; reflexivity. }
  rewrite E, <- (map_const 0%nat K).
  rewrite (fold_vsum_map (fun r s => pair_count exp r s) (fun _ => 0%nat)).
  apply map_ext. intros s. simpl. rewrite map_map.
  unfold cluster_count, cluster_of. fold P.
  apply sum_pair_counts. apply combine_keys_NoDup, mat_regions_NoDup.
Qed.

Lemma drop_cluster_col_map (f : string -> nat) (skills : list string) :
  drop_cluster_col skills (map f skills) = map f (filter kept_col skills).
Proof.
  unfold drop_cluster_col. induction skills as [|s r IH]; simpl; [reflexivity|].
  destruct (kept_col s); simpl; rewrite IH; reflexivity.
Qed.

(** The per-cluster sums of [cluster_regions] are the counts
    [cluster_count] of the skills other than "_cluster". *)
Lemma cluster_sums_counts (exp : list (string * string)) (labels : list nat) (c : nat) :
  cluster_sums (List.length (filter kept_col (mat_skills exp)))
    (map (fun e => (drop_cluster_col (mat_skills exp) (snd (fst e)), snd e))
       (combine (profile_matrix exp) labels)) c
  = map (cluster_count exp labels c) (filter kept_col (mat_skills exp)).
Proof.
  unfold profile_matrix. rewrite combine_map_l, map_map. cbn [fst snd].
  rewrite <- cluster_sums_counts_on. f_equal. apply map_ext. intros p.
  rewrite drop_cluster_col_map. reflexivity.
Qed.

Lemma cluster_count_In (exp : list (string * string)) (labels : list nat) (c : nat) (s : string) :
  (1 <= cluster_count exp labels c s)%nat -> In s (mat_skills exp).
Proof.
  intros H. apply mat_skills_In. unfold cluster_count in H.
  destruct (filter _ exp) as [|e l] eqn:F; [simpl in H; lia|].
  assert (He : In e (filter (fun e => String.eqb (snd e) s &&
                                match cluster_of exp labels (fst e) with
                                | Some c' => Nat.eqb c' c
                                | None => false
                                end) exp)) by (rewrite F; left; reflexivity).
  apply filter_In in He. destruct He as [He Hb]. apply andb_true_iff in Hb.
  destruct Hb as [Hb _]. apply String.eqb_eq in Hb. subst s. apply in_map, He.
Qed.

Lemma NoDup_map_filter {A B} (keep : A -> bool) (f : A -> B) (xs : list A) :
  NoDup (map f xs) -> NoDup (map f (filter keep xs)).
Proof.
  induction xs as [|x r IH]; simpl; intros Hd; [constructor|].
  inversion Hd as [|? ? Hn Hr]; subst. destruct (keep x); simpl; [|apply IH, Hr].
  constructor; [|apply IH, Hr]. intros Hin. apply Hn.
  apply in_map_iff in Hin. destruct Hin as [y [E Hy]]. apply filter_In in Hy.
  rewrite <- E. apply in_map, Hy.
Qed.

Lemma In_firstn_l {A} (k : nat) (l : list A) (x : A) : In x (firstn k l) -> In x l.
Proof. intros H. rewrite <- (firstn_skipn k l). apply in_or_app. left. exact H. Qed.

Lemma NoDup_firstn {A} (k : nat) (l : list A) : NoDup l -> NoDup (firstn k l).
Proof.
  intros Hd. rewrite <- (firstn_skipn k l) in Hd. apply NoDup_app_remove_r in Hd. exact Hd.
Qed.

Lemma ss_filter {A} (R : A -> A -> Prop) (p : A -> bool) (l : list A) :
  StronglySorted R l -> StronglySorted R (filter p l).
Proof.
  induction 1 as [|x r Hr IH Hf]; simpl; [constructor|].
  destruct (p x); [|exact IH]. constructor; [exact IH|].
  rewrite Forall_forall in *. intros y Hy. apply filter_In in Hy. apply Hf, Hy.
Qed.

Lemma ss_map_fst {B} (key : B -> nat) (l : list (B * nat)) :
  (forall p, In p l -> snd p = key (fst p)) ->
  StronglySorted (fun x y => (snd y <= snd x)%nat) l ->
  StronglySorted (fun x y => (key y <= key x)%nat) (map fst l).
Proof.
  intros Hk. induction 1 as [|x r Hr IH Hf]; simpl; [constructor|].
  constructor; [apply IH; intros p Hp; apply Hk; right; exact Hp|].
  rewrite Forall_forall in *. intros y Hy. apply in_map_iff in Hy.
  destruct Hy as [q [<- Hq]]. rewrite <- (Hk q), <- (Hk x) by (simpl; auto). apply Hf, Hq.
Qed.

Lemma filter_shorter {A} (p : A -> bool) (l : list A) :
  (List.length (filter p l) < List.length l)%nat -> exists x, In x l /\ p x = false.
Proof.
  induction l as [|x r IH]; simpl; [lia|]. intros H.
  destruct (p x) eqn:E; [|exists x; auto].
  simpl in H. destruct IH as [y [Hy Ey]]; [lia|]. exists y; auto.
Qed.

(** [top5] over a NoDup key list with values [cnt]: the listed keys are
    the leading positive ones of the sort. *)
Lemma top5_spec (skills : list string) (cnt : string -> nat) :
  NoDup skills ->
  let top := top5 skills (map cnt skills) in
  (List.length top <= 5)%nat /\ NoDup top /\
  (forall s, In s top -> 1 <= cnt s)%nat /\
  StronglySorted (fun x y => (cnt y <= cnt x)%nat) top /\
  (forall s, In s skills -> 1 <= cnt s -> ~ In s top -> forall s', In s' top -> cnt s <= cnt s')%nat /\
  ((List.length top < 5)%nat -> forall s, In s skills -> (1 <= cnt s)%nat -> In s top).
Proof.
  intros Hd top.
  set (L := map (fun s => (s, cnt s)) skills).
  assert (EL : combine skills (map cnt skills) = L).
  { unfold L. clear. induction skills as [|x r IH]; simpl; [reflexivity|]. rewrite IH. reflexivity. }
  destruct (top_k snd 5 L) as [Tl [Ts [Ti Tx]]].
  set (t := firstn 5 (Graph.sort_desc snd L)) in *.
  assert (Hok : forall p, In p t -> snd p = cnt (fst p)).
  { intros p Hp. apply Ti in Hp. unfold L in Hp. apply in_map_iff in Hp.
    destruct Hp as [s [<- _]]. reflexivity. }
  assert (Hlt : (List.length t <= 5)%nat) by lia.
  assert (Et : top = map fst (filter (fun e => Nat.ltb 0 (snd e)) t)).
  { unfold top, top5. rewrite EL. fold t. apply firstn_all2.
    rewrite length_map. pose proof (filter_length_le (fun e => Nat.ltb 0 (snd e)) t). lia. }
  assert (HdL : NoDup (map fst (Graph.sort_desc snd L))).
  { apply (Permutation_NoDup (Permutation_map fst (Permutation_sym (sort_desc_perm snd L)))).
    unfold L. rewrite map_map. simpl. rewrite map_id. exact Hd. }
  assert (Hin_t : forall s, In s top -> In (s, cnt s) t /\ (1 <= cnt s)%nat).
  { intros s Hs. rewrite Et in Hs. apply in_map_iff in Hs. destruct Hs as [p [<- Hp]].
    apply filter_In in Hp. destruct Hp as [Hp Hpos]. apply Nat.ltb_lt in Hpos.
    pose proof (Hok p Hp) as Hv. destruct p as [s' v]. simpl in Hv, Hpos |- *. subst v.
    split; [exact Hp|lia]. }
  assert (Hnot : forall s, In s skills -> (1 <= cnt s)%nat -> ~ In s top -> ~ In (s, cnt s) t).
  { intros s _ Hc Hn Ht. apply Hn. rewrite Et. apply in_map_iff. exists (s, cnt s).
    split; [reflexivity|]. apply filter_In. split; [exact Ht|]. apply Nat.ltb_lt. simpl. lia. }
  assert (HinL : forall s, In s skills -> In (s, cnt s) L).
  { intros s Hs. unfold L. apply in_map_iff. exists s. auto. }
  split; [|split; [|split; [|split; [|split]]]].
  - rewrite Et, length_map. pose proof (filter_length_le (fun e => Nat.ltb 0 (snd e)) t). lia.
  - rewrite Et. apply NoDup_map_filter. unfold t. rewrite <- firstn_map.
    apply NoDup_firstn, HdL.
  - intros s Hs. apply Hin_t, Hs.
  - rewrite Et. apply ss_map_fst.
    + intros p Hp. apply filter_In in Hp. apply Hok, Hp.
    + apply ss_filter, Ts.
  - intros s Hs Hc Hn s' Hs'. destruct (Hin_t s' Hs') as [Ht' _].
    apply (Tx (s, cnt s) (HinL s Hs) (Hnot s Hs Hc Hn) _ Ht').
  - intros Hl5 s Hs Hc. destruct (In_dec string_dec s top) as [Y|Hn]; [exact Y|exfalso].
    pose proof (Hnot s Hs Hc Hn) as Hnt.
    destruct (Nat.le_gt_cases (List.length L) 5) as [HL|HL].
    + apply Hnt. unfold t. rewrite firstn_all2 by (rewrite (Permutation_length (sort_desc_perm snd L)); lia).
      apply (Permutation_in _ (Permutation_sym (sort_desc_perm snd L))), HinL, Hs.
    + assert (Hft : (List.length (filter (fun e => Nat.ltb 0 (snd e)) t) < List.length t)%nat).
      { rewrite Et, length_map in Hl5. lia. }
      destruct (filter_shorter _ _ Hft) as [p [Hp Hz]]. apply Nat.ltb_ge in Hz.
      pose proof (Tx (s, cnt s) (HinL s Hs) Hnt p Hp). simpl in *. lia.
Qed.

(** An output entry of [cluster_regions]: a profile row, its label, and
    the top skills of that label. *)
Lemma cluster_regions_In (kmeans : nat -> list (list nat) -> list nat) (df : DataFrame)
  (n : Z) (out : list (string * nat * list string)) (r : string) (c : nat) (top : list string) :
  cluster_regions kmeans df n = Ok out -> In (r, c, top) out ->
  exists v,
    In ((r, v), c) (combine (profile_matrix (explode_skills (rows df)))
                      (kmeans (Z.to_nat (Z.min n (Z.of_nat (List.length
                                 (profile_matrix (explode_skills (rows df)))))))
                              (map snd (profile_matrix (explode_skills (rows df)))))) /\
    top = top5 (filter kept_col (mat_skills (explode_skills (rows df))))
            (cluster_sums (List.length (filter kept_col (mat_skills (explode_skills (rows df)))))
               (map (fun e => (drop_cluster_col (mat_skills (explode_skills (rows df)))
                                 (snd (fst e)), snd e))
                  (combine (profile_matrix (explode_skills (rows df)))
                     (kmeans (Z.to_nat (Z.min n (Z.of_nat (List.length
                                (profile_matrix (explode_skills (rows df)))))))
                             (map snd (profile_matrix (explode_skills (rows df)))))))
               c).
Proof.
  intros H Hin. unfold cluster_regions in H.
  destruct (empty df || negb (has_col "region"%string df) || negb (has_col "skill_tags"%string df));
    [injection H as <-; contradiction|].
  destruct (explode_skills (rows df)) as [|x xs]; [injection H as <-; contradiction|].
  cbv zeta in H.
  destruct (Z.min n (Z.of_nat (List.length (profile_matrix (x :: xs)))) <? 1)%Z; [discriminate|].
  injection H as <-.
  apply in_map_iff in Hin. destruct Hin as [[[r' v] c'] [E Hin]]. simpl in E.
  injection E as -> -> Etop. exists v. split; [exact Hin|].
  assert (Hex : existsb (Nat.eqb c) (kmeans (Z.to_nat (Z.min n (Z.of_nat (List.length
                   (profile_matrix (x :: xs)))))) (map snd (profile_matrix (x :: xs)))) = true).
  { apply existsb_exists. exists c. split; [apply in_combine_r in Hin; exact Hin|apply Nat.eqb_refl]. }
  rewrite Hex in Etop. symmetry. exact Etop.
Qed.

End ClusterMore.

(** services/ingest.py: [ingest_csv] after [pd.read_csv].  The table read
    from the file is given as its column labels and its rows; as in
    [Data.Row], user_id, region and source hold strings, while timestamp,
    raw_text and skill_tags may be NaN ([None]). *)
Module Ingest.
Import Data.
Local Open Scope string_scope.
Local Open Scope list_scope.

Definition REQUIRED_COLUMNS : list string :=
  ["user_id"; "region"; "timestamp"; "source"; "raw_text"; "skill_tags"; "engagement"].

Record CsvRow := mkCsvRow {
  csv_user_id : string;
  csv_region : string;
  csv_timestamp : option string;
  csv_source : string;
  csv_raw_text : option string;
  csv_skill_tags : option string;
  csv_engagement : Q
}.

Record CsvTable := mkCsvTable { csv_columns : list string; csv_rows : list CsvRow }.

(** An ingested record with the two metadata columns. *)
Record IngestedRow := mkIngestedRow {
  irow : Row;
  ingestion_time : Z;
  ingestion_type : string
}.

Record Ingested := mkIngested { i_columns : list string; i_rows : list IngestedRow }.

(** The ingested table as the DataFrame the services receive. *)
Definition as_df (d : Ingested) : DataFrame := mkDF (i_columns d) (map irow (i_rows d)).

(** [df[c] = v]: a new label goes last, an existing one keeps its place. *)
Definition set_col (c : string) (cols : list string) : list string :=
  if existsb (String.eqb c) cols then cols else cols ++ [c].

Section WithEnv.

(** [pd.to_datetime(col, errors="coerce")] on the whole column: [None] is
    NaT.  [datetime.utcnow()] is read once. *)
Variable to_datetime : list (option string) -> list (option Z).
Variable utcnow : Z.

(** Step 3 on one row whose timestamp parsed to [t]. *)
Definition normalize_row (r : CsvRow) (t : Z) : Row :=
  mkRow (csv_user_id r) (Py.strip (csv_region r)) t (Py.strip (Py.lower (csv_source r)))
        (csv_raw_text r)
        (Some (match csv_skill_tags r with Some s => s | None => "" end))
        (csv_engagement r).

Definition ingest_csv (t : CsvTable) : result Ingested :=
  let missing := filter (fun c => negb (existsb (String.eqb c) (csv_columns t))) REQUIRED_COLUMNS in
  match missing with
  | _ :: _ => Err (ValueError missing)
  | [] =>
      let ts := to_datetime (map csv_timestamp (csv_rows t)) in
      let kept := flat_map (fun p => match snd p with
                                     | Some z => [normalize_row (fst p) z]
                                     | None => []
                                     end) (combine (csv_rows t) ts) in
      Ok (mkIngested (set_col "ingestion_type" (set_col "ingestion_time" (csv_columns t)))
                     (map (fun r => mkIngestedRow r utcnow "csv") kept))
  end.

End WithEnv.

End Ingest.

(** main.py: [get_overview] on the in-memory DataFrame. *)
Module Overview.
Import Data.

Record OverviewResponse := mkOverview {
  total_records : nat;
  total_users : nat;
  total_regions : nat;
  total_skills : nat
}.

(** [df["skill_tags"].str.split(";").explode().nunique()]: the raw pieces,
    not stripped; NaN rows give NaN, which [nunique] drops. *)
Definition get_overview (df : DataFrame) : OverviewResponse :=
  mkOverview (List.length (rows df))
             (Py.nunique string_dec (map user_id (rows df)))
             (Py.nunique string_dec (map region (rows df)))
             (Py.nunique string_dec
                (flat_map (fun r => match skill_tags r with
                                    | Some t => Py.split t
                                    | None => []
                                    end) (rows df))).

(** The trimmed, non-empty tags the services work with. *)
Definition tag_vocabulary (df : DataFrame) : nat :=
  Py.nunique string_dec
    (flat_map (fun r => match skill_tags r with
                        | Some t => Graph.parse_tags t
                        | None => []
                        end) (rows df)).

End Overview.

Module IngestFacts.
Import Data Ingest.
Local Open Scope string_scope.
Local Open Scope list_scope.

Lemma set_col_In (c c' : string) (cols : list string) :
  In c' (set_col c cols) <-> c' = c \/ In c' cols.
Proof.
  unfold set_col. destruct (existsb (String.eqb c) cols) eqn:E.
  - apply existsb_exists in E. destruct E as [x [Hx Ex]]. apply String.eqb_eq in Ex. subst x.
    split; [auto|]. intros [->|H]; assumption.
  - rewrite in_app_iff. simpl. intuition.
Qed.

Lemma filter_nil_false {A} (p : A -> bool) (l : list A) :
  filter p l = [] -> forall x, In x l -> p x = false.
Proof.
  induction l as [|y r IH]; simpl; [contradiction|]. intros H x [<-|Hx].
  - destruct (p y); [discriminate|reflexivity].
  - destruct (p y); [discriminate|]. apply IH; assumption.
Qed.

Lemma ingest_csv_ok to_datetime utcnow (t : CsvTable) (d : Ingested) :
  ingest_csv to_datetime utcnow t = Ok d ->
  (forall c, In c REQUIRED_COLUMNS -> In c (csv_columns t)) /\
  i_columns d = set_col "ingestion_type" (set_col "ingestion_time" (csv_columns t)) /\
  i_rows d = map (fun r => mkIngestedRow r utcnow "csv")
               (flat_map (fun p => match snd p with
                                   | Some z => [normalize_row (fst p) z]
                                   | None => []
                                   end)
                  (combine (csv_rows t) (to_datetime (map csv_timestamp (csv_rows t))))).
Proof.
  unfold ingest_csv. destruct (filter _ REQUIRED_COLUMNS) eqn:F; [|discriminate].
  intros H. injection H as <-. split; [|split; reflexivity].
  intros c Hc. pose proof (filter_nil_false _ _ F c Hc) as E.
  apply negb_false_iff, existsb_exists in E. destruct E as [x [Hx Ex]].
  apply String.eqb_eq in Ex. subst x. exact Hx.
Qed.

Lemma lower_strip_lower (s : string) :
  Py.lower (Py.strip (Py.lower s)) = Py.strip (Py.lower s).
Proof.
  unfold Py.lower, Py.strip. rewrite !list_ascii_of_string_of_list_ascii. f_equal.
  rewrite <- map_id. apply map_ext_in. intros x Hx.
  apply TextFacts.strip_l_incl in Hx. apply in_map_iff in Hx. destruct Hx as [y [<- _]].
  apply TextFacts.lower_char_idem.
Qed.

Lemma length_flat_map_opt {A B C} (f : A -> B -> C) (l : list (A * option B)) :
  List.length (flat_map (fun p => match snd p with Some z => [f (fst p) z] | None => [] end) l)
  = List.length (filter (fun o => match o with Some _ => true | None => false end) (map snd l)).
Proof.
  induction l as [|[a [b|]] r IH]; simpl; [reflexivity| |]; rewrite ?IH; reflexivity.
Qed.

Lemma nunique_map_le {A B} (decA : forall x y : A, {x = y} + {x <> y})
  (decB : forall x y : B, {x = y} + {x <> y}) (f : A -> B) (l : list A) :
  (Py.nunique decB (map f l) <= Py.nunique decA l)%nat.
Proof.
  unfold Py.nunique. rewrite <- (length_map f (Py.uniq decA l)).
  apply NoDup_incl_length; [apply Py.uniq_NoDup|].
  intros y Hy. apply Py.uniq_In, in_map_iff in Hy. destruct Hy as [x [<- Hx]].
  apply in_map, Py.uniq_In, Hx.
Qed.

End IngestFacts.

(** * Properties of the analytics core *)

Module BotClaims.
Import Data BotFilter BotSpec.
Local Open Scope string_scope.





(** C7: apply_bot_filter raises (a ValueError naming the sorted missing
    columns) exactly when one of user_id, timestamp, raw_text, engagement
    is absent from the frame's columns; with all four present it returns a
    result.  The error is the function's result, handed to the caller. *)
Theorem bot_schema_error_iff (df : DataFrame) (cfg : Config) :
  (is_err (apply_bot_filter df cfg) = true
   <-> exists c, In c ["user_id"; "timestamp"; "raw_text"; "engagement"]
                 /\ has_col c df = false)
  /\ (forall e, apply_bot_filter df cfg = Err e -> e = ValueError (missing_cols df)).
Proof.
  unfold apply_bot_filter. split.
  - destruct (missing_cols df) as [|c0 cs] eqn:M; simpl.
    + split; [discriminate|]. intros [c [Hc Hn]]. exfalso.
      assert (Hm : In c (missing_cols df)).
      { unfold missing_cols. apply filter_In. rewrite Hn. split; [|reflexivity].
        simpl in Hc |- *. tauto. }
      rewrite M in Hm. exact Hm.
    + split; [intros _|reflexivity].
      assert (Hm : In c0 (missing_cols df)) by (rewrite M; left; reflexivity).
      unfold missing_cols in Hm. apply filter_In in Hm. destruct Hm as [Hc Hn].
      exists c0. split; [simpl in Hc |- *; tauto|]. destruct (has_col c0 df); simpl in Hn; congruence.
  - intros e. destruct (missing_cols df) eqn:M; [discriminate|].
    intros H. inversion H. reflexivity.
Qed.















Section Tie.
Variable cs : list string.
Variable n : nat.
Hypothesis Hnd : NoDup cs.
Hypothesis Hlen : forall c, In c cs -> String.length c <> 2%nat.
Hypothesis Hn : (n <= 4096)%nat.




End Tie.







End BotClaims.

Module GraphClaims.
Import Data Graph GraphFacts.
Local Open Scope string_scope.

(** The specification's sample: two records with "Python;SQL" and
    "SQL;Python". *)
Definition py_sql_df : DataFrame :=
  mkDF ["user_id"; "region"; "timestamp"; "source"; "raw_text"; "skill_tags"; "engagement"]
       [mkRow "u1" "R" 0 "forum" (Some "a") (Some "Python;SQL") 1;
        mkRow "u2" "R" 0 "forum" (Some "b") (Some "SQL;Python") 1].

(** C2: in the graph built by build_skill_graph, no node is its own
    neighbour, and every edge's weight is the number of records whose
    trimmed, deduplicated tag list holds both endpoints, hence at least 1;
    a tag list with 0 or 1 distinct skills yields no pair; the records
    "Python;SQL" and "SQL;Python" give the single edge (Python, SQL) of
    weight 2 and degree 1 for both skills. *)
Theorem skill_graph_edge_weights (df : DataFrame) (g : Adj)
        (top_skills : list (string * nat)) (top_pairs : list (string * string * nat)) :
  build_skill_graph df = Ok (g, top_skills, top_pairs) ->
  (forall n nbrs m w, In (n, nbrs) g -> In (m, w) nbrs ->
     n <> m /\ w = cooccurrences (rows df) n m /\ (1 <= w)%nat)
  /\ (forall t, (List.length (skill_set t) <= 1)%nat -> pairs_of t = [])
  /\ build_skill_graph py_sql_df
     = Ok ([("Python", [("SQL", 2%nat)]); ("SQL", [("Python", 2%nat)])],
           [("Python", 1%nat); ("SQL", 1%nat)],
           [("Python", "SQL", 2%nat)]).
Proof.
  intros Hb. split; [|split].
  - unfold build_skill_graph in Hb. destruct (has_col "skill_tags" df); [|discriminate].
    inversion Hb as [[Hg Ht Hp]]. clear Hb Ht Hp.
    intros n nbrs m w Hn Hm.
    destruct (graph_of_counts_items _ _ _ _ _ Hn Hm) as [Hi|Hi];
      apply pair_counts_item in Hi; destruct Hi as [L [Ew Hw]].
    + split; [intros ->; apply (str_lt_irrefl _ L)|]. split; [|exact Hw].
      rewrite Ew, filter_dropna_tags. reflexivity.
    + split; [intros ->; apply (str_lt_irrefl _ L)|]. split; [|exact Hw].
      rewrite Ew, filter_dropna_tags. unfold cooccurrences. f_equal.
      apply filter_ext. intros r. destruct (skill_tags r); [apply andb_comm|reflexivity].
  - intros t. unfold pairs_of. destruct (skill_set t) as [|x [|y r]]; simpl; auto; lia.
  - vm_compute. reflexivity.
Qed.

Lemma skill_graph_edge_weights_witness :
  build_skill_graph py_sql_df
  = Ok ([("Python", [("SQL", 2%nat)]); ("SQL", [("Python", 2%nat)])],
        [("Python", 1%nat); ("SQL", 1%nat)], [("Python", "SQL", 2%nat)])
  /\ cooccurrences (rows py_sql_df) "Python" "SQL" = 2%nat.
Proof.
  assert (H : build_skill_graph py_sql_df
              = Ok ([("Python", [("SQL", 2%nat)]); ("SQL", [("Python", 2%nat)])],
                    [("Python", 1%nat); ("SQL", 1%nat)], [("Python", "SQL", 2%nat)]))
    by (vm_compute; reflexivity).
  split; [exact H|].
  destruct (skill_graph_edge_weights _ _ _ _ H) as [Hw _].
  destruct (Hw "Python" [("SQL", 2%nat)] "SQL" 2%nat) as [_ [E _]];
    [left; reflexivity|left; reflexivity|].
  symmetry. exact E.
Defined.

End GraphClaims.

Module ClusterClaims.
Import Data Cluster ClusterFacts.
Local Open Scope string_scope.

Definition out_regions (out : list (string * nat * list string)) : list string :=
  map (fun e => fst (fst e)) out.

(** With one cluster, KMeans labels every row 0. *)
Definition kmeans_one (k : nat) (X : list (list nat)) : list nat := map (fun _ => 0%nat) X.

Definition tag_row (reg : string) (tags : option string) : Row :=
  mkRow "u" reg 0 "forum" (Some "t") tags 1.

Definition cluster_cols : list string :=
  ["user_id"; "region"; "timestamp"; "source"; "raw_text"; "skill_tags"; "engagement"].

(** Region R2 only has an empty tag string. *)
Definition two_regions_df : DataFrame :=
  mkDF cluster_cols [tag_row "R1" (Some "Python"); tag_row "R2" (Some "")].

(** C3 (as stated) fails: region R2 of the input is absent from the output
    and k = 1 < min(3, 2); with n_clusters = 0 the call raises. *)
Lemma cluster_regions_drops_region :
  cluster_regions kmeans_one two_regions_df 3 = Ok [("R1", 0%nat, ["Python"])]
  /\ distinct_regions (rows two_regions_df) = ["R1"; "R2"]
  /\ cluster_regions kmeans_one two_regions_df 0 = Err InvalidParameterError.
Proof. vm_compute. repeat split; reflexivity. Qed.

(** C3 (amended): for a non-empty frame with region and skill_tags columns,
    and any KMeans returning one label in [0, k) per row: when some region
    has a record with a non-empty trimmed tag and n_clusters <= 0, the
    call raises; when n_clusters >= 1 it succeeds; a successful
    cluster_regions lists exactly once each, in sorted order, the regions
    having at least one record with a non-empty trimmed tag; every
    cluster_id lies in [0, k) with k = min(n_clusters, number of such
    regions), which is at most the number of distinct regions; success on
    non-empty output needs n_clusters >= 1; each profile row has one count
    per skill column, 0 for skills the region never used. *)
Theorem cluster_regions_assignment
  (kmeans : nat -> list (list nat) -> list nat)
  (Hk : forall k X, (1 <= k)%nat -> (k <= List.length X)%nat ->
        List.length (kmeans k X) = List.length X
        /\ Forall (fun c => (c < k)%nat) (kmeans k X))
  (df : DataFrame) (n : Z) :
  empty df = false -> has_col "region" df = true -> has_col "skill_tags" df = true ->
  (usable_regions (rows df) <> [] -> (n <= 0)%Z ->
     cluster_regions kmeans df n = Err InvalidParameterError)
  /\ ((1 <= n)%Z -> exists out, cluster_regions kmeans df n = Ok out)
  /\ (forall out, cluster_regions kmeans df n = Ok out ->
        NoDup (out_regions out)
        /\ StronglySorted Graph.str_lt (out_regions out)
        /\ (forall r, In r (out_regions out) <-> In r (usable_regions (rows df)))
        /\ (forall e, In e out ->
              (Z.of_nat (snd (fst e))
               < Z.min n (Z.of_nat (Py.nunique string_dec (usable_regions (rows df)))))%Z)
        /\ (out <> [] -> (1 <= n)%Z))
  /\ (Py.nunique string_dec (usable_regions (rows df))
      <= Py.nunique string_dec (map region (rows df)))%nat
  /\ (forall r counts,
        In (r, counts) (profile_matrix (explode_skills (rows df))) ->
        counts = map (pair_count (explode_skills (rows df)) r)
                     (mat_skills (explode_skills (rows df)))
        /\ (forall s, ~ In (r, s) (explode_skills (rows df)) ->
                      pair_count (explode_skills (rows df)) r s = 0%nat)).
Proof.
  intros He Hr Hs.
  assert (Hprof : forall r counts,
             In (r, counts) (profile_matrix (explode_skills (rows df))) ->
             counts = map (pair_count (explode_skills (rows df)) r)
                          (mat_skills (explode_skills (rows df)))
             /\ (forall s, ~ In (r, s) (explode_skills (rows df)) ->
                           pair_count (explode_skills (rows df)) r s = 0%nat)).
  { intros r counts Hin. unfold profile_matrix in Hin. apply in_map_iff in Hin.
    destruct Hin as [r' [E _]]. inversion E; subst. split; [reflexivity|].
    apply pair_count_zero. }
  pose proof (usable_le_distinct (rows df)) as Hle.
  pose proof (mat_regions_length (rows df)) as Hlen.
  pose proof (explode_regions (rows df)) as Hreg.
  unfold cluster_regions. rewrite He, Hr, Hs. cbn [orb negb].
  remember (explode_skills (rows df)) as exp eqn:Ee.
  destruct exp as [|e0 es].
  - split.
    { intros Hu _. exfalso. apply Hu.
      destruct (usable_regions (rows df)) as [|u us]; [reflexivity|].
      exfalso. apply (proj2 (Hreg u)). left. reflexivity. }
    split; [intros _; exists []; reflexivity|].
    split; [|split; assumption].
    intros out H. inversion H; subst out. split; [constructor|]. split; [constructor|]. split.
    + intros r. rewrite <- Hreg. simpl. tauto.
    + split; [intros e []|]. intros C; congruence.
  - cbv zeta.
    set (mat := profile_matrix (e0 :: es)) in *.
    assert (HL : List.length mat = Py.nunique string_dec (usable_regions (rows df)))
      by (unfold mat, profile_matrix; rewrite length_map; exact Hlen).
    assert (Hm : (1 <= List.length mat)%nat).
    { unfold mat, profile_matrix. rewrite length_map.
      assert (Hin : In (fst e0) (mat_regions (e0 :: es)))
        by (apply mat_regions_In; left; reflexivity).
      destruct (mat_regions (e0 :: es)); [contradiction|simpl; lia]. }
    set (k := Z.min n (Z.of_nat (List.length mat))) in *.
    split.
    { intros _ Hn. replace (k <? 1)%Z with true by (symmetry; apply Z.ltb_lt; lia).
      reflexivity. }
    split.
    { intros Hn. replace (k <? 1)%Z with false by (symmetry; apply Z.ltb_ge; lia).
      eexists. reflexivity. }
    split; [|split; assumption].
    intros out H.
    destruct (k <? 1)%Z eqn:Ek; [discriminate|].
    apply Z.ltb_ge in Ek. injection H as Hout.
    destruct (Hk (Z.to_nat k) (map snd mat)) as [Hlab Hlt]; [lia|rewrite length_map; lia|].
    rewrite length_map in Hlab.
    set (labels := kmeans (Z.to_nat k) (map snd mat)) in *.
    assert (Hregs : out_regions out = mat_regions (e0 :: es)).
    { rewrite <- Hout. unfold out_regions. rewrite map_map. simpl.
      rewrite <- (map_map fst fst), map_fst_combine by congruence.
      apply profile_regions. }
    split; [rewrite Hregs; apply mat_regions_NoDup|].
    split; [rewrite Hregs; apply GraphFacts.sorted_ss, Py.uniq_NoDup|]. split.
    + intros r. rewrite Hregs, mat_regions_In. apply Hreg.
    + split.
      * intros e He'. rewrite <- Hout in He'. apply in_map_iff in He'.
        destruct He' as [e' [<- He']]. simpl. destruct e' as [m c]. simpl.
        apply in_combine_r in He'. rewrite Forall_forall in Hlt.
        specialize (Hlt c He'). rewrite <- HL. fold k. lia.
      * intros _; lia.
Qed.

Lemma cluster_regions_assignment_witness :
  cluster_regions kmeans_one two_regions_df 0 = Err InvalidParameterError
  /\ (exists out, cluster_regions kmeans_one two_regions_df 3 = Ok out)
  /\ StronglySorted Graph.str_lt (out_regions [("R1", 0%nat, ["Python"])]).
Proof.
  assert (Hk : forall k X, (1 <= k)%nat -> (k <= List.length X)%nat ->
               List.length (kmeans_one k X) = List.length X
               /\ Forall (fun c => (c < k)%nat) (kmeans_one k X)).
  { intros k X H1 H2. unfold kmeans_one. rewrite length_map. split; [reflexivity|].
    apply Forall_forall. intros c Hc. apply in_map_iff in Hc. destruct Hc as [_ [<- _]]. lia. }
  destruct (cluster_regions_assignment kmeans_one Hk two_regions_df 0)
    as [Herr _]; [vm_compute; reflexivity | vm_compute; reflexivity | vm_compute; reflexivity |].
  destruct (cluster_regions_assignment kmeans_one Hk two_regions_df 3)
    as [_ [Hok [Hout _]]]; [vm_compute; reflexivity | vm_compute; reflexivity
                           | vm_compute; reflexivity |].
  split; [apply Herr; [intros E; vm_compute in E; discriminate | lia]|].
  split; [apply Hok; lia|].
  apply (Hout [("R1", 0%nat, ["Python"])]). vm_compute. reflexivity.
Defined.

(** C10: cluster_regions returns the empty list, raising nothing, when the
    frame is empty, lacks the region or skill_tags column, or every record's
    skill_tags is missing, empty or whitespace only. *)
Theorem cluster_regions_empty_cases
  (kmeans : nat -> list (list nat) -> list nat) (df : DataFrame) (n : Z) :
  (empty df = true \/ has_col "region" df = false \/ has_col "skill_tags" df = false
   \/ Forall (fun r => match skill_tags r with
                       | Some t => forallb Py.is_space (list_ascii_of_string t) = true
                       | None => True
                       end) (rows df)) ->
  cluster_regions kmeans df n = Ok [].
Proof.
  intros H. unfold cluster_regions.
  destruct (empty df || negb (has_col "region" df) || negb (has_col "skill_tags" df)) eqn:C;
    [reflexivity|].
  destruct H as [H|[H|[H|H]]].
  - rewrite H in C. discriminate.
  - rewrite H in C. rewrite orb_true_r in C. discriminate.
  - rewrite H in C. rewrite orb_true_r in C. discriminate.
  - assert (E : explode_skills (rows df) = []).
    { unfold explode_skills. induction (rows df) as [|r rs IH]; [reflexivity|].
      inversion H as [|? ? Hr Hrs]; subst. simpl. rewrite (IH Hrs).
      destruct (skill_tags r) as [t|]; [|reflexivity].
      rewrite (parse_tags_blank t Hr). reflexivity. }
    rewrite E. reflexivity.
Qed.

Definition blank_tags_df : DataFrame :=
  mkDF cluster_cols [tag_row "R1" (Some "   "); tag_row "R2" (Some ""); tag_row "R3" None].

Lemma cluster_regions_empty_cases_witness :
  cluster_regions kmeans_one blank_tags_df 3 = Ok [].
Proof.
  apply cluster_regions_empty_cases. right. right. right.
  repeat constructor.
Defined.

End ClusterClaims.

Module ForecastClaims.
Import Data Forecast ForecastFacts ForecastMore.
Local Open Scope string_scope.

Definition fc_cols : list string :=
  ["user_id"; "region"; "timestamp"; "source"; "raw_text"; "skill_tags"; "engagement"].

(** A record tagged [tags] at time [t]. *)
Definition fc_row (t : Z) (tags : string) : Row :=
  mkRow "u" "R" t "forum" (Some "t") (Some tags) 1.

(** Monday 2024-01-01 00:00 UTC, in ns. *)
Definition monday0 : Z := 1704067200 * 1000000000.

(** [k] Python records on the Monday of week [w] after [monday0]. *)
Definition week_rows (w k : nat) : list Row :=
  repeat (fc_row (monday0 + Z.of_nat w * WEEK_NS)%Z "Python; SQL") k.

(** Ten, twenty and thirty Python records in three consecutive weeks. *)
Definition trend_df : DataFrame :=
  mkDF fc_cols (week_rows 0 10 ++ week_rows 1 20 ++ week_rows 2 30).

(** The weekly series [10, 20, 30] of the spec's example. *)
Definition weekly_10_20_30 : list (Z * nat) :=
  [(monday0 - DAY_NS, 10%nat); (monday0 - DAY_NS + WEEK_NS, 20%nat);
   (monday0 - DAY_NS + 2 * WEEK_NS, 30%nat)]%Z.

(** One Python record at Sunday 2024-01-07 23:59:59.999999999 UTC. *)
Definition sunday_last_ns_df : DataFrame :=
  mkDF fc_cols [fc_row (monday0 + WEEK_NS - 1)%Z "Python"].

(** One Python record at Sunday 2024-01-07 23:59:59 UTC. *)
Definition sunday_last_s_df : DataFrame :=
  mkDF fc_cols [fc_row (monday0 + WEEK_NS - 1000000000)%Z "Python"].

(** C6: the guard cases of forecast_skill.  A skill that is empty after
    stripping, or a skill no record carries, gives the empty result
    (no history, no forecast, "stable"); fewer than two weekly buckets
    give "stable" and no forecast; a horizon of 0 (or less) gives no
    forecast; every predicted count is at least 0. *)
Theorem forecast_guard_cases (res : Resolution) (df : DataFrame) (skill : string) (h : Z) :
  (Py.strip skill = "" -> forecast_skill res df skill h = _empty_result) /\
  (filtered df (Py.strip skill) = [] -> forecast_skill res df skill h = _empty_result) /\
  ((List.length (resample_weekly res (map timestamp (filtered df (Py.strip skill)))) < 2)%nat ->
     trend (forecast_skill res df skill h) = "stable" /\ forecast (forecast_skill res df skill h) = []) /\
  ((h <= 0)%Z -> forecast (forecast_skill res df skill h) = []) /\
  (forall p, In p (forecast (forecast_skill res df skill h)) -> (0 <= snd p)%Q).
Proof.
  unfold forecast_skill.
  destruct (empty df || negb (has_col "timestamp" df) || negb (has_col "skill_tags" df));
    [repeat split; simpl; tauto|].
  destruct (String.eqb (Py.strip skill) "") eqn:Es.
  { repeat split; simpl; tauto. }
  assert (Hs : Py.strip skill <> "") by (intros H; rewrite H in Es; discriminate).
  destruct (filtered df (Py.strip skill)) as [|r rs] eqn:F.
  { repeat split; simpl; tauto. }
  remember (resample_weekly res (map timestamp (r :: rs))) as weekly eqn:W.
  destruct (List.length weekly <? 2)%nat eqn:L.
  - split; [intros H; contradiction|]. split; [intros H; discriminate|].
    split; [split; reflexivity|]. split; [reflexivity|]. simpl; tauto.
  - split; [intros H; contradiction|]. split; [intros H; discriminate|].
    split; [intros H; apply Nat.ltb_lt in H; congruence|].
    split; [|apply fit_and_forecast_nonneg].
    intros Hh. simpl. replace (Z.to_nat h) with 0%nat by lia. reflexivity.
Qed.

Lemma forecast_guard_cases_witness :
  forecast_skill Res_ns trend_df "   " 4 = _empty_result /\
  forecast_skill Res_ns trend_df "Rust" 4 = _empty_result /\
  forecast (forecast_skill Res_ns trend_df "Python" 0) = [].
Proof.
  split; [|split].
  - apply (forecast_guard_cases Res_ns trend_df "   " 4). vm_compute. reflexivity.
  - apply (forecast_guard_cases Res_ns trend_df "Rust" 4). vm_compute. reflexivity.
  - apply (forecast_guard_cases Res_ns trend_df "Python" 0). lia.
Defined.

(** C4: once the weekly series of the filtered records has at least two
    buckets, forecast_skill fits the least-squares line of count against
    bucket index 0, 1, ..., n-1 (its residuals, and its residuals weighted
    by the index, sum to 0); the trend is "rising" iff slope >
    max(0.1, mean * 0.02), "declining" iff slope < -max(0.1, mean * 0.02)
    and "stable" otherwise; and the forecast holds, for i = 1 ..
    horizon_weeks, the point i weeks after the last bucket with value
    max(0, round(slope * (n - 1 + i) + intercept, 1)).  For the series
    [10, 20, 30]: slope 10, mean 20, threshold 0.4, "rising", and one
    week ahead 40.0. *)
Theorem forecast_linear_trend (res : Resolution) (df : DataFrame) (skill : string) (h : Z) :
  let weekly := resample_weekly res (map timestamp (filtered df (Py.strip skill))) in
  let ys := map (fun w => inject_Z (Z.of_nat (snd w))) weekly in
  let n := List.length weekly in
  let slope := polyfit_slope ys in
  let intercept := polyfit_intercept ys in
  let thr := Py.Qmax_py (1 # 10) (mean ys * (2 # 100))%Q in
  let result := forecast_skill res df skill h in
  empty df = false -> has_col "timestamp" df = true -> has_col "skill_tags" df = true ->
  (2 <= n)%nat ->
  (historical result = weekly /\
   (Qsum (map (fun p => snd p - (slope * fst p + intercept)) (combine (xs n) ys)) == 0)%Q /\
   (Qsum (map (fun p => fst p * (snd p - (slope * fst p + intercept))) (combine (xs n) ys))
      == 0)%Q /\
   (trend result = "rising" <-> (thr < slope)%Q) /\
   (trend result = "declining" <-> (slope < - thr)%Q) /\
   (trend result = "stable" <-> (- thr <= slope)%Q /\ (slope <= thr)%Q) /\
   forecast result =
     map (fun i => (fst (last weekly (0%Z, 0%nat)) + Z.of_nat i * WEEK_NS,
                    Py.Qmax_py 0 (Py.round (slope * inject_Z (Z.of_nat (n - 1 + i)) + intercept) 1)))%Z
         (seq 1 (Z.to_nat h))) /\
  (let ys3 := map (fun w => inject_Z (Z.of_nat (snd w))) weekly_10_20_30 in
   (polyfit_slope ys3 == 10)%Q /\ (mean ys3 == 20)%Q /\ (slope_threshold ys3 == 2 # 5)%Q /\
   trend (fit_and_forecast weekly_10_20_30 1) = "rising" /\
   match forecast (fit_and_forecast weekly_10_20_30 1) with
   | [(t, v)] => t = (monday0 - DAY_NS + 3 * WEEK_NS)%Z /\ (v == 40)%Q
   | _ => False
   end).
Proof.
  intros weekly ys n slope intercept thr result He Ht Hk Hn.
  split.
  2:{ vm_compute. repeat split; reflexivity. }
  assert (Hs : Py.strip skill <> "").
  { intros E. unfold n, weekly in Hn. rewrite E, filtered_empty_skill in Hn.
    simpl in Hn. lia. }
  assert (Hres : result = fit_and_forecast weekly h).
  { unfold result, forecast_skill. rewrite He, Ht, Hk. cbn [orb negb].
    destruct (String.eqb (Py.strip skill) "") eqn:Es;
      [apply String.eqb_eq in Es; contradiction|].
    fold weekly in Hn.
    destruct (filtered df (Py.strip skill)) as [|r rs] eqn:F.
    - unfold n, weekly in Hn. simpl in Hn. lia.
    - cbv zeta. fold weekly. unfold n in Hn.
      destruct (List.length weekly <? 2)%nat eqn:L; [apply Nat.ltb_lt in L; lia|].
      reflexivity. }
  assert (Hys : List.length ys = n) by (unfold ys; apply length_map).
  destruct (polyfit_normal_equations ys ltac:(lia)) as [N1 N2].
  rewrite Hys in N1, N2.
  destruct (classify_spec slope thr (slope_threshold_pos ys)) as [C1 [C2 C3]].
  rewrite Hres. simpl. fold ys slope intercept n.
  split; [reflexivity|]. split; [exact N1|]. split; [exact N2|].
  split; [exact C1|]. split; [exact C2|]. split; [exact C3|]. reflexivity.
Qed.

Lemma forecast_linear_trend_witness :
  trend (forecast_skill Res_ns trend_df "Python" 1) = "rising" /\
  match forecast (forecast_skill Res_ns trend_df "Python" 1) with
  | [(t, v)] => t = (monday0 - DAY_NS + 3 * WEEK_NS)%Z /\ (v == 40)%Q
  | _ => False
  end.
Proof.
  destruct (forecast_linear_trend Res_ns trend_df "Python" 1) as [[H1 [_ [_ [R [_ [_ F]]]]]] _];
    [vm_compute; reflexivity | vm_compute; reflexivity | vm_compute; reflexivity
    | apply Nat.leb_le; vm_compute; reflexivity |].
  split.
  - apply R. vm_compute. reflexivity.
  - rewrite F. vm_compute. split; reflexivity.
Defined.

(** C5 (as stated) fails: one record, in the week of Monday 2024-01-01,
    yields two weekly buckets; the second, for the following week, which
    holds no record, has count 0, and with it the series [1, 0] is fitted
    and called "declining".  This happens for the record at Sunday
    23:59:59.999999999 in a column of unit ns, and for the record at
    Sunday 23:59:59 in a column of unit s. *)
Lemma forecast_trailing_empty_week :
  historical (forecast_skill Res_ns sunday_last_ns_df "Python" 1) =
    [((monday0 - DAY_NS)%Z, 1%nat); ((monday0 - DAY_NS + WEEK_NS)%Z, 0%nat)] /\
  trend (forecast_skill Res_ns sunday_last_ns_df "Python" 1) = "declining" /\
  historical (forecast_skill Res_s sunday_last_s_df "Python" 1) =
    [((monday0 - DAY_NS)%Z, 1%nat); ((monday0 - DAY_NS + WEEK_NS)%Z, 0%nat)] /\
  trend (forecast_skill Res_s sunday_last_s_df "Python" 1) = "declining".
Proof. vm_compute. repeat split; reflexivity. Qed.

(** C5 (amended): for a non-empty set of records carrying the skill, in
    a timestamp column of unit [res] (s, ms, us or ns), the historical
    series of forecast_skill is dense: bucket i is labelled L0 + i weeks,
    where L0 is a Sunday midnight, and counts the records in
    [L0 + i weeks + 1 day, L0 + (i+1) weeks + 1 day), i.e. from a Monday
    00:00 to the next; the first bucket holds the earliest record.  When
    the latest record is the last tick of a Sunday at the column's unit
    (23:59:59 for s, 23:59:59.999999999 for ns), it lies in the bucket
    before the last one and the last bucket holds no record; otherwise
    the last bucket holds the latest record. *)
Theorem forecast_weekly_buckets (res : Resolution) (df : DataFrame) (skill : string) (h : Z)
    (r : Row) (rs : list Row) :
  empty df = false -> has_col "timestamp" df = true -> has_col "skill_tags" df = true ->
  filtered df (Py.strip skill) = r :: rs ->
  forallb (fun v => v mod unit_ns res =? 0)%Z (map timestamp (r :: rs)) = true ->
  let ts := map timestamp (r :: rs) in
  let mn := fold_left Z.min (map timestamp rs) (timestamp r) in
  let mx := fold_left Z.max (map timestamp rs) (timestamp r) in
  (forall v, In v ts -> (mn <= v <= mx)%Z) /\ In mn ts /\ In mx ts /\
  exists (L0 : Z) (mb : nat),
    historical (forecast_skill res df skill h) =
      map (fun i => (L0 + Z.of_nat i * WEEK_NS,
                     List.length (filter (fun v => (L0 + Z.of_nat i * WEEK_NS + DAY_NS <=? v)
                                                  && (v <? L0 + Z.of_nat i * WEEK_NS + DAY_NS + WEEK_NS))
                                         ts)))%Z
          (seq 0 mb) /\
    (L0 mod DAY_NS = 0)%Z /\ weekday L0 = 6%Z /\
    (L0 + DAY_NS <= mn < L0 + DAY_NS + WEEK_NS)%Z /\
    (1 <= mb)%nat /\
    (if sunday_last_tick res mx
     then (2 <= mb)%nat /\
          mx = (L0 + DAY_NS + (Z.of_nat mb - 1) * WEEK_NS - unit_ns res)%Z /\
          (forall v, In v ts -> v < L0 + DAY_NS + (Z.of_nat mb - 1) * WEEK_NS)%Z
     else (L0 + DAY_NS + (Z.of_nat mb - 1) * WEEK_NS <= mx
             < L0 + DAY_NS + Z.of_nat mb * WEEK_NS)%Z).
Proof.
  intros He Ht Hk F Hu ts mn mx.
  assert (Hs : Py.strip skill <> "").
  { intros E. rewrite E, filtered_empty_skill in F. discriminate. }
  assert (Hh : historical (forecast_skill res df skill h) = resample_weekly res ts).
  { unfold forecast_skill. rewrite He, Ht, Hk. cbn [orb negb].
    destruct (String.eqb (Py.strip skill) "") eqn:Es;
      [apply String.eqb_eq in Es; contradiction|].
    rewrite F. cbv zeta. fold ts.
    destruct (List.length (resample_weekly res ts) <? 2)%nat; reflexivity. }
  rewrite Hh.
  destruct (fold_min_spec (map timestamp rs) (timestamp r)) as [Mn1 Mn2].
  destruct (fold_max_spec (map timestamp rs) (timestamp r)) as [Mx1 Mx2].
  split; [intros v Hv; split; [apply Mn1, Hv | apply Mx1, Hv]|].
  split; [exact Mn2|]. split; [exact Mx2|].
  destruct (resample_weekly_shape res (timestamp r) (map timestamp rs))
    as [L0 [mb [E [HL0 [Hw [Bmn [Hmb [Bmx H2]]]]]]]].
  fold mn mx in Bmn, Bmx, H2.
  pose proof (unit_ns_bounds res) as Hu1.
  exists L0, mb. split; [|split; [exact HL0|split; [exact Hw|split; [exact Bmn|split; [exact Hmb|]]]]].
  - unfold ts. change (map timestamp (r :: rs)) with (timestamp r :: map timestamp rs).
    rewrite E. apply map_ext. intros i. f_equal.
    apply count_in_units; [lia | | | exact Hu].
    + replace (L0 + Z.of_nat i * WEEK_NS + DAY_NS)%Z with (L0 + DAY_NS + Z.of_nat i * WEEK_NS)%Z
        by ring.
      apply bin_start_units, HL0.
    + unfold WEEK_NS. apply (unit_ns_day res 7).
  - pose proof (sunday_last_tick_edge res L0 mb mx HL0 Hw Bmx) as T.
    destruct (sunday_last_tick res mx) eqn:Tm.
    + assert (Ex : mx = (L0 + DAY_NS + (Z.of_nat mb - 1) * WEEK_NS - unit_ns res)%Z)
        by (apply T; reflexivity).
      split; [apply H2, Ex|]. split; [exact Ex|].
      intros v Hv. specialize (Mx1 v Hv). fold mx in Mx1. lia.
    + assert (Nx : mx <> (L0 + DAY_NS + (Z.of_nat mb - 1) * WEEK_NS - unit_ns res)%Z)
        by (intros Ex; apply T in Ex; discriminate).
      split; [|lia].
      apply (units_gt (unit_ns res)); [lia | apply bin_start_units, HL0 | | lia].
      rewrite forallb_forall in Hu. apply Z.eqb_eq, Hu, Mx2.
Qed.

Lemma forecast_weekly_buckets_witness :
  exists (L0 : Z) (mb : nat),
    historical (forecast_skill Res_s sunday_last_s_df "Python" 1) =
      map (fun i => (L0 + Z.of_nat i * WEEK_NS,
                     List.length (filter (fun v => (L0 + Z.of_nat i * WEEK_NS + DAY_NS <=? v)
                                                  && (v <? L0 + Z.of_nat i * WEEK_NS + DAY_NS + WEEK_NS))
                                         [(monday0 + WEEK_NS - 1000000000)%Z])))%Z
          (seq 0 mb) /\ (2 <= mb)%nat.
Proof.
  destruct (forecast_weekly_buckets Res_s sunday_last_s_df "Python" 1
              (fc_row (monday0 + WEEK_NS - 1000000000) "Python") [])
    as [_ [_ [_ [L0 [mb [H [_ [_ [_ [_ Hif]]]]]]]]]];
    [vm_compute; reflexivity | vm_compute; reflexivity | vm_compute; reflexivity
    | vm_compute; reflexivity | vm_compute; reflexivity |].
  match type of Hif with
  | context [sunday_last_tick Res_s ?x] =>
      replace (sunday_last_tick Res_s x) with true in Hif by (vm_compute; reflexivity)
  end.
  exists L0, mb. split; [exact H | exact (proj1 Hif)].
Defined.

End ForecastClaims.

Module EffectClaims.
Import Data Heap HeapNotations Effects EffectFacts.
Local Open Scope nat_scope.

(** Every pandas operation as the identity or a constant, over the
    record-table model. *)
Definition const_ops : PandasOps DataFrame unit :=
  mkOps DataFrame unit
    columns empty (fun f _ _ => f) (fun f _ => f) (fun f _ => f)
    (fun _ _ _ => tt) (fun _ => BotFilter.mkStats 0 0 0) (fun f => f)
    (fun _ => ([], [], [])) (fun f => f) (fun _ _ => tt) (fun f => f) (fun f => f)
    (fun f => f) (fun f => List.length (rows f)) (fun _ _ => Ok tt) (fun f _ => f) (fun f => f)
    (fun _ _ _ => []) (fun _ f => f) (fun _ _ => tt) (fun f => f)
    (fun _ _ => Forecast._empty_result).

(** A one-row DataFrame. *)
Definition input_df : DataFrame :=
  mkDF ["user_id"; "region"; "timestamp"; "source"; "raw_text"; "skill_tags"; "engagement"]%string
       [mkRow "u" "R" 0 "forum" (Some "hi") (Some "Python; SQL") 1]%string.

(** A heap holding that DataFrame, at location 0. *)
Definition one_frame_heap : @St DataFrame :=
  mkSt (fun l => if Nat.eqb l 0 then Some input_df else None) 1.

(** C9: whatever the pandas operations compute, none of apply_bot_filter,
    build_skill_graph, cluster_regions and forecast_skill changes an object
    that existed before the call (the input DataFrame in particular keeps
    its value, hence every field of every row and its row count); and the
    cleaned DataFrame returned by apply_bot_filter is a new object, the
    rows not flagged of a frame, distinct from the input. *)
Theorem components_leave_input_unchanged {Frame Series : Type}
    (ops : PandasOps Frame Series) (s : St) (df : nat) (v : Frame)
    (cfg : BotFilter.Config) (skill : string) (horizon_weeks n_clusters : Z) :
  heap s df = Some v ->
  (forall l, next s <= l -> heap s l = None) ->
  (forall l, l < next s ->
     heap (snd (apply_bot_filter ops df cfg s)) l = heap s l /\
     heap (snd (build_skill_graph ops df s)) l = heap s l /\
     heap (snd (cluster_regions ops df n_clusters s)) l = heap s l /\
     heap (snd (forecast_skill ops df skill horizon_weeks s)) l = heap s l) /\
  heap (snd (apply_bot_filter ops df cfg s)) df = Some v /\
  heap (snd (build_skill_graph ops df s)) df = Some v /\
  heap (snd (cluster_regions ops df n_clusters s)) df = Some v /\
  heap (snd (forecast_skill ops df skill horizon_weeks s)) df = Some v /\
  (forall cleaned_df stats,
     fst (apply_bot_filter ops df cfg s) = Ok (cleaned_df, stats) ->
     cleaned_df <> df /\ next s <= cleaned_df /\
     exists w, heap (snd (apply_bot_filter ops df cfg s)) cleaned_df = Some (not_bot_rows ops w)).
Proof.
  intros Hv Hwf.
  assert (Hdf : df < next s).
  { destruct (Nat.lt_ge_cases df (next s)) as [H|H]; [exact H|].
    rewrite (Hwf df H) in Hv. discriminate. }
  assert (Keep : forall l, l < next s ->
     heap (snd (apply_bot_filter ops df cfg s)) l = heap s l /\
     heap (snd (build_skill_graph ops df s)) l = heap s l /\
     heap (snd (cluster_regions ops df n_clusters s)) l = heap s l /\
     heap (snd (forecast_skill ops df skill horizon_weeks s)) l = heap s l).
  { intros l Hl. repeat split.
    - apply (confined_apply_bot_filter ops (next s) df cfg s (le_n _)), Hl.
    - apply (confined_build_skill_graph ops (next s) df s (le_n _)), Hl.
    - apply (confined_cluster_regions ops (next s) df n_clusters s (le_n _)), Hl.
    - apply (confined_forecast_skill ops (next s) df skill horizon_weeks s (le_n _)), Hl. }
  split; [exact Keep|].
  destruct (Keep df Hdf) as [K1 [K2 [K3 K4]]].
  rewrite K1, K2, K3, K4. repeat (split; [exact Hv|]).
  intros cleaned_df stats.
  remember (apply_bot_filter ops df cfg s) as res eqn:Eres.
  unfold apply_bot_filter, bind at 1, load at 1 in Eres. rewrite Hv in Eres.
  destruct (filter _ _) as [|c cs]; [|subst res; simpl; discriminate].
  unfold bind at 1, alloc at 1 in Eres.
  set (s0 := mkSt (upd (heap s) (next s) v) (S (next s))) in Eres.
  unfold bind at 1 in Eres.
  destruct (confined_bot_annotate ops (next s) (next s) cfg (le_n _) s0 (le_S _ _ (le_n _)))
    as [Hn1 _].
  destruct (bot_annotate ops (next s) cfg s0) as [[u|e] s1];
    simpl in Hn1; [|subst res; simpl; discriminate].
  unfold bot_finish, bind, load in Eres.
  destruct (heap s1 (next s)) as [w|]; [|subst res; simpl; discriminate].
  unfold alloc, ret in Eres. simpl in Eres. unfold upd in Eres at 1. rewrite Nat.eqb_refl in Eres.
  subst res. simpl. intros H. injection H as <- <-.
  split; [lia|]. split; [lia|].
  exists w. unfold upd. rewrite Nat.eqb_refl. reflexivity.
Qed.

Lemma components_leave_input_unchanged_witness :
  heap (snd (apply_bot_filter const_ops 0 BotFilter.app_config one_frame_heap)) 0
    = Some input_df /\
  heap (snd (forecast_skill const_ops 0 "Python" 4 one_frame_heap)) 0
    = Some input_df.
Proof.
  destruct (components_leave_input_unchanged const_ops one_frame_heap 0 input_df
              BotFilter.app_config "Python" 4 3) as [_ [H1 [_ [_ [H4 _]]]]].
  - reflexivity.
  - intros l Hl. simpl. destruct l; [simpl in Hl; lia|reflexivity].
  - split; [exact H1|exact H4].
Defined.

End EffectClaims.

(** * Further properties of the services *)

Module GraphExtras.
Import Data Graph GraphFacts GraphExact.
Local Open Scope string_scope.
Local Open Scope list_scope.

Definition gx_cols : list string :=
  ["user_id"; "region"; "timestamp"; "source"; "raw_text"; "skill_tags"; "engagement"].

Definition gx_row (u : string) (tags : option string) : Row :=
  mkRow u "R" 0 "forum" (Some "t") tags 1.

Definition gx_df : DataFrame :=
  mkDF gx_cols [gx_row "a" (Some "Python; SQL"); gx_row "b" (Some "SQL;Docker;SQL");
                gx_row "c" (Some "Go"); gx_row "d" None; gx_row "e" (Some "Docker ;SQL")].

(** The same records with permuted, repeated and blank tags. *)
Definition gx_df' : DataFrame :=
  mkDF gx_cols [gx_row "a" (Some "SQL;Python;;Python"); gx_row "b" (Some " Docker;SQL");
                gx_row "c" (Some "Go;Go"); gx_row "d" (Some " "); gx_row "e" (Some "SQL;Docker")].

Definition gx_graph : Adj :=
  [("Python", [("SQL", 1%nat)]); ("SQL", [("Python", 1%nat); ("Docker", 2%nat)]);
   ("Docker", [("SQL", 2%nat)])].

Definition gx_top_skills : list (string * nat) := [("SQL", 2%nat); ("Python", 1%nat); ("Docker", 1%nat)].

Definition gx_top_pairs : list (string * string * nat) :=
  [("SQL", "Docker", 2%nat); ("Python", "SQL", 1%nat)].

Lemma gx_build : build_skill_graph gx_df = Ok (gx_graph, gx_top_skills, gx_top_pairs).
Proof. vm_compute. reflexivity. Qed.

(** X1: when build_skill_graph succeeds, its adjacency lists have distinct
    node keys; a skill is a node exactly when it co-occurs in some record
    with another skill; and a node's neighbour list holds exactly the other
    skills it co-occurs with, each with the number of records where both
    appear. *)
Theorem skill_graph_adjacency (df : DataFrame) (g : Adj) ts tp :
  build_skill_graph df = Ok (g, ts, tp) ->
  NoDup (map fst g)
  /\ (forall n, In n (map fst g) <-> exists m, m <> n /\ (1 <= cooccurrences (rows df) n m)%nat)
  /\ (forall n nbrs, In (n, nbrs) g ->
        forall m w, In (m, w) nbrs <->
          m <> n /\ (1 <= cooccurrences (rows df) n m)%nat /\ w = cooccurrences (rows df) n m).
Proof.
  intros H. destruct (build_skill_graph_ok _ _ _ _ H) as [_ [-> [-> ->]]].
  destruct (graph_exact (rows df)) as [N [Nodes Ent]].
  split; [exact N|]. split; [exact Nodes|]. intros n nbrs Hn. apply (Ent n nbrs Hn).
Qed.

Lemma skill_graph_adjacency_witness :
  build_skill_graph gx_df = Ok (gx_graph, gx_top_skills, gx_top_pairs) /\
  forall m w, In (m, w) [("Python", 1%nat); ("Docker", 2%nat)] <->
    m <> "SQL" /\ (1 <= cooccurrences (rows gx_df) "SQL" m)%nat /\ w = cooccurrences (rows gx_df) "SQL" m.
Proof.
  split; [exact gx_build|].
  destruct (skill_graph_adjacency gx_df _ _ _ gx_build) as [_ [_ E]].
  apply E. simpl. tauto.
Defined.

(** X2: top_skills holds min(10, number of nodes) entries sorted by
    decreasing degree; each entry's degree is the number of distinct other
    skills the skill co-occurs with; and no node left out has a larger
    degree than a listed one. *)
Theorem skill_graph_top_skills (df : DataFrame) (g : Adj) ts tp :
  build_skill_graph df = Ok (g, ts, tp) ->
  List.length ts = Nat.min 10 (List.length g)
  /\ StronglySorted (fun x y => (snd y <= snd x)%nat) ts
  /\ (forall n d, In (n, d) ts ->
        exists ms, NoDup ms
                   /\ (forall m, In m ms <-> m <> n /\ (1 <= cooccurrences (rows df) n m)%nat)
                   /\ d = List.length ms)
  /\ (forall n d, In (n, d) (degrees g) -> ~ In (n, d) ts -> forall e, In e ts -> (d <= snd e)%nat).
Proof.
  intros H. destruct (build_skill_graph_ok _ _ _ _ H) as [_ [-> [-> ->]]].
  destruct (top_k snd 10 (degrees (graph_of_counts (pair_counts (dropna (map skill_tags (rows df)))))))
    as [L [S [I T]]].
  split; [rewrite L; unfold degrees; rewrite length_map; reflexivity|].
  split; [exact S|]. split.
  - intros n d Hn. apply I in Hn. unfold degrees in Hn. apply in_map_iff in Hn.
    destruct Hn as [[n' nbrs] [E Hn]]. simpl in E. inversion E; subst.
    destruct (degree_exact _ _ _ Hn) as [N [K D]]. exists (map fst nbrs). auto.
  - intros n d Hn Hnt e He. apply (T (n, d) Hn Hnt e He).
Qed.

Lemma skill_graph_top_skills_witness :
  build_skill_graph gx_df = Ok (gx_graph, gx_top_skills, gx_top_pairs) /\
  StronglySorted (fun x y => (snd y <= snd x)%nat) gx_top_skills.
Proof.
  split; [exact gx_build|].
  destruct (skill_graph_top_skills gx_df _ _ _ gx_build) as [_ [S _]]. exact S.
Defined.

(** X3: top_pairs holds min(10, number of edges) entries sorted by
    decreasing weight; each (a, b, w) has a <> b and w the number of
    records tagged with both, at least 1; and a co-occurring pair listed in
    neither orientation weighs no more than any listed pair. *)
Theorem skill_graph_top_pairs (df : DataFrame) (g : Adj) ts tp :
  build_skill_graph df = Ok (g, ts, tp) ->
  List.length tp = Nat.min 10 (List.length (edges g))
  /\ StronglySorted (fun x y => (snd y <= snd x)%nat) tp
  /\ (forall a b w, In (a, b, w) tp ->
        a <> b /\ w = cooccurrences (rows df) a b /\ (1 <= w)%nat)
  /\ (forall a b, a <> b -> (1 <= cooccurrences (rows df) a b)%nat ->
        ~ In (a, b, cooccurrences (rows df) a b) tp -> ~ In (b, a, cooccurrences (rows df) a b) tp ->
        forall e, In e tp -> (cooccurrences (rows df) a b <= snd e)%nat).
Proof.
  intros H. destruct (build_skill_graph_ok _ _ _ _ H) as [_ [-> [-> ->]]].
  set (g := graph_of_counts (pair_counts (dropna (map skill_tags (rows df))))).
  destruct (graph_exact (rows df)) as [N [Nodes Ent]]. fold g in N, Nodes, Ent.
  destruct (top_k (fun e : string * string * nat => snd e) 10 (edges g)) as [L [S [I T]]].
  split; [exact L|]. split; [exact S|]. split.
  - intros a b w Hin. apply I in Hin. apply edges_from_In in Hin.
    destruct Hin as [nbrs [Ha Hb]]. apply (Ent _ _ Ha) in Hb. destruct Hb as [Hne [Hc ->]].
    split; [congruence|]. auto.
  - intros a b Hab Hc Hn1 Hn2 e He.
    assert (Ea : exists nb, In (a, nb) g /\ In (b, cooccurrences (rows df) a b) nb).
    { assert (Ha : In a (map fst g)) by (apply Nodes; exists b; auto).
      apply in_map_iff in Ha. destruct Ha as [[a' nb] [E Ha]]. simpl in E. subst a'.
      exists nb. split; [exact Ha|]. apply (Ent _ _ Ha). auto. }
    assert (Eb : exists nb, In (b, nb) g /\ In (a, cooccurrences (rows df) a b) nb).
    { rewrite cooccurrences_sym in Hc |- *.
      assert (Hb : In b (map fst g)) by (apply Nodes; exists a; auto).
      apply in_map_iff in Hb. destruct Hb as [[b' nb] [E Hb]]. simpl in E. subst b'.
      exists nb. split; [exact Hb|]. apply (Ent _ _ Hb). auto. }
    destruct (edges_from_complete g [] a b _ N Ea Eb (fun x => x) (fun x => x)) as [Ed|Ed].
    + apply (T _ Ed Hn1 e He).
    + apply (T _ Ed Hn2 e He).
Qed.

Lemma skill_graph_top_pairs_witness :
  build_skill_graph gx_df = Ok (gx_graph, gx_top_skills, gx_top_pairs) /\
  ("SQL" <> "Docker" /\ 2%nat = cooccurrences (rows gx_df) "SQL" "Docker" /\ (1 <= 2)%nat).
Proof.
  split; [exact gx_build|].
  destruct (skill_graph_top_pairs gx_df _ _ _ gx_build) as [_ [_ [E _]]].
  apply E. simpl. tauto.
Defined.

(** X4: build_skill_graph depends on each record's tags only as a set of
    trimmed non-empty tags: two tables with the skill_tags column present in
    both or neither, whose records pairwise have the same tag sets (order,
    repetition, blanks and missing values aside), give the same result. *)
Theorem skill_graph_tag_sets (df1 df2 : DataFrame) :
  has_col "skill_tags" df1 = has_col "skill_tags" df2 ->
  Forall2 (fun r1 r2 => forall s, In s (tag_list r1) <-> In s (tag_list r2)) (rows df1) (rows df2) ->
  build_skill_graph df1 = build_skill_graph df2.
Proof.
  intros Hc F. unfold build_skill_graph. rewrite Hc.
  rewrite (pair_counts_tag_sets _ _ F). reflexivity.
Qed.

Lemma skill_graph_tag_sets_witness : build_skill_graph gx_df' = build_skill_graph gx_df.
Proof.
  apply skill_graph_tag_sets; [reflexivity|].
  cbn [rows gx_df gx_df']. repeat apply Forall2_cons; try apply Forall2_nil;
    intros s; vm_compute; tauto.
Defined.

End GraphExtras.

Module BotExtras.
Import Data BotFilter BotSpec BotFacts.
Local Open Scope string_scope.
Local Open Scope list_scope.

Definition bx_cols : list string :=
  ["user_id"; "region"; "timestamp"; "source"; "raw_text"; "skill_tags"; "engagement"].

(** Monday 2024-01-01 00:00 UTC plus [d] days and [s] seconds, in ns. *)
Definition bx_time (d s : Z) : Z := ((1704067200 + d * 86400 + s) * 1000000000)%Z.

Definition bx_row (u : string) (t : Z) (text : option string) : Row :=
  mkRow u "R" t "forum" text (Some "Python") 1.

(** A user repeating one text five times, and two ordinary users. *)
Definition bx_df : DataFrame :=
  mkDF bx_cols
    ([bx_row "h1" (bx_time 0 10) (Some "Learning Rust")] ++
     map (fun i => bx_row "spam" (bx_time 1 i) (Some "BUY  now")) [1; 2; 3; 4; 5]%Z ++
     [bx_row "h1" (bx_time 2 10) (Some "rust is fun"); bx_row "h2" (bx_time 2 20) None]).

Definition bx_out : list OutRow * Stats :=
  match apply_bot_filter bx_df app_config with
  | Ok res => res
  | Err _ => ([], mkStats 0 0 0)
  end.

Lemma bx_ok : apply_bot_filter bx_df app_config = Ok (fst bx_out, snd bx_out).
Proof. vm_compute. reflexivity. Qed.



(** X6: running apply_bot_filter again on its own cleaned output (with the
    four added columns) succeeds, keeps every row, flags no user, reports
    0 percent removed, and counts the previous total minus the bots. *)
Theorem bot_filter_second_pass (df : DataFrame) (cfg : Config) cleaned (st : Stats) :
  apply_bot_filter df cfg = Ok (cleaned, st) ->
  exists cleaned' st',
    apply_bot_filter
      (mkDF (columns df ++ ["posts_per_day"; "duplicate_text_ratio"; "is_bot"; "trust_score"]%string)
            (map orow cleaned)) cfg = Ok (cleaned', st')
    /\ map orow cleaned' = map orow cleaned
    /\ bots_detected st' = 0%nat
    /\ percent_removed st' == 0
    /\ total_users st' = (total_users st - bots_detected st)%nat.
Proof.
  intros H. destruct (apply_bot_filter_ok _ _ _ _ H) as [M [_ [T [B _]]]].
  destruct (cleaned_spec _ _ _ _ H) as [E _].
  set (df' := mkDF (columns df ++ ["posts_per_day"; "duplicate_text_ratio"; "is_bot"; "trust_score"]%string)
                   (map orow cleaned)).
  assert (M' : missing_cols df' = []).
  { apply (missing_cols_more df); [exact M|]. intros c Hc. unfold has_col in *. simpl.
    rewrite existsb_app, Hc. reflexivity. }
  set (rows' := map orow cleaned) in *.
  assert (Keep : forall r, In r rows' -> flagged cfg rows' (user_id r) = false).
  { intros r Hr. assert (Hr' := Hr). rewrite E in Hr'. apply filter_In in Hr'.
    destruct Hr' as [_ Hf]. apply negb_true_iff in Hf.
    rewrite (flagged_records cfg (rows df) rows'); [exact Hf|].
    rewrite E. apply (records_of_kept (flagged cfg (rows df))), Hf. }
  assert (NoBot : forall o, In o (annotate cfg rows') -> is_bot o = false).
  { intros o Ho. destruct (annotate_In _ _ _ Ho) as [Hr Hb]. rewrite Hb. apply Keep, Hr. }
  assert (Gen : forall l : list OutRow, (forall o, In o l -> is_bot o = false) ->
                 filter is_bot l = [] /\ filter (fun o => negb (is_bot o)) l = l).
  { induction l as [|o l IH]; intros Hl; simpl; [auto|].
    rewrite (Hl o (or_introl eq_refl)). simpl.
    destruct IH as [I1 I2]; [intros o' Ho'; apply Hl; right; exact Ho'|].
    rewrite I1, I2. auto. }
  destruct (Gen _ NoBot) as [F1 F2].
  unfold apply_bot_filter. rewrite M'. simpl. rewrite F1, F2.
  eexists. eexists. split; [reflexivity|]. simpl.
  split; [apply annotate_rows|]. split; [reflexivity|]. split.
  - rewrite FloatFacts.round_float_zero; [reflexivity|].
    destruct (Nat.eqb _ 0); [reflexivity|].
    rewrite FloatFacts.float_of_Q_zero; [reflexivity|].
    unfold Qdiv. rewrite FloatFacts.float_of_Q_zero; [apply Qmult_0_l|reflexivity].
  - rewrite users_count, T, B. rewrite E.
    apply nunique_filter_users.
Qed.

Lemma bot_filter_second_pass_witness :
  apply_bot_filter bx_df app_config = Ok (fst bx_out, snd bx_out) /\
  exists cleaned' st',
    apply_bot_filter
      (mkDF (columns bx_df ++ ["posts_per_day"; "duplicate_text_ratio"; "is_bot"; "trust_score"])
            (map orow (fst bx_out))) app_config = Ok (cleaned', st')
    /\ map orow cleaned' = map orow (fst bx_out)
    /\ bots_detected st' = 0%nat
    /\ percent_removed st' == 0
    /\ total_users st' = (total_users (snd bx_out) - bots_detected (snd bx_out))%nat.
Proof.
  split; [exact bx_ok|]. exact (bot_filter_second_pass _ _ _ _ bx_ok).
Defined.

(** X7: every kept row carries its user's metrics: posts_per_day between 1
    and the user's record count, duplicate_text_ratio between 0 and 1 and
    equal to 1 exactly when all the user's texts are missing; so under a
    duplicate threshold below 1 a kept user has some text. *)
Theorem bot_filter_metric_bounds (df : DataFrame) (cfg : Config) cleaned (st : Stats) :
  apply_bot_filter df cfg = Ok (cleaned, st) ->
  forall o, In o cleaned ->
  let g := group (rows df) (user_id (orow o)) in
  exists p d,
    o_posts_per_day o = Some p /\ o_duplicate_text_ratio o = Some d
    /\ 1 <= p <= inject_Z (Z.of_nat (List.length g))
    /\ 0 <= d <= 1
    /\ (d == 1 <-> forall r, In r g -> raw_text r = None)
    /\ (threshold_dup cfg < 1 -> exists r, In r g /\ raw_text r <> None).
Proof.
  intros H o Ho g. destruct (cleaned_spec _ _ _ _ H) as [_ A].
  destruct (A o Ho) as [Ha Hb].
  destruct (annotate_fields _ _ _ Ha) as [P [D [Bt _]]].
  destruct (annotate_In _ _ _ Ha) as [Hr _].
  assert (Hg : In (orow o) g) by (apply filter_In; rewrite String.eqb_refl; auto).
  fold g in P, D.
  assert (T1 : (1 <= List.length g)%nat) by (destruct g; [contradiction|simpl; lia]).
  assert (Ad : (1 <= active_days g <= List.length g)%nat).
  { unfold active_days. pose proof (nunique_le_length Z.eq_dec (map (fun r => day_floor (timestamp r)) g)).
    rewrite length_map in H0. lia. }
  assert (Ut : (unique_texts g <= List.length g)%nat).
  { unfold unique_texts. pose proof (nunique_le_length string_dec (dropna (map _norm_text g))).
    pose proof (dropna_length (map _norm_text g)). rewrite length_map in H1. lia. }
  destruct (ratio_bounds (Z.of_nat (unique_texts g)) (Z.of_nat (Nat.max (total_posts g) 1)))
    as [[D0 D1] DE]; [unfold total_posts; lia|lia|].
  assert (Deq : BotFilter.duplicate_text_ratio g == 1 <-> forall r, In r g -> raw_text r = None).
  { unfold BotFilter.duplicate_text_ratio. rewrite DE. split.
    - intros U0 r Hrg. assert (U : unique_texts g = 0%nat) by lia.
      unfold unique_texts in U. apply nunique_zero in U. pose proof (proj1 (dropna_nil _) U) as U'.
      specialize (U' (_norm_text r) (in_map _ _ _ Hrg)). unfold _norm_text in U'.
      destruct (raw_text r); [discriminate|reflexivity].
    - intros Hn. assert (U : unique_texts g = 0%nat).
      { unfold unique_texts. apply nunique_zero, dropna_nil. intros x Hx.
        apply in_map_iff in Hx. destruct Hx as [r [<- Hrg]]. unfold _norm_text.
        rewrite (Hn r Hrg). reflexivity. }
      rewrite U. reflexivity. }
  exists (BotFilter.posts_per_day g), (BotFilter.duplicate_text_ratio g).
  split; [exact P|]. split; [exact D|]. split.
  - unfold BotFilter.posts_per_day, total_posts. apply div_bounds. lia.
  - split; [split; assumption|]. split; [exact Deq|].
    intros Lt. destruct (forallb (fun r => match raw_text r with None => true | Some _ => false end) g)
      eqn:Fa.
    + exfalso. rewrite forallb_forall in Fa.
      assert (Hd : BotFilter.duplicate_text_ratio g == 1).
      { apply Deq. intros r Hrg. specialize (Fa r Hrg). destruct (raw_text r); [discriminate|reflexivity]. }
      rewrite P, D in Bt. simpl in Bt. rewrite Hb in Bt.
      assert (Q : Py.Qltb (threshold_dup cfg) (BotFilter.duplicate_text_ratio g) = true).
      { apply Py.Qltb_spec. rewrite Hd. exact Lt. }
      rewrite Q, orb_true_r in Bt. discriminate.
    + apply not_true_iff_false in Fa. rewrite forallb_forall in Fa.
      destruct (existsb (fun r => match raw_text r with None => false | Some _ => true end) g) eqn:Ex.
      * apply existsb_exists in Ex. destruct Ex as [r [Hrg Er]]. exists r. split; [exact Hrg|].
        destruct (raw_text r); [discriminate|discriminate].
      * exfalso. apply Fa. intros r Hrg. destruct (raw_text r) eqn:Er; [|reflexivity].
        assert (X : existsb (fun r => match raw_text r with None => false | Some _ => true end) g = true)
          by (apply existsb_exists; exists r; rewrite Er; auto).
        congruence.
Qed.

Lemma bot_filter_metric_bounds_witness :
  apply_bot_filter bx_df app_config = Ok (fst bx_out, snd bx_out) /\
  forall o, In o (fst bx_out) ->
  exists p, o_posts_per_day o = Some p /\
            1 <= p <= inject_Z (Z.of_nat (List.length (group (rows bx_df) (user_id (orow o))))).
Proof.
  split; [exact bx_ok|]. intros o Ho.
  destruct (bot_filter_metric_bounds _ _ _ _ bx_ok o Ho) as [p [d [P [_ [B _]]]]].
  exists p. auto.
Defined.

(** X8: bots_detected never exceeds total_users, and percent_removed lies
    between 0 and 100. *)
Theorem bot_filter_percent_bounds (df : DataFrame) (cfg : Config) cleaned (st : Stats) :
  apply_bot_filter df cfg = Ok (cleaned, st) ->
  (bots_detected st <= total_users st)%nat /\ 0 <= percent_removed st <= 100.
Proof.
  intros H. destruct (apply_bot_filter_ok _ _ _ _ H) as [_ [_ [T [B P]]]].
  assert (Le : (bots_detected st <= total_users st)%nat).
  { rewrite T, B. apply filter_length_le. }
  split; [exact Le|]. rewrite P.
  destruct (Nat.eqb (total_users st) 0) eqn:Z0.
  - rewrite FloatFacts.round_float_zero by reflexivity. split; discriminate.
  - apply Nat.eqb_neq in Z0. apply FloatFacts.pct_bounds; lia.
Qed.

Lemma bot_filter_percent_bounds_witness :
  apply_bot_filter bx_df app_config = Ok (fst bx_out, snd bx_out) /\
  (bots_detected (snd bx_out) <= total_users (snd bx_out))%nat /\
  0 <= percent_removed (snd bx_out) <= 100.
Proof.
  split; [exact bx_ok|]. exact (bot_filter_percent_bounds _ _ _ _ bx_ok).
Defined.

(** X9: the text normalisation of the bot filter is idempotent and its
    result is a fixed point of lower(), strip() and the whitespace
    collapse. *)
Theorem normalize_text_canonical (s : string) :
  let n := normalize_text s in
  normalize_text n = n /\ Py.lower n = n /\ Py.strip n = n /\ Py.sub_ws n = n.
Proof.
  intros n. pose proof (TextFacts.normalize_text_l s) as L. fold n in L.
  assert (Back : forall l, list_ascii_of_string n = l -> string_of_list_ascii l = n).
  { intros l <-. apply string_of_list_ascii_of_string. }
  split; [|split; [|split]].
  - rewrite <- (string_of_list_ascii_of_string (normalize_text n)).
    rewrite TextFacts.normalize_text_l, L, TextFacts.norm_l_idem.
    apply Back. exact L.
  - unfold Py.lower. rewrite L, TextFacts.norm_l_lower. apply Back. exact L.
  - unfold Py.strip. rewrite L, (TextFacts.strip_l_id _ (TextFacts.norm_l_no_edge _)).
    apply Back. exact L.
  - unfold Py.sub_ws. rewrite L. unfold TextFacts.norm_l at 1.
    rewrite (TextFacts.collapse_id false _ (TextFacts.collapse_clean false _)).
    apply Back. exact L.
Qed.

End BotExtras.

Module ForecastExtras.
Import Data Forecast ForecastFacts ForecastMore.
Local Open Scope string_scope.
Local Open Scope list_scope.

Definition fx_cols : list string :=
  ["user_id"; "region"; "timestamp"; "source"; "raw_text"; "skill_tags"; "engagement"]%string.

Definition fx_row (t : Z) (tags : option string) : Row :=
  mkRow "u" "R" t "forum" (Some "t"%string) tags 1.

(** Monday 2024-01-01 00:00 UTC, in ns. *)
Definition fx_monday : Z := 1704067200 * 1000000000.

(** [k] records tagged [tags] on the Monday of week [w] after [fx_monday]. *)
Definition fx_week (w k : nat) (tags : option string) : list Row :=
  repeat (fx_row (fx_monday + Z.of_nat w * WEEK_NS)%Z tags) k.

(** Docker in 3, 5 and 7 records of three consecutive weeks, among other
    records. *)
Definition fx_df : DataFrame :=
  mkDF fx_cols (fx_week 0 3 (Some "Docker;Go") ++ fx_week 0 2 (Some "Go") ++
                fx_week 1 5 (Some " Docker ") ++ fx_week 1 1 None ++
                fx_week 2 7 (Some "SQL ; Docker")).

(** X10: once the column guards pass, the weekly counts of forecast_skill's
    history add up to the number of records carrying the stripped skill:
    every matching record falls in exactly one week. *)
Lemma forecast_history_total (res : Resolution) (df : DataFrame) (skill : string) (h : Z) :
  empty df = false -> has_col "timestamp" df = true -> has_col "skill_tags" df = true ->
  list_sum (map snd (historical (forecast_skill res df skill h)))
  = List.length (filtered df (Py.strip skill)).
Proof.
  intros E1 E2 E3. rewrite (forecast_skill_body res df skill h E1 E2 E3).
  destruct (filtered df (Py.strip skill)) as [|r rs] eqn:Ef; [reflexivity|].
  cbv zeta. destruct (List.length (resample_weekly res (map timestamp (r :: rs))) <? 2)%nat;
    cbn [historical]; unfold fit_and_forecast; cbn [historical];
    rewrite resample_weekly_sum, length_map; reflexivity.
Qed.

Lemma forecast_history_total_witness :
  list_sum (map snd (historical (forecast_skill Res_ns fx_df "Docker" 2))) = 15%nat.
Proof.
  rewrite (forecast_history_total Res_ns fx_df "Docker" 2) by (vm_compute; reflexivity).
  vm_compute. reflexivity.
Defined.

(** X11: when the weekly counts lie exactly on a line a + b i over the
    bucket index i, forecast_skill returns that series as history, the
    forecasts max(0, round(a + b (n - 1 + i), 1)) one week apart after
    the last week, and the trend of slope b. *)
Lemma forecast_exact_line (res : Resolution) (df : DataFrame) (skill : string) (h : Z) (a b : Q) :
  let weekly := resample_weekly res (map timestamp (filtered df (Py.strip skill))) in
  let n := List.length weekly in
  empty df = false -> has_col "timestamp" df = true -> has_col "skill_tags" df = true ->
  (2 <= n)%nat ->
  Forall2 (fun w x => inject_Z (Z.of_nat (snd w)) == a + b * x)%Q weekly (xs n) ->
  forecast_skill res df skill h =
    mkResult weekly
      (map (fun i => (fst (last weekly (0%Z, 0%nat)) + Z.of_nat i * WEEK_NS,
                      Py.Qmax_py 0 (Py.round (a + b * inject_Z (Z.of_nat (n - 1 + i))) 1)))%Z
           (seq 1 (Z.to_nat h)))
      (classify b (slope_threshold (map (fun w => inject_Z (Z.of_nat (snd w))) weekly))).
Proof.
  intros weekly n E1 E2 E3 Hn HF. rewrite (forecast_skill_body res df skill h E1 E2 E3).
  subst n weekly.
  destruct (filtered df (Py.strip skill)) as [|r rs] eqn:Ef; [cbn in Hn; lia|].
  cbv zeta. set (weekly := resample_weekly res (map timestamp (r :: rs))) in *.
  destruct (Nat.ltb_spec (List.length weekly) 2) as [Hlt|_]; [lia|].
  set (ys := map (fun w => inject_Z (Z.of_nat (snd w))) weekly).
  assert (Hl : List.length ys = List.length weekly) by apply length_map.
  assert (HF' : Forall2 (fun y x => y == a + b * x)%Q ys (xs (List.length ys))).
  { rewrite Hl. unfold ys. clear -HF. induction HF; constructor; auto. }
  destruct (polyfit_exact a b ys ltac:(lia) HF') as [Hs Hi].
  unfold fit_and_forecast. fold ys. f_equal.
  - apply map_ext. intros i. f_equal. f_equal.
    apply RoundFacts.round_comp. rewrite Hs, Hi. ring.
  - apply classify_comp. exact Hs.
Qed.

Lemma forecast_exact_line_witness :
  forecast_skill Res_ns fx_df "Docker" 2 =
    mkResult [(fx_monday - DAY_NS, 3%nat); (fx_monday - DAY_NS + WEEK_NS, 5%nat);
              (fx_monday - DAY_NS + 2 * WEEK_NS, 7%nat)]%Z
      (map (fun i => (fx_monday - DAY_NS + 2 * WEEK_NS + Z.of_nat i * WEEK_NS,
                      Py.Qmax_py 0 (Py.round (3 + 2 * inject_Z (Z.of_nat (3 - 1 + i))) 1)))%Z
           (seq 1 2))
      (classify 2 (slope_threshold [3; 5; 7]%Q)).
Proof.
  assert (E : resample_weekly Res_ns (map timestamp (filtered fx_df (Py.strip "Docker"))) =
              [(fx_monday - DAY_NS, 3%nat); (fx_monday - DAY_NS + WEEK_NS, 5%nat);
               (fx_monday - DAY_NS + 2 * WEEK_NS, 7%nat)]%Z) by (vm_compute; reflexivity).
  pose proof (forecast_exact_line Res_ns fx_df "Docker" 2 3 2) as H. cbv zeta in H.
  rewrite E in H. apply H.
  - vm_compute. reflexivity.
  - vm_compute. reflexivity.
  - vm_compute. reflexivity.
  - cbn. lia.
  - repeat constructor.
Defined.

(** X12: forecast_skill gives the same result for a query and for its
    stripped form. *)
Lemma forecast_query_trimmed (res : Resolution) (df : DataFrame) (skill : string) (h : Z) :
  forecast_skill res df skill h = forecast_skill res df (Py.strip skill) h.
Proof. unfold forecast_skill. rewrite TextFacts.strip_idem. reflexivity. Qed.

(** X13: a query containing ";" never matches a tag, so forecast_skill
    returns the empty result. *)
Lemma forecast_semicolon_query (res : Resolution) (df : DataFrame) (skill : string) (h : Z) :
  In ";"%char (list_ascii_of_string skill) -> forecast_skill res df skill h = _empty_result.
Proof.
  intros Hsc. unfold forecast_skill.
  destruct (empty df || negb (has_col "timestamp" df) || negb (has_col "skill_tags" df));
    [reflexivity|].
  destruct (String.eqb (Py.strip skill) "") eqn:Es; [reflexivity|]. cbv zeta.
  assert (Hin : In ";"%char (list_ascii_of_string (Py.strip skill))).
  { unfold Py.strip. rewrite list_ascii_of_string_of_list_ascii.
    apply TextFacts.strip_l_keeps; [exact Hsc|reflexivity]. }
  assert (Ef : filtered df (Py.strip skill) = []).
  { unfold filtered. induction (rows df) as [|r rs IH]; [reflexivity|]. cbn [filter].
    rewrite IH. unfold has_skill. destruct (skill_tags r) as [t|]; [|reflexivity].
    destruct (existsb (String.eqb (Py.strip skill)) (Graph.parse_tags t)) eqn:E; [|reflexivity].
    apply existsb_exists in E. destruct E as [x [Hx Ex]]. apply String.eqb_eq in Ex. subst x.
    exfalso. exact (TextFacts.parse_tags_no_sc t _ Hx Hin). }
  rewrite Ef. reflexivity.
Qed.

Lemma forecast_semicolon_query_witness :
  forecast_skill Res_ns fx_df " Docker;Go" 4 = _empty_result.
Proof. apply forecast_semicolon_query. vm_compute. tauto. Defined.

End ForecastExtras.

Module ClusterExtras.
Import Data Cluster ClusterFacts GraphExact ClusterMore.
Local Open Scope string_scope.
Local Open Scope list_scope.

(** A stand-in for KMeans: regions with fewer than four tag occurrences go
    to cluster 0, the others to cluster 1 (or 0 when k = 1). *)
Definition kx_kmeans (k : nat) (m : list (list nat)) : list nat :=
  map (fun v => if Nat.ltb (list_sum v) 4 then 0%nat else Nat.min 1 (k - 1)) m.

Definition kx_cols : list string :=
  ["user_id"; "region"; "timestamp"; "source"; "raw_text"; "skill_tags"; "engagement"].

Definition kx_row (reg tags : string) : Row := mkRow "u" reg 0 "forum" (Some "t") (Some tags) 1.

Definition kx_df : DataFrame :=
  mkDF kx_cols [kx_row "North" "Python;SQL"; kx_row "North" "Python";
                kx_row "South" "Go;Rust;Java;C;Docker;Go;SQL"; kx_row "East" "Rust ;Go";
                kx_row "West" "Python"].

(** Region R1 tagged "_cluster" twice and "Python" once. *)
Definition kx_cluster_df : DataFrame :=
  mkDF kx_cols [kx_row "R1" "_cluster;_cluster;Python"].

(** X14: each region's top_skills in cluster_regions is the region's
    cluster c, listing at most five distinct skills with positive count
    among the exploded tags of c's regions, by decreasing count, leaving
    out the skill "_cluster" (whose column [mat.assign(_cluster=labels)]
    overwrites); no other unlisted skill counts more than a listed one,
    and fewer than five are listed only when all of c's other skills
    are. *)
Lemma cluster_top_skills (kmeans : nat -> list (list nat) -> list nat) (df : DataFrame)
  (n : Z) (out : list (string * nat * list string)) (r : string) (c : nat) (top : list string) :
  let exp := explode_skills (rows df) in
  let mat := profile_matrix exp in
  let labels := kmeans (Z.to_nat (Z.min n (Z.of_nat (List.length mat)))) (map snd mat) in
  let cnt := cluster_count exp labels c in
  cluster_regions kmeans df n = Ok out -> In (r, c, top) out ->
  cluster_of exp labels r = Some c /\
  (List.length top <= 5)%nat /\ NoDup top /\
  (forall s, In s top -> 1 <= cnt s)%nat /\ ~ In "_cluster" top /\
  StronglySorted (fun x y => (cnt y <= cnt x)%nat) top /\
  (forall s s', (1 <= cnt s)%nat -> s <> "_cluster" -> ~ In s top -> In s' top ->
                (cnt s <= cnt s')%nat) /\
  ((List.length top < 5)%nat -> forall s, (1 <= cnt s)%nat -> s <> "_cluster" -> In s top).
Proof.
  intros exp mat labels cnt H Hin.
  destruct (cluster_regions_In kmeans df n out r c top H Hin) as [v [Hin' Etop]].
  fold exp mat labels in Hin', Etop.
  rewrite cluster_sums_counts in Etop. fold cnt in Etop. subst top.
  assert (Hrc : In (r, c) (combine (mat_regions exp) labels)).
  { unfold mat, profile_matrix in Hin'. rewrite combine_map_l in Hin'.
    apply in_map_iff in Hin'. destruct Hin' as [[r0 c0] [E Hp]]. simpl in E.
    injection E as -> _ ->. exact Hp. }
  assert (HK : forall s, In s (filter kept_col (mat_skills exp)) <->
                         In s (mat_skills exp) /\ s <> "_cluster").
  { intros s. rewrite filter_In. unfold kept_col.
    rewrite negb_true_iff, String.eqb_neq. reflexivity. }
  destruct (top5_spec (filter kept_col (mat_skills exp)) cnt
              (NoDup_filter _ (mat_skills_NoDup exp)))
    as [T1 [T2 [T3 [T4 [T5 T6]]]]].
  set (top := top5 (filter kept_col (mat_skills exp)) (map cnt (filter kept_col (mat_skills exp))))
    in *.
  assert (Htop : forall s, In s top -> In s (filter kept_col (mat_skills exp))).
  { intros s Hs. unfold top, top5 in Hs. apply In_firstn_l in Hs.
    apply in_map_iff in Hs. destruct Hs as [[s' x] [Es Hs]]. simpl in Es. subst s'.
    apply filter_In in Hs. destruct Hs as [Hs _]. apply In_firstn_l in Hs.
    apply (Permutation_in _ (sort_desc_perm snd _)) in Hs.
    apply in_combine_l in Hs. exact Hs. }
  split; [|split; [exact T1|split; [exact T2|split; [exact T3|split; [|split; [exact T4|split]]]]]].
  - unfold cluster_of. apply In_assoc_nd; [apply combine_keys_NoDup, mat_regions_NoDup|exact Hrc].
  - intros Hc. apply Htop, HK in Hc. destruct Hc as [_ Hc]. apply Hc. reflexivity.
  - intros s s' Hs Hk Hn Hs'.
    apply (T5 s (proj2 (HK s) (conj (cluster_count_In _ _ _ _ Hs) Hk)) Hs Hn s' Hs').
  - intros Hl s Hs Hk. apply (T6 Hl s (proj2 (HK s) (conj (cluster_count_In _ _ _ _ Hs) Hk)) Hs).
Qed.

Lemma cluster_top_skills_witness :
  cluster_regions kx_kmeans kx_cluster_df 3 = Ok [("R1", 0%nat, ["Python"])] /\
  cluster_regions kx_kmeans kx_df 3 =
    Ok [("East", 0%nat, ["Python"; "Go"; "Rust"; "SQL"]);
        ("North", 0%nat, ["Python"; "Go"; "Rust"; "SQL"]);
        ("South", 1%nat, ["Go"; "C"; "Docker"; "Java"; "Rust"]);
        ("West", 0%nat, ["Python"; "Go"; "Rust"; "SQL"])] /\
  cluster_of (explode_skills (rows kx_df))
    (kx_kmeans 3 (map snd (profile_matrix (explode_skills (rows kx_df))))) "South" = Some 1%nat /\
  (cluster_count (explode_skills (rows kx_df))
     (kx_kmeans 3 (map snd (profile_matrix (explode_skills (rows kx_df))))) 1 "SQL"
   <= cluster_count (explode_skills (rows kx_df))
     (kx_kmeans 3 (map snd (profile_matrix (explode_skills (rows kx_df))))) 1 "Rust")%nat.
Proof.
  assert (H : cluster_regions kx_kmeans kx_df 3 =
    Ok [("East", 0%nat, ["Python"; "Go"; "Rust"; "SQL"]);
        ("North", 0%nat, ["Python"; "Go"; "Rust"; "SQL"]);
        ("South", 1%nat, ["Go"; "C"; "Docker"; "Java"; "Rust"]);
        ("West", 0%nat, ["Python"; "Go"; "Rust"; "SQL"])]) by (vm_compute; reflexivity).
  split; [vm_compute; reflexivity|]. split; [exact H|].
  destruct (cluster_top_skills kx_kmeans kx_df 3 _ "South" 1 ["Go"; "C"; "Docker"; "Java"; "Rust"]
              H ltac:(simpl; tauto)) as [A [_ [_ [_ [_ [_ [B _]]]]]]].
  split; [exact A|]. apply B.
  - vm_compute. lia.
  - discriminate.
  - simpl. intuition discriminate.
  - simpl. tauto.
Defined.

End ClusterExtras.

Module IngestExtras.
Import Data Ingest IngestFacts Overview.
Local Open Scope string_scope.
Local Open Scope list_scope.

(** Timestamps written "2024-01-01" parse to Monday 2024-01-01 00:00 UTC;
    anything else is NaT. *)
Definition ix_parse (col : list (option string)) : list (option Z) :=
  map (fun o => match o with
                | Some s => if String.eqb s "2024-01-01" then Some (1704067200 * 1000000000)%Z
                            else None
                | None => None
                end) col.

Definition ix_now : Z := 1704153600 * 1000000000.

Definition ix_table : CsvTable :=
  mkCsvTable REQUIRED_COLUMNS
    [mkCsvRow "u1" " North " (Some "2024-01-01") " Forum " (Some "hi") (Some "Python; SQL") 1;
     mkCsvRow "u2" "South" (Some "yesterday") "forum" None (Some "Go") 1;
     mkCsvRow "u1" "North" (Some "2024-01-01") "FORUM" (Some "ok") None 2].

Definition ix_ingested : Ingested :=
  match ingest_csv ix_parse ix_now ix_table with Ok d => d | Err _ => mkIngested [] [] end.

(** X15: a table ingest_csv accepts has every required column and both
    metadata columns, so apply_bot_filter and build_skill_graph on it
    cannot fail on a missing column. *)
Lemma ingest_ready_for_services to_datetime utcnow (t : CsvTable) (d : Ingested)
  (cfg : BotFilter.Config) :
  ingest_csv to_datetime utcnow t = Ok d ->
  (forall c, In c (REQUIRED_COLUMNS ++ ["ingestion_time"; "ingestion_type"]) ->
             has_col c (as_df d) = true) /\
  BotFilter.missing_cols (as_df d) = [] /\
  (exists res, BotFilter.apply_bot_filter (as_df d) cfg = Ok res) /\
  (exists res, Graph.build_skill_graph (as_df d) = Ok res).
Proof.
  intros H. destruct (ingest_csv_ok _ _ _ _ H) as [Hreq [Hcols _]].
  assert (Hc : forall c, In c (REQUIRED_COLUMNS ++ ["ingestion_time"; "ingestion_type"]) ->
                         has_col c (as_df d) = true).
  { intros c Hin. unfold has_col, as_df. simpl. apply existsb_exists. exists c.
    split; [|apply String.eqb_refl]. rewrite Hcols, !set_col_In.
    apply in_app_iff in Hin. destruct Hin as [Hin|[<-|[<-|[]]]]; auto. }
  assert (Hm : BotFilter.missing_cols (as_df d) = []).
  { unfold BotFilter.missing_cols. simpl.
    rewrite !Hc by (simpl; tauto). reflexivity. }
  split; [exact Hc|]. split; [exact Hm|]. split.
  - unfold BotFilter.apply_bot_filter. rewrite Hm. eexists. reflexivity.
  - unfold Graph.build_skill_graph. rewrite Hc by (simpl; tauto). eexists. reflexivity.
Qed.

Lemma ingest_ready_for_services_witness :
  ingest_csv ix_parse ix_now ix_table = Ok ix_ingested /\
  exists res, BotFilter.apply_bot_filter (as_df ix_ingested) BotFilter.app_config = Ok res.
Proof.
  assert (H : ingest_csv ix_parse ix_now ix_table = Ok ix_ingested) by (vm_compute; reflexivity).
  split; [exact H|].
  destruct (ingest_ready_for_services ix_parse ix_now ix_table ix_ingested BotFilter.app_config H)
    as [_ [_ [R _]]].
  exact R.
Defined.

(** X16: every ingested row has skill_tags present, its region stripped,
    its source lower-case and stripped, ingestion_type "csv" and the one
    ingestion time; there are as many rows as parsed timestamps. *)
Lemma ingest_normal_form to_datetime utcnow (t : CsvTable) (d : Ingested) :
  ingest_csv to_datetime utcnow t = Ok d ->
  (forall ir, In ir (i_rows d) ->
     skill_tags (irow ir) <> None /\
     Py.strip (region (irow ir)) = region (irow ir) /\
     Py.lower (source (irow ir)) = source (irow ir) /\
     Py.strip (source (irow ir)) = source (irow ir) /\
     ingestion_time ir = utcnow /\ ingestion_type ir = "csv") /\
  ((forall l, List.length (to_datetime l) = List.length l) ->
   List.length (i_rows d)
   = List.length (filter (fun o => match o with Some _ => true | None => false end)
                   (to_datetime (map csv_timestamp (csv_rows t))))).
Proof.
  intros H. destruct (ingest_csv_ok _ _ _ _ H) as [_ [_ Hrows]]. rewrite Hrows. split.
  - intros ir Hir. apply in_map_iff in Hir. destruct Hir as [r [<- Hr]].
    apply in_flat_map in Hr. destruct Hr as [[c [z|]] [_ Hr]]; [|contradiction].
    destruct Hr as [<-|[]]. cbn.
    split; [discriminate|]. split; [apply TextFacts.strip_idem|].
    split; [apply lower_strip_lower|]. split; [apply TextFacts.strip_idem|].
    split; reflexivity.
  - intros Hlen. rewrite length_map, length_flat_map_opt.
    rewrite ForecastFacts.map_snd_combine_eq; [reflexivity|].
    rewrite Hlen, length_map. reflexivity.
Qed.

Lemma ingest_normal_form_witness :
  ingest_csv ix_parse ix_now ix_table = Ok ix_ingested /\ List.length (i_rows ix_ingested) = 2%nat.
Proof.
  assert (H : ingest_csv ix_parse ix_now ix_table = Ok ix_ingested) by (vm_compute; reflexivity).
  split; [exact H|].
  destruct (ingest_normal_form ix_parse ix_now ix_table ix_ingested H) as [_ L].
  rewrite L; [vm_compute; reflexivity|]. intros l. unfold ix_parse. apply length_map.
Defined.

(** X17: on an ingested table, get_overview's user and region counts are
    at most the record count, and total_skills is at least the number of
    distinct trimmed non-empty tags, plus one for the empty piece when a tag
    string has one (a missing value, ingested as the empty string, has one). *)
Lemma overview_counts to_datetime utcnow (t : CsvTable) (d : Ingested) :
  let o := get_overview (as_df d) in
  ingest_csv to_datetime utcnow t = Ok d ->
  (total_users o <= total_records o)%nat /\
  (total_regions o <= total_records o)%nat /\
  (tag_vocabulary (as_df d) <= total_skills o)%nat /\
  ((exists ir, In ir (i_rows d) /\
     match skill_tags (irow ir) with Some s => In "" (Py.split s) | None => False end) ->
   (tag_vocabulary (as_df d) + 1 <= total_skills o)%nat).
Proof.
  intros o _. unfold o, get_overview, tag_vocabulary. cbn [total_users total_records
    total_regions total_skills].
  set (R := rows (as_df d)).
  set (A := flat_map (fun r => match skill_tags r with Some t => Py.split t | None => [] end) R).
  set (B := flat_map (fun r => match skill_tags r with Some t => Graph.parse_tags t | None => [] end) R).
  assert (HB : forall b, In b B -> In b (map Py.strip A)).
  { intros b Hb. unfold B in Hb. apply in_flat_map in Hb. destruct Hb as [r [Hr Hb]].
    destruct (skill_tags r) as [s|] eqn:Es; [|contradiction].
    unfold Graph.parse_tags in Hb. apply filter_In in Hb. destruct Hb as [Hb _].
    apply in_map_iff in Hb. destruct Hb as [p [<- Hp]]. apply in_map.
    unfold A. apply in_flat_map. exists r. rewrite Es. auto. }
  assert (Hsz : forall extra, NoDup (Py.uniq string_dec B ++ extra) ->
                  (forall x, In x extra -> In x (map Py.strip A)) ->
                  (List.length (Py.uniq string_dec B ++ extra) <= Py.nunique string_dec A)%nat).
  { intros extra Hd Hx. eapply Nat.le_trans; [|apply (nunique_map_le string_dec string_dec Py.strip)].
    unfold Py.nunique. apply NoDup_incl_length; [exact Hd|].
    intros y Hy. apply Py.uniq_In. apply in_app_iff in Hy. destruct Hy as [Hy|Hy].
    - apply HB. apply Py.uniq_In in Hy. exact Hy.
    - apply Hx, Hy. }
  split; [eapply Nat.le_trans; [apply BotFacts.nunique_le_length|rewrite length_map; apply le_n]|].
  split; [eapply Nat.le_trans; [apply BotFacts.nunique_le_length|rewrite length_map; apply le_n]|].
  split.
  - unfold Py.nunique at 1. rewrite <- app_nil_r at 1. apply Hsz; [rewrite app_nil_r; apply Py.uniq_NoDup|].
    intros x [].
  - intros [ir [Hir Hs]].
    assert (HA : In "" A).
    { unfold A. apply in_flat_map. exists (irow ir). split; [unfold R; simpl; apply in_map, Hir|].
      destruct (skill_tags (irow ir)); [exact Hs|contradiction]. }
    unfold Py.nunique at 1.
    replace (List.length (Py.uniq string_dec B) + 1)%nat
      with (List.length (Py.uniq string_dec B ++ [""])) by (rewrite length_app; reflexivity).
    apply Hsz.
    + apply NoDup_app; [apply Py.uniq_NoDup|repeat constructor; simpl; tauto|].
      intros x Hx [<-|[]]. apply Py.uniq_In in Hx. unfold B in Hx.
      apply in_flat_map in Hx. destruct Hx as [r [_ Hr]].
      destruct (skill_tags r); [|contradiction]. apply (ForecastFacts.parse_tags_no_empty _ Hr).
    + intros x [<-|[]]. change "" with (Py.strip ""). apply in_map, HA.
Qed.

Lemma overview_counts_witness :
  ingest_csv ix_parse ix_now ix_table = Ok ix_ingested /\
  (tag_vocabulary (as_df ix_ingested) + 1 <= total_skills (get_overview (as_df ix_ingested)))%nat.
Proof.
  assert (H : ingest_csv ix_parse ix_now ix_table = Ok ix_ingested) by (vm_compute; reflexivity).
  split; [exact H|].
  destruct (overview_counts ix_parse ix_now ix_table ix_ingested H) as [_ [_ [_ E]]].
  apply E. exists (mkIngestedRow (normalize_row (mkCsvRow "u1" "North" (Some "2024-01-01") "FORUM"
                                   (Some "ok") None 2) (1704067200 * 1000000000)%Z) ix_now "csv").
  split; [vm_compute; tauto|vm_compute; left; reflexivity].
Defined.

End IngestExtras.
